(** * The training-plan sectionizer of the CARV analyzer front end

    A shallow embedding of [parseTrainingPlan] and [getScoreColor] from
    [frontend/src/App.jsx], with the JavaScript string and regular
    expression primitives they call, and of three other helpers of the
    component: [formatMetricName], the sorting of the files in
    [processFiles] and [deleteProgressLog].

    A JavaScript string is a sequence of UTF-16 code units; it is modelled
    as a list of numbers.  The source contains two characters outside
    ASCII, the arrow U+2192 and the en dash U+2013. *)

From Stdlib Require Import String Ascii.
From Stdlib Require Import List NArith ZArith Arith Lia Bool Floats Sorted.
Import ListNotations.

(** ** Strings *)

Definition char := N.
Definition jsstring := list char.

(** [lit] turns an ASCII literal of this file into a JavaScript string. *)
Fixpoint lit (s : string) : jsstring :=
  match s with
  | EmptyString => []
  | String a t => N_of_ascii a :: lit t
  end.

Arguments lit s%_string.

Definition LF : char := 10%N.
Definition ARROW : char := 8594%N.
Definition ENDASH : char := 8211%N.
Definition QUOTE : char := 34%N.

Definition ch (a : ascii) : char := N_of_ascii a.

Arguments ch a%_char.

Fixpoint str_eqb (a b : jsstring) : bool :=
  match a, b with
  | [], [] => true
  | x :: a', y :: b' => N.eqb x y && str_eqb a' b'
  | _, _ => false
  end.

(** A string is truthy when it is not empty. *)
Definition truthy (s : jsstring) : bool :=
  match s with [] => false | _ => true end.

(** WhiteSpace and LineTerminator of ECMAScript: what [trim] removes and
    what the class [\s] matches. *)
Definition is_space (c : char) : bool :=
  ((9 <=? c) && (c <=? 13) || (c =? 32) || (c =? 160) || (c =? 5760)
   || (8192 <=? c) && (c <=? 8202) || (c =? 8232) || (c =? 8233)
   || (c =? 8239) || (c =? 8287) || (c =? 12288) || (c =? 65279))%N.

Definition is_digit (c : char) : bool := ((48 <=? c) && (c <=? 57))%N.

(** LineTerminator: what the regular expression dot refuses. *)
Definition is_line_terminator (c : char) : bool :=
  ((c =? 10) || (c =? 13) || (c =? 8232) || (c =? 8233))%N.

Fixpoint trimStart (s : jsstring) : jsstring :=
  match s with
  | c :: t => if is_space c then trimStart t else s
  | [] => []
  end.

Definition trimEnd (s : jsstring) : jsstring := rev (trimStart (rev s)).

Definition trim (s : jsstring) : jsstring := trimEnd (trimStart s).

Fixpoint startsWith (s p : jsstring) {struct p} : bool :=
  match p, s with
  | [], _ => true
  | x :: p', y :: s' => N.eqb x y && startsWith s' p'
  | _ :: _, [] => false
  end.

Fixpoint includes (s p : jsstring) : bool :=
  startsWith s p || match s with [] => false | _ :: t => includes t p end.

(** [indexOf] answers -1 when the pattern does not occur. *)
Fixpoint indexOf_from (s p : jsstring) (i : Z) : Z :=
  if startsWith s p then i
  else match s with [] => (-1)%Z | _ :: t => indexOf_from t p (i + 1)%Z end.

Definition indexOf (s p : jsstring) : Z := indexOf_from s p 0%Z.

(** [substring start end]: both ends clamped to the string, swapped when
    they come in the wrong order. *)
Definition clamp (n : Z) (len : nat) : nat := Nat.min (Z.to_nat n) len.

Definition substring (s : jsstring) (a b : Z) : jsstring :=
  let x := clamp a (length s) in
  let y := clamp b (length s) in
  let lo := Nat.min x y in
  let hi := Nat.max x y in
  firstn (hi - lo) (skipn lo s).

Definition substring_from (s : jsstring) (a : Z) : jsstring :=
  skipn (clamp a (length s)) s.

(** [split] on a separator string that is not empty: the pieces between the
    occurrences of the separator, leftmost first and not overlapping.
    [skip] counts the code units of an occurrence still to pass over, [cur]
    holds the piece being read, reversed. *)
Fixpoint split_go (sep s : jsstring) (skip : nat) (cur : jsstring)
  : list jsstring :=
  match s with
  | [] => [rev cur]
  | c :: t =>
      match skip with
      | S n => split_go sep t n cur
      | O =>
          if startsWith s sep
          then rev cur :: split_go sep t (length sep - 1) []
          else split_go sep t 0 (c :: cur)
      end
  end.

Definition split (s sep : jsstring) : list jsstring := split_go sep s 0 [].

Fixpoint join (l : list jsstring) (sep : jsstring) : jsstring :=
  match l with
  | [] => []
  | [x] => x
  | x :: t => x ++ sep ++ join t sep
  end.

(** [replace] with a string pattern: the first occurrence only. *)
Fixpoint replace_str (s pat rep : jsstring) : jsstring :=
  if startsWith s pat then rep ++ skipn (length pat) s
  else match s with [] => [] | c :: t => c :: replace_str t pat rep end.

(** [toLowerCase].  The parser hands every lower-cased string to [includes]
    with an ASCII needle and to nothing else, so what matters is which code
    units of the result are ASCII.  The Unicode tables send A-Z to a-z, the
    Kelvin sign U+212A to k and U+0130 to i followed by U+0307; every other
    code unit outside ASCII stays outside ASCII and is kept as it is. *)
Definition lower_char (c : char) : jsstring :=
  if ((65 <=? c) && (c <=? 90))%N then [(c + 32)%N]
  else if (c =? 8490)%N then [107%N]
  else if (c =? 304)%N then [105%N; 775%N]
  else [c].

Definition toLowerCase (s : jsstring) : jsstring := flat_map lower_char s.

(** ** Regular expressions

    The fragment of the ECMAScript pattern language that the parser uses:
    every quantified atom is a single character class.  The matcher is the
    backtracking matcher of the language definition, in continuation
    passing style. *)

Inductive regex : Type :=
| Eps
| Lit (c : char)
| Cls (p : char -> bool)
| Seq (a b : regex)
| Alt (a b : regex)
| Star (greedy : bool) (p : char -> bool)
| Group (i : nat) (a : regex)
| Bol
| Eol
| Look (a : regex).

Definition Plus (p : char -> bool) : regex := Seq (Cls p) (Star true p).
Definition Opt (a : regex) : regex := Alt a Eps.

Fixpoint Str (s : jsstring) : regex :=
  match s with
  | [] => Eps
  | [c] => Lit c
  | c :: t => Seq (Lit c) (Str t)
  end.

Fixpoint Seqs (l : list regex) : regex :=
  match l with
  | [] => Eps
  | [a] => a
  | a :: t => Seq a (Seqs t)
  end.

Record mstate : Type := MState {
  m_pos : nat;
  m_rest : jsstring;
  m_caps : list (nat * jsstring)
}.

Definition cont := mstate -> option mstate.

(** Canonicalize of the [i] flag, without the [u] flag: a code unit outside
    ASCII is never folded onto an ASCII one, so a pattern letter matches its
    two ASCII cases, and any other pattern character matches itself. *)
Definition upper_ascii (c : char) : char :=
  if ((97 <=? c) && (c <=? 122))%N then (c - 32)%N else c.

Definition char_matches (icase : bool) (c x : char) : bool :=
  if icase then N.eqb (upper_ascii c) (upper_ascii x) else N.eqb c x.

Fixpoint star_greedy (p : char -> bool) (k : cont) (caps : list (nat * jsstring))
  (pos : nat) (s : jsstring) : option mstate :=
  match s with
  | c :: t =>
      if p c then
        match star_greedy p k caps (S pos) t with
        | Some r => Some r
        | None => k (MState pos s caps)
        end
      else k (MState pos s caps)
  | [] => k (MState pos [] caps)
  end.

Fixpoint star_lazy (p : char -> bool) (k : cont) (caps : list (nat * jsstring))
  (pos : nat) (s : jsstring) : option mstate :=
  match k (MState pos s caps) with
  | Some r => Some r
  | None =>
      match s with
      | c :: t => if p c then star_lazy p k caps (S pos) t else None
      | [] => None
      end
  end.

Definition set_cap (i : nat) (v : jsstring) (st : mstate) : mstate :=
  MState (m_pos st) (m_rest st) ((i, v) :: m_caps st).

Fixpoint rmatch (icase : bool) (r : regex) (k : cont) (st : mstate)
  : option mstate :=
  match r with
  | Eps => k st
  | Lit c =>
      match m_rest st with
      | x :: t =>
          if char_matches icase c x
          then k (MState (S (m_pos st)) t (m_caps st)) else None
      | [] => None
      end
  | Cls p =>
      match m_rest st with
      | x :: t =>
          if p x then k (MState (S (m_pos st)) t (m_caps st)) else None
      | [] => None
      end
  | Seq a b => rmatch icase a (rmatch icase b k) st
  | Alt a b =>
      match rmatch icase a k st with
      | Some r => Some r
      | None => rmatch icase b k st
      end
  | Star g p =>
      (if g then star_greedy else star_lazy) p k (m_caps st) (m_pos st) (m_rest st)
  | Group i a =>
      rmatch icase a
        (fun st' =>
           k (set_cap i (firstn (m_pos st' - m_pos st) (m_rest st)) st'))
        st
  | Bol => if Nat.eqb (m_pos st) 0 then k st else None
  | Eol => match m_rest st with [] => k st | _ :: _ => None end
  | Look a =>
      match rmatch icase a Some st with
      | Some _ => k st
      | None => None
      end
  end.

(** A compiled pattern: its flag [i] and its body. *)
Record RegExp : Type := Re { re_icase : bool; re_body : regex }.

(** The match that starts exactly at [pos], where [s] is what is left of the
    subject there. *)
Definition match_at (re : RegExp) (pos : nat) (s : jsstring) : option mstate :=
  rmatch (re_icase re) (re_body re) Some (MState pos s []).

(** The leftmost match at or after [pos]: where it starts and how it ends. *)
Fixpoint search (re : RegExp) (pos : nat) (s : jsstring)
  : option (nat * mstate) :=
  match match_at re pos s with
  | Some st => Some (pos, st)
  | None =>
      match s with
      | [] => None
      | _ :: t => search re (S pos) t
      end
  end.

Fixpoint cap (i : nat) (caps : list (nat * jsstring)) : jsstring :=
  match caps with
  | [] => []
  | (j, v) :: t => if Nat.eqb i j then v else cap i t
  end.

(** [s.match(re)] without the [g] flag: the matched text and the groups. *)
Definition re_match (s : jsstring) (re : RegExp)
  : option (jsstring * list (nat * jsstring)) :=
  match search re 0 s with
  | Some (start, st) =>
      Some (firstn (m_pos st - start) (skipn start s), m_caps st)
  | None => None
  end.

(** [s.replace(re, rep)] without the [g] flag. *)
Definition re_replace (s : jsstring) (re : RegExp) (rep : jsstring) : jsstring :=
  match search re 0 s with
  | Some (start, st) => firstn start s ++ rep ++ m_rest st
  | None => s
  end.

(** [s.replace(re, rep)] with the [g] flag: every match, left to right, the
    search resuming where the last match ended (one further on after an
    empty match). *)
Fixpoint replace_go (re : RegExp) (rep : jsstring) (pos : nat) (s : jsstring)
  (skip : nat) : jsstring :=
  match s with
  | [] =>
      match skip with
      | S _ => []
      | O => match match_at re pos [] with Some _ => rep | None => [] end
      end
  | c :: t =>
      match skip with
      | S n => replace_go re rep (S pos) t n
      | O =>
          match match_at re pos s with
          | Some st =>
              match m_pos st - pos with
              | O => rep ++ c :: replace_go re rep (S pos) t 0
              | S n => rep ++ replace_go re rep (S pos) t n
              end
          | None => c :: replace_go re rep (S pos) t 0
          end
      end
  end.

Definition re_replace_all (s : jsstring) (re : RegExp) (rep : jsstring)
  : jsstring := replace_go re rep 0 s 0.

(** [s.match(re)] with the [g] flag, then [|| []]: the matched texts. *)
Fixpoint match_all_go (re : RegExp) (pos : nat) (s : jsstring) (skip : nat)
  : list jsstring :=
  match s with
  | [] =>
      match skip with
      | S _ => []
      | O => match match_at re pos [] with Some _ => [[]] | None => [] end
      end
  | c :: t =>
      match skip with
      | S n => match_all_go re (S pos) t n
      | O =>
          match match_at re pos s with
          | Some st =>
              firstn (m_pos st - pos) s
                :: match_all_go re (S pos) t (m_pos st - pos - 1)
          | None => match_all_go re (S pos) t 0
          end
      end
  end.

Definition re_match_all (s : jsstring) (re : RegExp) : list jsstring :=
  match_all_go re 0 s 0.

(** [s.split(re)] for a pattern without groups.  A match is tried at each
    position before the end of the subject; a match that ends where the
    current piece starts is passed over. *)
Fixpoint re_split_go (re : RegExp) (pos : nat) (s : jsstring) (skip : nat)
  (cur : jsstring) : list jsstring :=
  match s with
  | [] => [rev cur]
  | c :: t =>
      match skip with
      | S n => re_split_go re (S pos) t n cur
      | O =>
          match match_at re pos s with
          | Some st =>
              match m_pos st - pos with
              | O =>
                  match cur with
                  | [] => re_split_go re (S pos) t 0 [c]
                  | _ :: _ => rev cur :: re_split_go re (S pos) t 0 [c]
                  end
              | S n => rev cur :: re_split_go re (S pos) t n []
              end
          | None => re_split_go re (S pos) t 0 (c :: cur)
          end
      end
  end.

Definition re_split (s : jsstring) (re : RegExp) : list jsstring :=
  match s with
  | [] => match match_at re 0 [] with Some _ => [] | None => [[]] end
  | _ :: _ => re_split_go re 0 s 0 []
  end.

(** ** The patterns of the parser *)

Definition dot (c : char) : bool := negb (is_line_terminator c).
Definition any_char (c : char) : bool := true.
Definition is_ch (a : ascii) (c : char) : bool := N.eqb c (ch a).
Definition digit_or_dash (c : char) : bool := is_digit c || is_ch "-" c.
Definition not_star (c : char) : bool := negb (is_ch "*" c).

(** [/^-\s*/] *)
Definition re_dash : RegExp :=
  Re false (Seqs [Bol; Lit (ch "-"); Star true is_space]).

(** The pattern of the cue label: a lazy run of dots, then a colon or a
    double quote, then [\s*]. *)
Definition re_cue : RegExp :=
  Re false (Seqs [Star false dot;
                  Cls (fun c => is_ch ":" c || N.eqb c QUOTE);
                  Star true is_space]).

(** The global pattern of one double quote (its class lists the double
    quote twice). *)
Definition re_quotes : RegExp := Re false (Cls (fun c => N.eqb c QUOTE)).

(** [/^\*\*.*?\*\*:?\s*/] *)
Definition re_boldlabel : RegExp :=
  Re false (Seqs [Bol; Str (lit "**"); Star false dot; Str (lit "**");
                  Opt (Lit (ch ":")); Star true is_space]).

(** The three patterns of a sub-block heading differ by one word:
    [/###\s*Priority\s*\d+/i], [/###\s*Drill\s*\d+/i] and
    [/###\s*Day\s*\d+/i]. *)
Definition re_subheading (word : jsstring) : RegExp :=
  Re true (Seqs [Str (lit "###"); Star true is_space; Str word;
                 Star true is_space; Plus is_digit]).

(** [/###\s*Priority\s*\d+/i] *)
Definition re_priority : RegExp := re_subheading (lit "Priority").

(** [/Current:\s*(\d+).*?→.*?(\d+)/i] *)
Definition re_current : RegExp :=
  Re true (Seqs [Str (lit "Current:"); Star true is_space;
                 Group 1 (Plus is_digit); Star false dot; Lit ARROW;
                 Star false dot; Group 2 (Plus is_digit)]).

(** [/\*\*/g] *)
Definition re_bold : RegExp := Re false (Str (lit "**")).

(** [/\[.*?\]/g] *)
Definition re_bracket : RegExp :=
  Re false (Seqs [Lit (ch "["); Star false dot; Lit (ch "]")]).

(** [/[:\[\]#*]/g] *)
Definition re_punct : RegExp :=
  Re false (Cls (fun c => is_ch ":" c || is_ch "[" c || is_ch "]" c || is_ch "#" c
                          || is_ch "*" c)).

(** [/###\s*Drill\s*\d+/i] *)
Definition re_drill : RegExp := re_subheading (lit "Drill").

(** [/[:\-–]/g] *)
Definition re_colondash : RegExp :=
  Re false (Cls (fun c => is_ch ":" c || is_ch "-" c || N.eqb c ENDASH)).

Definition focus_words : regex :=
  Alt (Str (lit "Primary Focus"))
    (Alt (Str (lit "Secondary Focus"))
       (Alt (Str (lit "Integration")) (Str (lit "Refinement")))).

(** [/Primary Focus|Secondary Focus|Integration|Refinement/gi] *)
Definition re_focuswords : RegExp := Re true focus_words.

(** [/(Primary Focus|Secondary Focus|Integration|Refinement)/i] *)
Definition re_focuscap : RegExp := Re true (Group 1 focus_words).

(** [/\*\*Run\s*[\d-]+/i] *)
Definition re_runsplit : RegExp :=
  Re true (Seqs [Str (lit "**Run"); Star true is_space; Plus digit_or_dash]).

(** [/\*\*Run\s*[\d-]+[^*]*\*\*/gi] *)
Definition re_runheader : RegExp :=
  Re true (Seqs [Str (lit "**Run"); Star true is_space; Plus digit_or_dash;
                 Star true not_star; Str (lit "**")]).

(** [/Run\s*([\d-]+)/i] *)
Definition re_runnum : RegExp :=
  Re true (Seqs [Str (lit "Run"); Star true is_space;
                 Group 1 (Plus digit_or_dash)]).

(** [/:\s*([^*]+)/i] *)
Definition re_phase : RegExp :=
  Re true (Seqs [Lit (ch ":"); Star true is_space; Group 1 (Plus not_star)]).

(** [/###\s*Day\s*\d+/i] *)
Definition re_day : RegExp := re_subheading (lit "Day").

(** [/###\s*Week\s*1[-–]2[\s\S]*?(?=###|$)/i] and the same for weeks 3-4 *)
Definition re_week (a b : ascii) : RegExp :=
  Re true (Seqs [Str (lit "###"); Star true is_space; Str (lit "Week");
                 Star true is_space; Lit (ch a);
                 Cls (fun c => is_ch "-" c || N.eqb c ENDASH); Lit (ch b);
                 Star false any_char; Look (Alt (Str (lit "###")) Eol)]).

(** The session line in bold: two stars, group 1 [Run\s*[\d-]+], two stars,
    an optional colon, [\s*], and group 2, a greedy run of dots; flag [i]. *)
Definition re_session_bold : RegExp :=
  Re true (Seqs [Str (lit "**");
                 Group 1 (Seqs [Str (lit "Run"); Star true is_space;
                                Plus digit_or_dash]);
                 Str (lit "**"); Opt (Lit (ch ":")); Star true is_space;
                 Group 2 (Star true dot)]).

(** The plain session line: group 1 [Run\s*[\d-]+], an optional colon,
    [\s*], and group 2, a greedy run of dots; flag [i]. *)
Definition re_session_plain : RegExp :=
  Re true (Seqs [Group 1 (Seqs [Str (lit "Run"); Star true is_space;
                                Plus digit_or_dash]);
                 Opt (Lit (ch ":")); Star true is_space;
                 Group 2 (Star true dot)]).

(** ** The parsed plan *)

Module ImmediateFocus.
Record t : Type := Build {
    drill : jsstring; cue : jsstring; details : list jsstring }.
Definition empty : t := Build [] [] [].
End ImmediateFocus.

Module Drill.
Record t : Type := Build {
    name : jsstring; focus : jsstring; targetMetric : jsstring;
    why : jsstring; execution : jsstring; runsPerSession : jsstring;
    turnsPerRun : jsstring; terrain : jsstring; successFeels : jsstring;
    commonMistake : jsstring; progression : jsstring }.
Definition empty : t := Build [] [] [] [] [] [] [] [] [] [] [].
End Drill.

Module Run.
Record t : Type := Build {
    runs : jsstring; phase : jsstring; details : list jsstring }.
End Run.

Module Day.
Record t : Type := Build {
    dayNum : nat; name : jsstring; primaryFocus : jsstring;
    secondary : jsstring; terrain : jsstring; goal : jsstring;
    details : list jsstring }.
End Day.

Module Priority.
Record t : Type := Build {
    name : jsstring; current : jsstring; target : jsstring;
    drill : jsstring; terrain : jsstring; details : list jsstring }.
Definition empty : t := Build [] [] [] [] [] [].
End Priority.

Module Progression.
Record t : Type := Build {
    week1_2 : list jsstring; week3_4 : list jsstring }.
Definition empty : t := Build [] [].
End Progression.

Module Session.
Record t : Type := Build { run : jsstring; activity : jsstring }.
End Session.

(** The object [sections] that [parseTrainingPlan] returns.  [rawSections]
    is an object used as a map from heading to body; it is kept as the list
    of its properties in the order of their creation. *)
Record Sections : Type := Build_Sections {
  title : jsstring;
  bigPicture : list jsstring;
  immediateFocus : ImmediateFocus.t;
  drills : list Drill.t;
  dailyPlan : list Run.t;
  weeklySchedule : list Day.t;
  weekPlan : list Priority.t;
  strengths : list jsstring;
  progression : Progression.t;
  sessionPlan : list Session.t;
  checkpoints : list jsstring;
  mentalCues : list jsstring;
  traps : list jsstring;
  rawSections : list (jsstring * jsstring)
}.

Definition initial_sections : Sections :=
  Build_Sections [] [] ImmediateFocus.empty [] [] [] [] []
    Progression.empty [] [] [] [] [].

(** ** Extraction from the body of a section *)

Definition lines_of (content : jsstring) : list jsstring := split content [LF].

(** [l => l.trim()] as a filter: the lines that are not blank. *)
Definition nonblank (l : jsstring) : bool := truthy (trim l).

Definition is_bullet (l : jsstring) : bool := startsWith (trim l) (lit "-").

(** [l.replace(/^-\s*/, '').trim()] *)
Definition strip_bullet (l : jsstring) : jsstring :=
  trim (re_replace l re_dash []).

(** [content.split('\n').filter(l => l.trim().startsWith('-'))
      .map(l => l.replace(/^-\s*/, '').trim())], the expression behind
    [bigPicture], [strengths], [checkpoints], [mentalCues], [traps], the two
    lists of [progression] and the details of a run. *)
Definition bullets (content : jsstring) : list jsstring :=
  map strip_bullet (filter is_bullet (lines_of content)).

(** [l.replace(/^-\s*/, '').replace(/^\*\*.*?\*\*:?\s*/, '').trim()] *)
Definition strip_label (l : jsstring) : jsstring :=
  trim (re_replace (re_replace l re_dash []) re_boldlabel []).

(** [s.replace(/\*\*/g, '')] *)
Definition strip_bold (s : jsstring) : jsstring := re_replace_all s re_bold [].

Definition is_cue_line (l : jsstring) : bool :=
  includes l (lit "Mental cue") || includes l (lit "mental cue")
  || includes l (lit "Cue:").

Definition cue_of (l : jsstring) : jsstring :=
  trim (re_replace_all (re_replace l re_cue []) re_quotes []).

(** The branch of [immediate focus].  The callback of [map] assigns the cue
    as it goes, so the cue of the last cue line stays. *)
Definition immediateFocusOf (content : jsstring) (old : ImmediateFocus.t)
  : ImmediateFocus.t :=
  let lines := filter nonblank (lines_of content) in
  ImmediateFocus.Build
    (ImmediateFocus.drill old)
    (fold_left (fun c l => if is_cue_line l then cue_of l else c) lines
       (ImmediateFocus.cue old))
    (filter (fun l => truthy l && negb (startsWith l (lit "#")))
       (map strip_label lines)).

(** One turn of [lines.forEach] in a priority block.  [label] and [value]
    are the first two pieces of [line.split(':')], trimmed; the line holds a
    colon there, so both exist. *)
Definition priority_line (p : Priority.t) (line : jsstring) : Priority.t :=
  let p1 :=
    if includes line (lit "Current:") && includes line [ARROW] then
      match re_match line re_current with
      | Some (_, caps) =>
          Priority.Build (Priority.name p) (cap 1 caps) (cap 2 caps)
            (Priority.drill p) (Priority.terrain p) (Priority.details p)
      | None => p
      end
    else p in
  let p2 :=
    if includes line (lit ":") then
      let parts := map trim (split line (lit ":")) in
      let label := nth 0 parts [] in
      let value := nth 1 parts [] in
      Priority.Build
        (if negb (truthy (Priority.name p1)) && startsWith line (lit "###")
         then trim (re_replace_all (replace_str line (lit "###") [])
                      re_bracket [])
         else Priority.name p1)
        (Priority.current p1) (Priority.target p1)
        (if includes (toLowerCase label) (lit "drill")
         then strip_bold value else Priority.drill p1)
        (if includes (toLowerCase label) (lit "terrain")
         then strip_bold value else Priority.terrain p1)
        (Priority.details p1)
    else p1 in
  Priority.Build (Priority.name p2) (Priority.current p2) (Priority.target p2)
    (Priority.drill p2) (Priority.terrain p2)
    (Priority.details p2 ++ [strip_label line]).

Definition priority_block (block : jsstring) : Priority.t :=
  let lines := filter nonblank (lines_of block) in
  let p := fold_left priority_line lines Priority.empty in
  match lines with
  | l0 :: _ =>
      if negb (truthy (Priority.name p)) && truthy l0
      then Priority.Build (trim (re_replace_all l0 re_punct []))
             (Priority.current p) (Priority.target p) (Priority.drill p)
             (Priority.terrain p) (Priority.details p)
      else p
  | [] => p
  end.

Definition weekPlanOf (content : jsstring) : list Priority.t :=
  filter (fun p => truthy (Priority.name p) || truthy (Priority.drill p))
    (map priority_block (filter nonblank (re_split content re_priority))).

(** [lines.indexOf(line)]: where [line] first occurs, -1 when nowhere. *)
Fixpoint list_indexOf_from (l : list jsstring) (x : jsstring) (i : Z) : Z :=
  match l with
  | [] => (-1)%Z
  | y :: t => if str_eqb y x then i else list_indexOf_from t x (i + 1)%Z
  end.

Definition list_indexOf (l : list jsstring) (x : jsstring) : Z :=
  list_indexOf_from l x 0%Z.

(** [line.replace(/^-\s*/, '').replace(/\*\*/g, '')] *)
Definition clean_line (line : jsstring) : jsstring :=
  strip_bold (re_replace line re_dash []).

Definition label_of (cleanLine : jsstring) : jsstring :=
  toLowerCase (substring cleanLine 0 (indexOf cleanLine (lit ":"))).

Definition value_of (cleanLine : jsstring) : jsstring :=
  trim (substring_from cleanLine (indexOf cleanLine (lit ":") + 1)).

Definition drill_line (lines : list jsstring) (d : Drill.t) (line : jsstring)
  : Drill.t :=
  let cleanLine := clean_line line in
  let d1 :=
    if includes line (lit ":") then
      let label := label_of cleanLine in
      let value := value_of cleanLine in
      let upd (needle : jsstring) (old : jsstring) :=
        if includes label needle then value else old in
      Drill.Build (Drill.name d) (Drill.focus d)
        (upd (lit "target metric") (Drill.targetMetric d))
        (upd (lit "why this drill") (Drill.why d))
        (upd (lit "execution") (Drill.execution d))
        (upd (lit "runs per session") (Drill.runsPerSession d))
        (upd (lit "turns per run") (Drill.turnsPerRun d))
        (upd (lit "terrain") (Drill.terrain d))
        (upd (lit "success feels") (Drill.successFeels d))
        (upd (lit "common mistake") (Drill.commonMistake d))
        (upd (lit "progression") (Drill.progression d))
    else d in
  if negb (truthy (Drill.name d1)) && Z.eqb (list_indexOf lines line) 0 then
    Drill.Build
      (trim (re_replace_all (re_replace_all cleanLine re_colondash (lit " "))
               re_focuswords []))
      (match re_match line re_focuscap with
       | Some (_, caps) => cap 1 caps
       | None => Drill.focus d1
       end)
      (Drill.targetMetric d1) (Drill.why d1) (Drill.execution d1)
      (Drill.runsPerSession d1) (Drill.turnsPerRun d1) (Drill.terrain d1)
      (Drill.successFeels d1) (Drill.commonMistake d1) (Drill.progression d1)
  else d1.

Definition drill_block (block : jsstring) : Drill.t :=
  let lines := filter nonblank (lines_of block) in
  fold_left (drill_line lines) lines Drill.empty.

Definition drillsOf (content : jsstring) : list Drill.t :=
  filter (fun d => truthy (Drill.name d) || truthy (Drill.execution d))
    (map drill_block (filter nonblank (re_split content re_drill))).

(** [l.map((x, idx) => f x idx)] *)
Fixpoint mapi_from {A B : Type} (f : A -> nat -> B) (l : list A) (i : nat)
  : list B :=
  match l with
  | [] => []
  | x :: t => f x i :: mapi_from f t (S i)
  end.

Definition mapi {A B : Type} (f : A -> nat -> B) (l : list A) : list B :=
  mapi_from f l 0.

Definition run_entry (runBlocks : list jsstring) (runHeader : jsstring)
  (idx : nat) : Run.t :=
  let blockContent := nth (idx + 1) runBlocks [] in
  Run.Build
    (match re_match runHeader re_runnum with
     | Some (_, caps) => cap 1 caps
     | None => []
     end)
    (match re_match runHeader re_phase with
     | Some (_, caps) => trim (cap 1 caps)
     | None => []
     end)
    (bullets blockContent).

Definition dailyPlanOf (content : jsstring) : list Run.t :=
  let runBlocks := filter nonblank (re_split content re_runsplit) in
  let runMatches := re_match_all content re_runheader in
  mapi (run_entry runBlocks) runMatches.

Definition day_line (lines : list jsstring) (d : Day.t) (line : jsstring)
  : Day.t :=
  let cleanLine := clean_line line in
  let d1 :=
    if includes line (lit ":") then
      let label := label_of cleanLine in
      let value := value_of cleanLine in
      let upd (needle : jsstring) (old : jsstring) :=
        if includes label needle then value else old in
      Day.Build (Day.dayNum d) (Day.name d)
        (upd (lit "primary focus") (Day.primaryFocus d))
        (upd (lit "secondary") (Day.secondary d))
        (upd (lit "terrain") (Day.terrain d))
        (upd (lit "goal") (Day.goal d))
        (if includes label (lit "add")
         then Day.details d ++ [lit "Add: " ++ value] else Day.details d)
    else d in
  if negb (truthy (Day.name d1)) && Z.eqb (list_indexOf lines line) 0 then
    Day.Build (Day.dayNum d1)
      (trim (re_replace_all cleanLine re_colondash (lit " ")))
      (Day.primaryFocus d1) (Day.secondary d1) (Day.terrain d1) (Day.goal d1)
      (Day.details d1)
  else d1.

Definition day_block (block : jsstring) (idx : nat) : Day.t :=
  let lines := filter nonblank (lines_of block) in
  fold_left (day_line lines) lines (Day.Build (idx + 1) [] [] [] [] [] []).

Definition weeklyScheduleOf (content : jsstring) : list Day.t :=
  filter (fun d => truthy (Day.name d) || truthy (Day.primaryFocus d))
    (mapi day_block (filter nonblank (re_split content re_day))).

Definition progressionOf (content : jsstring) (old : Progression.t)
  : Progression.t :=
  Progression.Build
    (match re_match content (re_week "1" "2") with
     | Some (m, _) => bullets m
     | None => Progression.week1_2 old
     end)
    (match re_match content (re_week "3" "4") with
     | Some (m, _) => bullets m
     | None => Progression.week3_4 old
     end).

Definition session_entry (l : jsstring) : Session.t :=
  let found :=
    match re_match l re_session_bold with
    | Some m => Some m
    | None => re_match l re_session_plain
    end in
  match found with
  | Some (_, caps) => Session.Build (cap 1 caps) (strip_bold (cap 2 caps))
  | None => Session.Build [] (trim (strip_bold l))
  end.

Definition sessionPlanOf (content : jsstring) : list Session.t :=
  filter (fun s => truthy (Session.activity s))
    (map session_entry
       (filter (fun l => startsWith (trim l) (lit "**")
                         || startsWith (trim l) (lit "Run"))
          (lines_of content))).

(** ** The raw sections: an object used as a map *)

(** [obj[key] = v] on an object that has the property or gets it at the
    end of its properties. *)
Fixpoint raw_put (raw : list (jsstring * jsstring)) (key v : jsstring)
  : list (jsstring * jsstring) :=
  match raw with
  | [] => [(key, v)]
  | (k, x) :: t =>
      if str_eqb k key then (k, v) :: t else (k, x) :: raw_put t key v
  end.

(** [sections.rawSections[key] = v].  The object is an object literal, so
    the key [__proto__] reaches the setter of [Object.prototype], which
    ignores a string: no property is created. *)
Definition raw_set (raw : list (jsstring * jsstring)) (key v : jsstring)
  : list (jsstring * jsstring) :=
  if str_eqb key (lit "__proto__") then raw else raw_put raw key v.

Fixpoint raw_get (raw : list (jsstring * jsstring)) (key : jsstring)
  : option jsstring :=
  match raw with
  | [] => None
  | (k, x) :: t => if str_eqb k key then Some x else raw_get t key
  end.

(** A key is an array index when it is the decimal form of an integer below
    2^32 - 1. *)
Definition array_index (k : jsstring) : option N :=
  match k with
  | [] => None
  | c :: t =>
      if forallb is_digit k && (negb (N.eqb c 48) || negb (truthy t)) then
        let v := fold_left (fun a d => (a * 10 + (d - 48))%N) k 0%N in
        if (v <=? 4294967294)%N then Some v else None
      else None
  end.

Fixpoint insert_index (x : N * jsstring) (l : list (N * jsstring))
  : list (N * jsstring) :=
  match l with
  | [] => [x]
  | y :: t => if (fst x <=? fst y)%N then x :: l else y :: insert_index x t
  end.

Definition index_keys (keys : list jsstring) : list (N * jsstring) :=
  fold_right
    (fun k acc =>
       match array_index k with
       | Some n => insert_index (n, k) acc
       | None => acc
       end)
    [] keys.

(** [Object.keys]: the array indices in ascending order, then the other
    keys in the order of their creation. *)
Definition object_keys (raw : list (jsstring * jsstring)) : list jsstring :=
  let keys := map fst raw in
  map snd (index_keys keys)
  ++ filter (fun k => match array_index k with Some _ => false | None => true end)
       keys.

(** ** The scan of the lines *)

(** The variables of the loop: [sections.title], [sections.rawSections],
    [currentSection] and [currentContent]. *)
Record scan : Type := Scan {
  sc_title : jsstring;
  sc_raw : list (jsstring * jsstring);
  currentSection : jsstring;
  currentContent : list jsstring
}.

Definition scan_start : scan := Scan [] [] [] [].

(** [if (currentSection) sections.rawSections[currentSection] =
    currentContent.join('\n')] *)
Definition save_section (st : scan) : list (jsstring * jsstring) :=
  if truthy (currentSection st)
  then raw_set (sc_raw st) (currentSection st) (join (currentContent st) [LF])
  else sc_raw st.

(** The body of the loop over the lines. *)
Definition scan_line (st : scan) (line : jsstring) : scan :=
  if startsWith line (lit "# ") then
    Scan (trim (replace_str line (lit "# ") [])) (sc_raw st)
      (currentSection st) (currentContent st)
  else if startsWith line (lit "## ") then
    Scan (sc_title st) (save_section st)
      (trim (replace_str line (lit "## ") [])) []
  else if startsWith line (lit "### ") then
    Scan (sc_title st) (sc_raw st) (currentSection st)
      (currentContent st ++ [line])
  else
    Scan (sc_title st) (sc_raw st) (currentSection st)
      (currentContent st ++ [line]).

Definition scan_lines (lines : list jsstring) : scan :=
  fold_left scan_line lines scan_start.

(** ** Classification of a section by its heading *)

Definition is_big_picture (k : jsstring) : bool := includes k (lit "big picture").
Definition is_immediate_focus (k : jsstring) : bool :=
  includes k (lit "immediate focus").
Definition is_week_plan (k : jsstring) : bool :=
  includes k (lit "week's game plan") || includes k (lit "week plan")
  || includes k (lit "priorities").
Definition is_strengths (k : jsstring) : bool :=
  includes k (lit "building on strength").
Definition is_drills (k : jsstring) : bool :=
  includes k (lit "3 key drills") || includes k (lit "your 3 key drills").
Definition is_daily_plan (k : jsstring) : bool :=
  includes k (lit "daily session plan") || includes k (lit "daily plan").
Definition is_weekly_schedule (k : jsstring) : bool :=
  includes k (lit "weekly training schedule")
  || includes k (lit "weekly schedule").
Definition is_progression (k : jsstring) : bool :=
  includes k (lit "progression") || includes k (lit "4-week").
Definition is_session_plan (k : jsstring) : bool :=
  includes k (lit "session plan") || includes k (lit "sample session").
Definition is_checkpoints (k : jsstring) : bool :=
  includes k (lit "checkpoint") || includes k (lit "progress").
Definition is_mental_cues (k : jsstring) : bool := includes k (lit "mental cue").
Definition is_traps (k : jsstring) : bool :=
  includes k (lit "trap") || includes k (lit "avoid").

(** One turn of [Object.keys(sections.rawSections).forEach].  The twelve
    conditionals run one after the other; each assigns the one field of its
    own and reads no field of another, so their sequence is this record. *)
Definition classify (s : Sections) (key : jsstring) : Sections :=
  let content :=
    match raw_get (rawSections s) key with Some c => c | None => [] end in
  let keyLower := toLowerCase key in
  Build_Sections
    (title s)
    (if is_big_picture keyLower then bullets content else bigPicture s)
    (if is_immediate_focus keyLower
     then immediateFocusOf content (immediateFocus s) else immediateFocus s)
    (if is_drills keyLower then drillsOf content else drills s)
    (if is_daily_plan keyLower then dailyPlanOf content else dailyPlan s)
    (if is_weekly_schedule keyLower
     then weeklyScheduleOf content else weeklySchedule s)
    (if is_week_plan keyLower then weekPlanOf content else weekPlan s)
    (if is_strengths keyLower then bullets content else strengths s)
    (if is_progression keyLower
     then progressionOf content (progression s) else progression s)
    (if is_session_plan keyLower then sessionPlanOf content else sessionPlan s)
    (if is_checkpoints keyLower then bullets content else checkpoints s)
    (if is_mental_cues keyLower then bullets content else mentalCues s)
    (if is_traps keyLower then bullets content else traps s)
    (rawSections s).

(** The object after the loop over the lines and the save of the last
    section, before the classification. *)
Definition scanned_sections (lines : list jsstring) : Sections :=
  let st := scan_lines lines in
  Build_Sections (sc_title st) [] ImmediateFocus.empty [] [] [] [] []
    Progression.empty [] [] [] [] (save_section st).

(** What [parseTrainingPlan] does with the lines of a text that is not
    empty. *)
Definition parse_lines (lines : list jsstring) : Sections :=
  let s := scanned_sections lines in
  fold_left classify (object_keys (rawSections s)) s.

(** [parseTrainingPlan]: [None] is the [null] of [if (!text) return null]. *)
Definition parseTrainingPlan (text : jsstring) : option Sections :=
  if negb (truthy text) then None
  else Some (parse_lines (split text [LF])).

(** ** The colour of a score *)

(** What [getScoreColor] is given: [null], [undefined] or a number. *)
Inductive score : Type :=
| Null
| Undefined
| Num (x : float).

(** [a >= b] on numbers: false as soon as one of them is NaN. *)
Definition ge (a b : float) : bool := PrimFloat.leb b a.

Definition getScoreColor (s : score) : jsstring :=
  match s with
  | Null | Undefined => lit "score-unknown"
  | Num x =>
      if ge x 70%float then lit "score-good"
      else if ge x 50%float then lit "score-medium"
      else lit "score-poor"
  end.


(** ** The name of a metric *)

Section MetricNames.

(** [toUpperCase] on a string of one code unit outside ASCII: what the
    Unicode tables of the engine give, one code unit or several.  Inside
    ASCII the letters go to their capitals and nothing else moves. *)
Variable upper_other : char -> jsstring.

Definition toUpperCase_unit (c : char) : jsstring :=
  if (c <? 128)%N then [upper_ascii c] else upper_other c.

(** [word.charAt(0).toUpperCase() + word.slice(1)] *)
Definition capitalize (word : jsstring) : jsstring :=
  match word with
  | [] => []
  | c :: t => toUpperCase_unit c ++ t
  end.

Definition formatMetricName (name : jsstring) : jsstring :=
  join (map capitalize (split name (lit "_"))) (lit " ").

End MetricNames.

(** ** The files that are dropped or selected *)

Module File.
Record t : Type := Build { name : jsstring; type : jsstring; size : N }.
End File.

Definition validTypes : list jsstring :=
  [lit "image/png"; lit "image/jpeg"; lit "image/jpg"; lit "image/webp"].

(** [array.includes(x)] on an array of strings. *)
Definition array_includes (l : list jsstring) (x : jsstring) : bool :=
  existsb (str_eqb x) l.

(** The two arrays that the first loop of [processFiles] fills. *)
Record checked : Type := Checked {
  validFiles : list File.t;
  errors : list jsstring
}.

(** One turn of [files.forEach]: the type is tested first, then the size
    against [5 * 1024 * 1024]. *)
Definition check_file (acc : checked) (file : File.t) : checked :=
  if negb (array_includes validTypes (File.type file)) then
    Checked (validFiles acc)
      (errors acc ++ [File.name file ++ lit ": Invalid file type"])
  else if (5 * 1024 * 1024 <? File.size file)%N then
    Checked (validFiles acc)
      (errors acc ++ [File.name file ++ lit ": File too large (max 5MB)"])
  else Checked (validFiles acc ++ [file]) (errors acc).

(** What [processFiles] hands to [setError]: the errors joined, or
    [null]. *)
Definition error_shown (errs : list jsstring) : option jsstring :=
  if 0 <? length errs then Some (join errs (lit ", ")) else None.

(** [processFiles], up to the previews: the files kept for reading and the
    error that is set.  The readers of the previews, which end after the
    function has returned, are not part of the model. *)
Definition processFiles (files : list File.t) : checked * option jsstring :=
  let c := fold_left check_file files (Checked [] []) in
  (c, error_shown (errors c)).

(** ** The progress logs and their copy in the local storage *)

Section ProgressLogs.

(** A saved session and its [id]; the rest of a log is not looked at by
    the code below. *)
Variable Log : Type.
Variable id : Log -> jsstring.

(** [JSON.stringify] on the array of the logs. *)
Variable stringify : list Log -> jsstring.

(** The state that the handlers of the logs touch: the two state variables
    and the item of the local storage under [STORAGE_KEY], [None] when
    there is no such item. *)
Record log_state : Type := LogState {
  progressLogs : list Log;
  selectedLogForComparison : option Log;
  stored : option jsstring
}.

(** The effect that runs when [progressLogs] has changed: it writes the
    logs when there is one at least. *)
Definition save_effect (st : log_state) : log_state :=
  if 0 <? length (progressLogs st)
  then LogState (progressLogs st) (selectedLogForComparison st)
         (Some (stringify (progressLogs st)))
  else st.

(** [log => log.id !== logId] *)
Definition other_id (logId : jsstring) (log : Log) : bool :=
  negb (str_eqb (id log) logId).

Definition deleteProgressLog (logId : jsstring) (st : log_state) : log_state :=
  LogState (filter (other_id logId) (progressLogs st))
    (match selectedLogForComparison st with
     | Some l => if str_eqb (id l) logId then None else Some l
     | None => None
     end)
    (if length (filter (other_id logId) (progressLogs st)) =? 0
     then None else stored st).

End ProgressLogs.

Arguments LogState {Log} _ _ _.
Arguments progressLogs {Log} _.
Arguments selectedLogForComparison {Log} _.
Arguments stored {Log} _.
Arguments save_effect {Log} _ _.
Arguments other_id {Log} _ _ _.
Arguments deleteProgressLog {Log} _ _ _.

(** * Vocabulary of the statements *)

(** ** Lines, sections and documents *)

Definition is_title_line (l : jsstring) : bool := startsWith l (lit "# ").
Definition is_heading_line (l : jsstring) : bool := startsWith l (lit "## ").
Definition not_title (l : jsstring) : bool := negb (is_title_line l).

(** The text of a title line: what follows the marker, trimmed. *)
Definition title_text (l : jsstring) : jsstring := trim (skipn 2 l).

(** The text of the last title line among [ls], the empty string when
    there is none. *)
Definition last_title (ls : list jsstring) : jsstring :=
  last (map title_text (filter is_title_line ls)) [].

(** The body of a section as the raw mapping keeps it: its lines, the
    title lines apart, joined by line feeds. *)
Definition body_text (body : list jsstring) : jsstring :=
  join (filter not_title body) [LF].

(** A section is the text of its heading after the marker and the lines
    that follow the heading line. *)
Definition section_lines (sec : jsstring * list jsstring) : list jsstring :=
  (lit "## " ++ fst sec) :: snd sec.

(** A document: the lines before the first heading, then the sections. *)
Definition document (pre : list jsstring)
  (secs : list (jsstring * list jsstring)) : list jsstring :=
  pre ++ flat_map section_lines secs.

(** The text whose lines are [lines]. *)
Definition text_of (lines : list jsstring) : jsstring := join lines [LF].

(** Lines, each followed by a line feed. *)
Definition ended (ls : list jsstring) : jsstring :=
  flat_map (fun l => l ++ [LF]) ls.

(** [no_char c s]: the code unit [c] does not occur in [s]. *)
Definition no_char (c : char) (s : jsstring) : bool :=
  negb (existsb (N.eqb c) s).

Definition no_hash (s : jsstring) : bool := no_char (ch "#") s.
Definition no_star (s : jsstring) : bool := no_char (ch "*") s.

(** Lines as [split] on the line feed produces them hold no line feed. *)
Definition plain (ls : list jsstring) : bool := forallb (no_char LF) ls.

(** Lines that do not open a section. *)
Definition no_heading (ls : list jsstring) : bool :=
  forallb (fun l => negb (is_heading_line l)) ls.

(** A blank line of a body. *)
Definition blank_line (l : jsstring) : bool := forallb is_space l.

(** What saving a section does to the raw mapping. *)
Definition save (raw : list (jsstring * jsstring))
  (sec : jsstring * list jsstring) : list (jsstring * jsstring) :=
  if truthy (trim (fst sec))
  then raw_set raw (trim (fst sec)) (body_text (snd sec))
  else raw.

(** The body of the section that [classify] reads for [key]. *)
Definition section_body (s : Sections) (key : jsstring) : jsstring :=
  match raw_get (rawSections s) key with Some c => c | None => [] end.

(** [s] with the title [t]. *)
Definition with_title (t : jsstring) (s : Sections) : Sections :=
  Build_Sections t (bigPicture s) (immediateFocus s) (drills s) (dailyPlan s)
    (weeklySchedule s) (weekPlan s) (strengths s) (progression s)
    (sessionPlan s) (checkpoints s) (mentalCues s) (traps s) (rawSections s).

(** ** The typed fields *)

(** The typed fields of the plan, with the predicate on the lower-cased
    heading that selects each of them. *)
Inductive field : Type :=
| FBigPicture | FImmediateFocus | FWeekPlan | FStrengths | FDrills
| FDailyPlan | FWeeklySchedule | FProgression | FSessionPlan | FCheckpoints
| FMentalCues | FTraps.

Definition predicate (f : field) (keyLower : jsstring) : bool :=
  match f with
  | FBigPicture => is_big_picture keyLower
  | FImmediateFocus => is_immediate_focus keyLower
  | FWeekPlan => is_week_plan keyLower
  | FStrengths => is_strengths keyLower
  | FDrills => is_drills keyLower
  | FDailyPlan => is_daily_plan keyLower
  | FWeeklySchedule => is_weekly_schedule keyLower
  | FProgression => is_progression keyLower
  | FSessionPlan => is_session_plan keyLower
  | FCheckpoints => is_checkpoints keyLower
  | FMentalCues => is_mental_cues keyLower
  | FTraps => is_traps keyLower
  end.

(** The field [f] of [p] holds what its extraction rule makes of the body
    [content], starting from the defaults. *)
Definition populated (f : field) (content : jsstring) (p : Sections) : Prop :=
  match f with
  | FBigPicture => bigPicture p = bullets content
  | FImmediateFocus =>
      immediateFocus p = immediateFocusOf content ImmediateFocus.empty
  | FWeekPlan => weekPlan p = weekPlanOf content
  | FStrengths => strengths p = bullets content
  | FDrills => drills p = drillsOf content
  | FDailyPlan => dailyPlan p = dailyPlanOf content
  | FWeeklySchedule => weeklySchedule p = weeklyScheduleOf content
  | FProgression => progression p = progressionOf content Progression.empty
  | FSessionPlan => sessionPlan p = sessionPlanOf content
  | FCheckpoints => checkpoints p = bullets content
  | FMentalCues => mentalCues p = bullets content
  | FTraps => traps p = bullets content
  end.

(** The five fields that are lists of bullets. *)
Definition list_field (f : field) (p : Sections) : option (list jsstring) :=
  match f with
  | FBigPicture => Some (bigPicture p)
  | FStrengths => Some (strengths p)
  | FCheckpoints => Some (checkpoints p)
  | FMentalCues => Some (mentalCues p)
  | FTraps => Some (traps p)
  | _ => None
  end.

(** The last of [keys] whose lower-cased text the predicate of [f]
    selects. *)
Fixpoint last_selected (f : field) (keys : list jsstring) : option jsstring :=
  match keys with
  | [] => None
  | k :: t =>
      match last_selected f t with
      | Some k' => Some k'
      | None => if predicate f (toLowerCase k) then Some k else None
      end
  end.

(** ** Matches inside a subject *)

(** No match of [re] starts inside [x] when [s] follows it. *)
Fixpoint fails_within (re : RegExp) (x s : jsstring) : Prop :=
  match x with
  | [] => True
  | c :: x' =>
      (forall pos, match_at re pos (c :: x' ++ s) = None)
      /\ fails_within re x' s
  end.

(** ** Sub-block headings *)

(** The heading of a sub-block: three hashes, a word and digits. *)
Definition subheading (word digits : jsstring) : jsstring :=
  lit "### " ++ word ++ lit " " ++ digits.

(** A body cut by sub-block headings: the text before the first heading,
    then for each block the digits of its heading and the text that
    follows them. *)
Definition subheading_doc (word pre : jsstring)
  (blocks : list (jsstring * jsstring)) : jsstring :=
  pre ++ flat_map (fun nb => subheading word (fst nb) ++ snd nb) blocks.

(** The word of a heading does not start with white space. *)
Definition word_ok (w : jsstring) : bool :=
  match w with [] => false | c :: _ => negb (is_space c) end.

(** Digits, one at least. *)
Definition digits (n : jsstring) : bool := truthy n && forallb is_digit n.

(** The text after the digits of a heading does not go on with a digit. *)
Definition no_digit_first (s : jsstring) : bool :=
  match s with [] => true | c :: _ => negb (is_digit c) end.

(** A block of a cut body: digits in its heading, then a text without
    hash that does not go on with a digit. *)
Definition block_ok (nb : jsstring * jsstring) : bool :=
  digits (fst nb) && no_hash (snd nb) && no_digit_first (snd nb).

(** What the filter after the day blocks keeps. *)
Definition day_kept (d : Day.t) : bool :=
  truthy (Day.name d) || truthy (Day.primaryFocus d).

(** ** Priority blocks *)

(** What the filter after the priority blocks keeps. *)
Definition priority_kept (p : Priority.t) : bool :=
  truthy (Priority.name p) || truthy (Priority.drill p).

(** The line [Current: 45 -> 60], written with the arrow U+2192. *)
Definition current_line : jsstring :=
  lit "Current: 45 " ++ [ARROW] ++ lit " 60".

(** The line [Drill: d]. *)
Definition drill_text (d : jsstring) : jsstring := lit "Drill: " ++ d.

(** The label of a line in a priority block: what stands before its first
    colon, trimmed and lower-cased. *)
Definition priority_label (l : jsstring) : jsstring :=
  toLowerCase (nth 0 (map trim (split l (lit ":"))) []).

(** A line that is neither a line of current and target nor a line with a
    drill label. *)
Definition neutral (l : jsstring) : bool :=
  negb (includes l (lit "Current:") && includes l [ARROW])
  && negb (includes l (lit ":") && includes (priority_label l) (lit "drill")).

(** A line of the block of the drill [d]: the line of current and target,
    the line of the drill, or a neutral line. *)
Definition block_line (d l : jsstring) : bool :=
  str_eqb l current_line || str_eqb l (drill_text d) || neutral l.

(** The text of a drill: one line without colon, arrow or hash, not empty
    once trimmed and stripped of its bold markers. *)
Definition drill_ok (d : jsstring) : bool :=
  no_char (ch ":") d && no_char ARROW d && no_hash d
  && truthy (strip_bold (trim d)).

(** A priority block of the claim: the digits [n] of its heading, the rest
    [r] of the heading line, and its lines [ls], among them the line of the
    drill [d] and the line of current and target, the others neutral. *)
Definition priority_block_ok (n r d : jsstring) (ls : list jsstring) : bool :=
  digits n && no_hash r && no_digit_first r && neutral r && drill_ok d
  && forallb no_hash ls && forallb (block_line d) ls
  && existsb (str_eqb current_line) ls
  && existsb (str_eqb (drill_text d)) ls.

(** A priority with current and target set as in the claim. *)
Definition scored (p : Priority.t) : Prop :=
  Priority.current p = lit "45" /\ Priority.target p = lit "60".

(** A priority with its drill set to the drill [d] of its block. *)
Definition drilled (d : jsstring) (p : Priority.t) : Prop :=
  Priority.drill p = strip_bold (trim d).

(** The lines of a body with two priority blocks, the lines [pre] before
    the first one. *)
Definition two_priorities (pre : list jsstring)
  (n1 r1 : jsstring) (ls1 : list jsstring)
  (n2 r2 : jsstring) (ls2 : list jsstring) : list jsstring :=
  pre ++ (subheading (lit "Priority") n1 ++ r1) :: ls1
      ++ (subheading (lit "Priority") n2 ++ r2) :: ls2.

(** ** Run headers *)

(** A run header in bold: two stars, [Run], the range [n], the rest [t] of
    the header and two stars. *)
Definition run_header (n t : jsstring) : jsstring :=
  lit "**Run " ++ n ++ t ++ lit "**".

(** A number or a range: digits and dashes, one at least. *)
Definition range (n : jsstring) : bool := truthy n && forallb digit_or_dash n.

(** The rest of a header does not go on with a digit or a dash. *)
Definition no_range_first (s : jsstring) : bool :=
  match s with [] => true | c :: _ => negb (digit_or_dash c) end.

(** The text after a header does not start with the letter R. *)
Definition no_R_first (s : jsstring) : bool :=
  match s with [] => true | c :: _ => negb (N.eqb (upper_ascii c) (ch "R")) end.

(** A run of a body: the range [n] and the rest [t] of its header, and the
    text [b] that follows the header; no star in [t] or [b]. *)
Definition run_ok (r : jsstring * jsstring * jsstring) : bool :=
  let '(n, t, b) := r in
  range n && no_star t && no_range_first t && no_star b && no_R_first b.

Definition run_range (r : jsstring * jsstring * jsstring) : jsstring :=
  let '(n, _, _) := r in n.

(** What follows the range of a header, up to the next header: the piece
    that the split produces for the run. *)
Definition run_piece (r : jsstring * jsstring * jsstring) : jsstring :=
  let '(_, t, b) := r in t ++ lit "**" ++ b.

Definition run_text (r : jsstring * jsstring * jsstring) : jsstring :=
  let '(n, t, b) := r in run_header n t ++ b.

(** A body made of runs, with the text [pre] before the first header. *)
Definition runs_doc (pre : jsstring)
  (runs : list (jsstring * jsstring * jsstring)) : jsstring :=
  pre ++ flat_map run_text runs.

(** ** The entries of a plan *)

(** What the filter after the details of the immediate focus keeps. *)
Definition detail_kept (d : jsstring) : bool :=
  truthy d && negb (startsWith d (lit "#")).

(** What the filter after the drill blocks keeps. *)
Definition drill_kept (d : Drill.t) : bool :=
  truthy (Drill.name d) || truthy (Drill.execution d).

(** What the filter after the session lines keeps. *)
Definition session_kept (s : Session.t) : bool := truthy (Session.activity s).

(** Every entry of the plan has passed the filter of its list. *)
Definition entries_kept (p : Sections) : Prop :=
  forallb detail_kept (ImmediateFocus.details (immediateFocus p)) = true
  /\ forallb priority_kept (weekPlan p) = true
  /\ forallb drill_kept (drills p) = true
  /\ forallb day_kept (weeklySchedule p) = true
  /\ forallb session_kept (sessionPlan p) = true.

(** The bold marker does not occur in [s]. *)
Definition no_bold (s : jsstring) : bool := negb (includes s (lit "**")).

(** A text without its bold markers, read from the left: two stars in a
    row are dropped, anything else is kept. *)
Fixpoint unbold (s : jsstring) : jsstring :=
  match s with
  | [] => []
  | c :: t =>
      match t with
      | d :: u =>
          if N.eqb (ch "*") c && N.eqb (ch "*") d then unbold u
          else c :: unbold t
      | [] => [c]
      end
  end.

(** The values of a plan that the parser strips of the bold marker. *)
Definition stripped_values (p : Sections) : Prop :=
  (forall s, In s (sessionPlan p) -> no_bold (Session.activity s) = true)
  /\ (forall q, In q (weekPlan p) ->
        no_bold (Priority.drill q) = true
        /\ no_bold (Priority.terrain q) = true).

(** ** The raw mapping *)

(** The text of a heading line: what follows the marker, trimmed. *)
Definition heading_text (l : jsstring) : jsstring := trim (skipn 3 l).

(** A line of a body: a line of [ls] that is neither a title line nor a
    heading line. *)
Definition body_line_of (ls : list jsstring) (l : jsstring) : Prop :=
  In l ls /\ is_title_line l = false /\ is_heading_line l = false.

(** An entry of the raw mapping that comes from the lines [ls]: its key is
    the text of a heading line, not empty and not [__proto__], and its
    value is made of body lines joined by line feeds. *)
Definition raw_entry_of (ls : list jsstring) (kv : jsstring * jsstring)
  : Prop :=
  truthy (fst kv) = true /\ fst kv <> lit "__proto__"
  /\ (exists l, In l ls /\ is_heading_line l = true
                /\ fst kv = heading_text l)
  /\ exists body, snd kv = join body [LF]
                  /\ forall l, In l body -> body_line_of ls l.

(** The state of the loop over the lines [ls], part of the way. *)
Definition scan_of (ls : list jsstring) (st : scan) : Prop :=
  NoDup (map fst (sc_raw st))
  /\ Forall (raw_entry_of ls) (sc_raw st)
  /\ (currentSection st = []
      \/ exists l, In l ls /\ is_heading_line l = true
                   /\ currentSection st = heading_text l)
  /\ forall l, In l (currentContent st) -> body_line_of ls l.

(** ** The immediate focus *)

(** A code unit that is not the double quote. *)
Definition not_quote (c : char) : bool := negb (N.eqb c QUOTE).

(** A label: what stands before the first colon of a line, without colon,
    double quote or line terminator. *)
Definition cue_label (s : jsstring) : bool :=
  forallb dot s && no_char (ch ":") s && no_char QUOTE s.

(** ** The blocks of the drills and of the days *)

(** A line that gives its value to the field of the label [needle]: it
    holds a colon, and its label, what stands before the first colon of the
    cleaned line, lower-cased, contains the needle. *)
Definition labelled_line (needle line : jsstring) : bool :=
  includes line (lit ":") && includes (label_of (clean_line line)) needle.

(** The value of a line: what follows the first colon of the cleaned line,
    trimmed. *)
Definition line_value (line : jsstring) : jsstring :=
  value_of (clean_line line).

(** The value of the last of [lines] that gives one to the field of
    [needle], the empty string when none does. *)
Definition labelled (needle : jsstring) (lines : list jsstring) : jsstring :=
  last (map line_value (filter (labelled_line needle) lines)) [].

(** The name and the focus that the first line of a drill block gives. *)
Definition drill_name_of (line : jsstring) : jsstring :=
  trim (re_replace_all (re_replace_all (clean_line line) re_colondash (lit " "))
          re_focuswords []).

Definition drill_focus_of (line : jsstring) : jsstring :=
  match re_match line re_focuscap with
  | Some (_, caps) => cap 1 caps
  | None => []
  end.

(** The drill that the lines of a block describe. *)
Definition drill_of_lines (lines : list jsstring) : Drill.t :=
  match lines with
  | [] => Drill.empty
  | first :: _ =>
      Drill.Build (drill_name_of first) (drill_focus_of first)
        (labelled (lit "target metric") lines)
        (labelled (lit "why this drill") lines)
        (labelled (lit "execution") lines)
        (labelled (lit "runs per session") lines)
        (labelled (lit "turns per run") lines)
        (labelled (lit "terrain") lines)
        (labelled (lit "success feels") lines)
        (labelled (lit "common mistake") lines)
        (labelled (lit "progression") lines)
  end.

(** The name that the first line of a day block gives. *)
Definition day_name_of (line : jsstring) : jsstring :=
  trim (re_replace_all (clean_line line) re_colondash (lit " ")).

(** The day that the lines of the block at index [idx] describe. *)
Definition day_of_lines (lines : list jsstring) (idx : nat) : Day.t :=
  Day.Build (idx + 1)
    (match lines with [] => [] | first :: _ => day_name_of first end)
    (labelled (lit "primary focus") lines)
    (labelled (lit "secondary") lines)
    (labelled (lit "terrain") lines)
    (labelled (lit "goal") lines)
    (map (fun l => lit "Add: " ++ line_value l)
       (filter (labelled_line (lit "add")) lines)).

(** ** The weeks of the progression *)

(** The dash or the en dash between the two numbers of a week heading. *)
Definition week_sep (c : char) : bool := is_ch "-" c || N.eqb c ENDASH.

(** The heading [### Week a-b]. *)
Definition week_heading (a : ascii) (sep : char) (b : ascii) : jsstring :=
  lit "### Week " ++ [ch a; sep; ch b].

(** The part of a body under a week heading: the separator [sep] of the
    heading, the rest [r] of the heading line, and the lines [body] that
    follow, without hash. *)
Definition week_ok (sep : char) (r body : jsstring) : bool :=
  week_sep sep && no_hash r && no_char LF r && no_hash body.

Definition week_text (a : ascii) (sep : char) (b : ascii) (r body : jsstring)
  : jsstring :=
  week_heading a sep b ++ r ++ LF :: body.

(** What ends a week: the end of the body or the next three hashes. *)
Definition week_end (rest : jsstring) : bool :=
  match rest with [] => true | _ => startsWith rest (lit "###") end.

(** ** Labels and names *)

(** A line with its label in bold, the colon inside or outside the bold
    markers. *)
Definition bold_label_line (inside : bool) (label value : jsstring)
  : jsstring :=
  lit "- **" ++ label ++ (if inside then lit ":** " else lit "**: ") ++ value.

(** The characters that are removed from the first line of a priority
    block to make its name. *)
Definition punct (c : char) : bool :=
  is_ch ":" c || is_ch "[" c || is_ch "]" c || is_ch "#" c || is_ch "*" c.

(** No line is a sub-heading: none starts with three hashes. *)
Definition no_subheading (lines : list jsstring) : bool :=
  forallb (fun l => negb (startsWith l (lit "###"))) lines.

(** A line that can name a priority from inside the loop: it starts with
    three hashes and holds a colon. *)
Definition naming_line (l : jsstring) : bool :=
  includes l (lit ":") && startsWith l (lit "###").

(** The name that such a line gives: the line without its first three
    hashes and without its texts in square brackets, trimmed. *)
Definition heading_name (l : jsstring) : jsstring :=
  trim (re_replace_all (replace_str l (lit "###") []) re_bracket []).

(** The first of [names] that is not empty, the empty string when there is
    none. *)
Fixpoint first_named (names : list jsstring) : jsstring :=
  match names with
  | [] => []
  | n :: t => if truthy n then n else first_named t
  end.

(** The name read from the first line of a block. *)
Definition first_line_name (lines : list jsstring) : jsstring :=
  match lines with
  | [] => []
  | first :: _ => trim (filter (fun c => negb (punct c)) first)
  end.

(** The name of a priority, from the lines of its block that are not
    blank: the first name that is not empty among those of its naming
    lines, and the name read from its first line when there is none. *)
Definition priority_name_of (lines : list jsstring) : jsstring :=
  match first_named (map heading_name (filter naming_line lines)) with
  | [] => first_line_name lines
  | name => name
  end.

(** ** The phase of a run *)

(** A run whose header ends with a colon and a phase: the range [n], the
    phase [ph] and the text [b] after the header. *)
Definition phased_run (r : jsstring * jsstring * jsstring)
  : jsstring * jsstring * jsstring :=
  let '(n, ph, b) := r in (n, lit ":" ++ ph, b).

Definition run_phase (r : jsstring * jsstring * jsstring) : jsstring :=
  let '(_, ph, _) := r in ph.

(** A phase that is not blank. *)
Definition phase_ok (r : jsstring * jsstring * jsstring) : bool :=
  nonblank (run_phase r).

(** ** Names of metrics *)

(** A name read once from the left: an underscore becomes a space, and
    the code unit at the start and after each underscore is upper-cased. *)
Fixpoint title_case (up : char -> jsstring) (start : bool) (s : jsstring)
  : jsstring :=
  match s with
  | [] => []
  | c :: t =>
      if N.eqb (ch "_") c then ch " " :: title_case up true t
      else (if start then toUpperCase_unit up c else [c])
             ++ title_case up false t
  end.

(** A text of ASCII code units. *)
Definition ascii_text (s : jsstring) : bool :=
  forallb (fun c => (c <? 128)%N) s.

(** ** Files *)

(** A file that [processFiles] keeps: a valid type and not more than five
    megabytes. *)
Definition accepted (file : File.t) : bool :=
  array_includes validTypes (File.type file)
  && (File.size file <=? 5242880)%N.

Definition rejected (file : File.t) : bool := negb (accepted file).

(** The error of a file that is not kept: the type is named when it is
    wrong, whatever the size. *)
Definition rejection (file : File.t) : jsstring :=
  File.name file
  ++ (if array_includes validTypes (File.type file)
      then lit ": File too large (max 5MB)"
      else lit ": Invalid file type").

(** ** The logs *)

(** The storage holds the logs, and nothing when there is no log. *)
Definition mirrored {Log : Type} (stringify : list Log -> jsstring)
  (st : log_state Log) : Prop :=
  stored st = match progressLogs st with
              | [] => None
              | _ :: _ => Some (stringify (progressLogs st))
              end.

(** The log selected for the comparison, if there is one, has the [id] of
    one of the logs. *)
Definition selection_listed {Log : Type} (id : Log -> jsstring)
  (st : log_state Log) : Prop :=
  match selectedLogForComparison st with
  | Some l => In (id l) (map id (progressLogs st))
  | None => True
  end.

(** ** The colours of the scores *)

(** The colours from the worst to the best. *)
Definition colour_rank (colour : jsstring) : nat :=
  if str_eqb colour (lit "score-good") then 2
  else if str_eqb colour (lit "score-medium") then 1
  else 0.

(** ** Lists of bullets, in the words of the specification *)

(** No bullet line is indented: a line whose trimmed text starts with the
    dash starts with the dash itself. *)
Definition unindented (ls : list jsstring) : bool :=
  forallb
    (fun l => implb (startsWith (trim l) (lit "-")) (startsWith l (lit "-")))
    ls.

(** The items of a body: its lines whose trimmed text starts with the dash,
    in their order, each without its dash and without the white space
    around what is left. *)
Definition dash_items (ls : list jsstring) : list jsstring :=
  map (fun l => trim (skipn 1 (trim l)))
    (filter (fun l => startsWith (trim l) (lit "-")) ls).

(** The field [f] of [s] is as the parser creates it.  Only the rules of
    the immediate focus and of the progression read their field before
    they write it. *)
Definition at_default (f : field) (s : Sections) : Prop :=
  match f with
  | FImmediateFocus => immediateFocus s = ImmediateFocus.empty
  | FProgression => progression s = Progression.empty
  | _ => True
  end.

(** The heading of [sec] is [key], or the predicate of [f] does not select
    it. *)
Definition only_heading (f : field) (key : jsstring)
  (sec : jsstring * list jsstring) : bool :=
  str_eqb (trim (fst sec)) key
  || negb (predicate f (toLowerCase (trim (fst sec)))).

(** ** A body with something for every field *)

(** The field [f] of [p] is not as the parser creates it: something has
    been read into it. *)
Definition filled (f : field) (p : Sections) : Prop :=
  match f with
  | FBigPicture => bigPicture p <> []
  | FImmediateFocus => immediateFocus p <> ImmediateFocus.empty
  | FWeekPlan => weekPlan p <> []
  | FStrengths => strengths p <> []
  | FDrills => drills p <> []
  | FDailyPlan => dailyPlan p <> []
  | FWeeklySchedule => weeklySchedule p <> []
  | FProgression => progression p <> Progression.empty
  | FSessionPlan => sessionPlan p <> []
  | FCheckpoints => checkpoints p <> []
  | FMentalCues => mentalCues p <> []
  | FTraps => traps p <> []
  end.

(** The lines of a body in which every rule finds something to read: a
    bullet that is a cue line, a priority block, a drill block, a run
    header with a bullet, a day block, the two week headings with a bullet
    each, and a session line. *)
Definition sample_body : list jsstring :=
  [lit "- Mental cue: Hips forward";
   lit "### Priority 1: Edge Angle";
   lit "Drill: Railroad tracks";
   current_line;
   lit "### Drill 1: Railroad tracks";
   lit "Execution: roll both knees";
   lit "**Run 1-2: Warm up**";
   lit "- easy turns";
   lit "### Day 1: Carving";
   lit "Primary Focus: edge angle";
   lit "### Week 1-2";
   lit "- first steps";
   lit "### Week 3-4";
   lit "- next steps";
   lit "Run 3: Free skiing"].

(** * Tactics *)

(** The literals of the goal, computed. *)
Ltac eval_lits :=
  repeat match goal with
    | |- context [lit ?s] =>
        let v := eval vm_compute in (lit s) in change (lit s) with v
    end.

(** Boolean tests on code units, turned into arithmetic. *)
Ltac bools :=
  repeat match goal with
    | H : (_ && _)%bool = true |- _ => apply andb_true_iff in H as [? ?]
    | H : (_ || _)%bool = true |- _ => apply orb_true_iff in H as [?|?]
    | H : (_ <=? _)%N = true |- _ => apply N.leb_le in H
    | H : (_ =? _)%N = true |- _ => apply N.eqb_eq in H
    | H : negb _ = true |- _ => apply negb_true_iff in H
    end.

(** * Facts about lists *)

Lemma filter_all {A : Type} (f : A -> bool) (l : list A) :
  forallb f l = true -> filter f l = l.
Proof.
  induction l as [|x l IH]; [reflexivity|].
  cbn [forallb filter]. intros H. apply andb_true_iff in H as [Hx Hl].
  rewrite Hx. f_equal. auto.
Qed.

Lemma forallb_filter {A : Type} (f g : A -> bool) (l : list A) :
  forallb f l = true -> forallb f (filter g l) = true.
Proof.
  induction l as [|x l IH]; [reflexivity|].
  cbn [forallb filter]. intros H. apply andb_true_iff in H as [Hx Hl].
  destruct (g x); cbn [forallb]; rewrite ?Hx; auto.
Qed.

Lemma forallb_rev {A : Type} (f : A -> bool) (l : list A) :
  forallb f (rev l) = forallb f l.
Proof.
  induction l as [|x l IH]; [reflexivity|].
  cbn [rev forallb]. rewrite forallb_app, IH. cbn. 
  rewrite andb_true_r. apply andb_comm.
Qed.

Lemma firstn_length_app {A : Type} (a b : list A) :
  firstn (length a) (a ++ b) = a.
Proof. induction a as [|x a IH]; [reflexivity|]. cbn. now rewrite IH. Qed.

Lemma mapi_from_In {A B : Type} (f : A -> nat -> B) (l : list A) (i : nat)
  (d : A) (y : B) :
  In y (mapi_from f l i) ->
  exists j, j < length l /\ y = f (nth j l d) (i + j).
Proof.
  revert i; induction l as [|x l IH]; intros i; [contradiction|].
  cbn [mapi_from]. intros [<-|H].
  - exists 0. split; [cbn; lia|]. now rewrite Nat.add_0_r.
  - destruct (IH (S i) H) as (j & Hj & ->).
    exists (S j). split; [cbn; lia|]. cbn [nth]. f_equal. lia.
Qed.

Lemma map_nth_seq {A : Type} (l : list A) (d : A) :
  map (fun j => nth j l d) (seq 0 (length l)) = l.
Proof.
  induction l as [|x l IH]; [reflexivity|].
  cbn [length seq map nth]. f_equal.
  rewrite <- seq_shift, map_map. exact IH.
Qed.

Lemma map_nth_succ_seq {A : Type} (l : list A) (d : A) :
  map (fun j => nth (S j) l d) (seq 0 (length l))
  = match l with [] => [] | _ :: t => t ++ [d] end.
Proof.
  destruct l as [|x t]; [reflexivity|].
  cbn [length]. rewrite seq_S, map_app. cbn [nth map Nat.add].
  rewrite (map_nth_seq t d). f_equal. f_equal. now apply nth_overflow.
Qed.

(** * Facts about the string primitives *)

Lemma str_eqb_refl (a : jsstring) : str_eqb a a = true.
Proof.
  induction a as [|x a IH]; simpl; [reflexivity|].
  now rewrite N.eqb_refl, IH.
Qed.

Lemma str_eqb_eq (a b : jsstring) : str_eqb a b = true <-> a = b.
Proof.
  split; [|intros ->; apply str_eqb_refl].
  revert b; induction a as [|x a IH]; intros [|y b]; simpl; try discriminate; auto.
  intros H. apply andb_true_iff in H as [H1 H2].
  apply N.eqb_eq in H1. f_equal; auto.
Qed.

Lemma str_eqb_neq (a b : jsstring) : a <> b -> str_eqb a b = false.
Proof.
  intros H. destruct (str_eqb a b) eqn:E; [|reflexivity].
  apply str_eqb_eq in E. contradiction.
Qed.

Lemma startsWith_app (p s : jsstring) : startsWith (p ++ s) p = true.
Proof.
  induction p as [|x p IH]; simpl; [reflexivity|].
  now rewrite N.eqb_refl, IH.
Qed.

(** [s.replace(p, '')] on a string that starts with [p] removes that start. *)
Lemma replace_str_prefix (s p : jsstring) :
  startsWith s p = true -> replace_str s p [] = skipn (length p) s.
Proof.
  intros H. destruct s; simpl; rewrite H; reflexivity.
Qed.

Lemma includes_nil_l (p : jsstring) : p <> [] -> includes [] p = false.
Proof. destruct p; [congruence|reflexivity]. Qed.

Lemma includes_char (s : jsstring) (c : char) :
  includes s [c] = existsb (N.eqb c) s.
Proof.
  induction s as [|x s IH]; [reflexivity|].
  simpl. rewrite <- IH. destruct (N.eqb c x); simpl; [reflexivity|].
  destruct s; reflexivity.
Qed.

Lemma includes_char_false (s : jsstring) (c : char) :
  ~ In c s -> includes s [c] = false.
Proof.
  intros H. rewrite includes_char.
  destruct (existsb (N.eqb c) s) eqn:E; [|reflexivity].
  apply existsb_exists in E as (x & Hx & E). apply N.eqb_eq in E. subst.
  contradiction.
Qed.

Lemma includes_char_true (s : jsstring) (c : char) :
  In c s -> includes s [c] = true.
Proof.
  intros H. rewrite includes_char. apply existsb_exists.
  exists c. split; [assumption|apply N.eqb_refl].
Qed.

(** ** [split] on a separator of one code unit *)

Lemma split_go_plain (c : char) (l cur : jsstring) :
  ~ In c l -> split_go [c] l 0 cur = [rev cur ++ l].
Proof.
  revert cur; induction l as [|x l IH]; intros cur H; simpl.
  - now rewrite app_nil_r.
  - destruct (N.eqb c x) eqn:E.
    + apply N.eqb_eq in E. subst. exfalso. apply H. now left.
    + simpl. rewrite IH by (intros Hin; apply H; now right).
      simpl. now rewrite <- app_assoc.
Qed.

Lemma split_go_sep (c : char) (l t cur : jsstring) :
  ~ In c l ->
  split_go [c] (l ++ c :: t) 0 cur = (rev cur ++ l) :: split_go [c] t 0 [].
Proof.
  revert cur; induction l as [|x l IH]; intros cur H; simpl.
  - rewrite N.eqb_refl. simpl. now rewrite app_nil_r.
  - destruct (N.eqb c x) eqn:E.
    + apply N.eqb_eq in E. subst. exfalso. apply H. now left.
    + simpl. rewrite IH by (intros Hin; apply H; now right).
      simpl. now rewrite <- app_assoc.
Qed.

Lemma split_plain (c : char) (l : jsstring) :
  ~ In c l -> split l [c] = [l].
Proof. intros H. unfold split. now rewrite split_go_plain. Qed.

Lemma split_sep (c : char) (l t : jsstring) :
  ~ In c l -> split (l ++ c :: t) [c] = l :: split t [c].
Proof. intros H. unfold split. now rewrite split_go_sep. Qed.

Lemma join_cons (x : jsstring) (l : list jsstring) (sep : jsstring) :
  l <> [] -> join (x :: l) sep = x ++ sep ++ join l sep.
Proof. destruct l; [congruence|reflexivity]. Qed.

(** Splitting what [join] produced gives the lines back. *)
Lemma split_join (c : char) (ls : list jsstring) :
  ls <> [] -> Forall (fun l => ~ In c l) ls -> split (join ls [c]) [c] = ls.
Proof.
  induction ls as [|x ls IH]; [congruence|].
  intros _ H. inversion H as [|? ? Hx Hls]; subst.
  destruct ls as [|y ls].
  - simpl. now apply split_plain.
  - rewrite join_cons by discriminate.
    cbn [app]. rewrite split_sep by assumption.
    f_equal. apply IH; [discriminate|assumption].
Qed.

Lemma split_not_nil (s sep : jsstring) : split s sep <> [].
Proof.
  unfold split. generalize 0 at 1. generalize (@nil char).
  induction s as [|x s IH]; intros cur n; simpl; [discriminate|].
  destruct n; [|apply IH].
  destruct (startsWith (x :: s) sep); [discriminate|apply IH].
Qed.

Lemma no_char_In (c : char) (s : jsstring) : no_char c s = true <-> ~ In c s.
Proof.
  unfold no_char. rewrite negb_true_iff. split.
  - intros E Hin. assert (T : existsb (N.eqb c) s = true).
    { apply existsb_exists. exists c. split; [exact Hin|apply N.eqb_refl]. }
    congruence.
  - intros H. destruct (existsb (N.eqb c) s) eqn:E; [|reflexivity].
    apply existsb_exists in E as (x & Hx & E). apply N.eqb_eq in E. subst.
    contradiction.
Qed.

Lemma no_char_app (c : char) (a b : jsstring) :
  no_char c (a ++ b) = no_char c a && no_char c b.
Proof. unfold no_char. now rewrite existsb_app, negb_orb. Qed.

Lemma plain_Forall (ls : list jsstring) :
  plain ls = true -> Forall (fun l => ~ In LF l) ls.
Proof.
  unfold plain. intros H. apply Forall_forall. intros l Hl.
  apply no_char_In. revert l Hl. now apply forallb_forall.
Qed.

(** ** Blank and non-blank texts *)

Lemma trimStart_spaces (s : jsstring) :
  forallb is_space s = true -> trimStart s = [].
Proof.
  induction s as [|c s IH]; [reflexivity|].
  cbn [forallb trimStart]. intros H. apply andb_true_iff in H as [Hc Hs].
  rewrite Hc. auto.
Qed.

Lemma trimStart_nil (s : jsstring) :
  trimStart s = [] -> forallb is_space s = true.
Proof.
  induction s as [|c s IH]; [reflexivity|].
  cbn [forallb trimStart]. destruct (is_space c); [auto|discriminate].
Qed.

Lemma trimStart_all_spaces (s : jsstring) :
  forallb is_space (trimStart s) = true -> trimStart s = [].
Proof.
  induction s as [|c s IH]; [reflexivity|].
  cbn [trimStart]. destruct (is_space c) eqn:E; [exact IH|].
  cbn [forallb]. rewrite E. discriminate.
Qed.

Lemma trim_nil_iff (s : jsstring) :
  trim s = [] <-> forallb is_space s = true.
Proof.
  unfold trim, trimEnd. split.
  - intros H. apply (f_equal (@rev char)) in H. rewrite rev_involutive in H.
    cbn [rev] in H. apply trimStart_nil in H. rewrite forallb_rev in H.
    now apply trimStart_nil, trimStart_all_spaces.
  - intros H. now rewrite (trimStart_spaces s H).
Qed.

Lemma nonblank_blank (s : jsstring) :
  blank_line s = true -> nonblank s = false.
Proof.
  intros H. unfold nonblank. apply trim_nil_iff in H. now rewrite H.
Qed.

(** A text with a code unit that is no white space is not blank. *)
Lemma nonblank_In (s : jsstring) (c : char) :
  In c s -> is_space c = false -> nonblank s = true.
Proof.
  intros Hin Hc. unfold nonblank.
  destruct (trim s) eqn:E; [|reflexivity].
  apply trim_nil_iff in E. rewrite forallb_forall in E.
  rewrite (E c Hin) in Hc. discriminate.
Qed.

(** * The scan of the lines *)

Lemma last_cons_default {A : Type} (x d : A) (l : list A) :
  last (x :: l) d = last l x.
Proof.
  revert x d; induction l as [|y l IH]; intros x d; [reflexivity|].
  change (last (x :: y :: l) d) with (last (y :: l) d).
  now rewrite !IH.
Qed.

Lemma heading_not_title (l : jsstring) :
  is_heading_line l = true -> is_title_line l = false.
Proof.
  unfold is_heading_line, is_title_line. eval_lits.
  destruct l as [|a [|b l]]; cbn [startsWith]; intros H;
    rewrite ?andb_false_r in H; try discriminate.
  apply andb_true_iff in H as [Ha H].
  apply andb_true_iff in H as [Hb _].
  apply N.eqb_eq in Ha, Hb. subst. reflexivity.
Qed.

Lemma scan_line_title (st : scan) (l : jsstring) :
  is_title_line l = true ->
  scan_line st l
  = Scan (title_text l) (sc_raw st) (currentSection st) (currentContent st).
Proof.
  intros H. unfold scan_line. fold (is_title_line l). rewrite H.
  unfold title_text. rewrite replace_str_prefix by exact H. reflexivity.
Qed.

Lemma scan_line_heading (st : scan) (h : jsstring) :
  scan_line st (lit "## " ++ h)
  = Scan (sc_title st) (save_section st) (trim h) [].
Proof.
  unfold scan_line.
  assert (H : is_heading_line (lit "## " ++ h) = true) by apply startsWith_app.
  fold (is_title_line (lit "## " ++ h)). rewrite (heading_not_title _ H).
  fold (is_heading_line (lit "## " ++ h)). rewrite H.
  rewrite replace_str_prefix by exact H.
  now rewrite skipn_app, skipn_all, Nat.sub_diag.
Qed.

Lemma scan_line_other (st : scan) (l : jsstring) :
  is_title_line l = false -> is_heading_line l = false ->
  scan_line st l
  = Scan (sc_title st) (sc_raw st) (currentSection st) (currentContent st ++ [l]).
Proof.
  intros H1 H2. unfold scan_line.
  fold (is_title_line l) (is_heading_line l). rewrite H1, H2.
  destruct (startsWith l (lit "### ")); reflexivity.
Qed.

(** The title after the loop is the text of the last title line. *)
Lemma scan_title (ls : list jsstring) (st : scan) :
  sc_title (fold_left scan_line ls st)
  = last (map title_text (filter is_title_line ls)) (sc_title st).
Proof.
  revert st; induction ls as [|l ls IH]; intros st; [reflexivity|].
  cbn [fold_left filter]. rewrite IH.
  destruct (is_title_line l) eqn:T.
  - rewrite scan_line_title by exact T. cbn [map sc_title].
    now rewrite last_cons_default.
  - unfold scan_line. fold (is_title_line l). rewrite T.
    destruct (startsWith l (lit "## ")); [reflexivity|].
    destruct (startsWith l (lit "### ")); reflexivity.
Qed.

(** Lines that open no section leave the raw mapping and the current
    heading alone, and add the lines that are no title to the content. *)
Lemma scan_body (body : list jsstring) (st : scan) :
  no_heading body = true ->
  let st' := fold_left scan_line body st in
  sc_raw st' = sc_raw st /\ currentSection st' = currentSection st
  /\ currentContent st' = currentContent st ++ filter not_title body.
Proof.
  revert st; induction body as [|l body IH]; intros st H; cbn zeta.
  - cbn. now rewrite app_nil_r.
  - cbn [no_heading forallb] in H. apply andb_true_iff in H as [Hl Hb].
    apply negb_true_iff in Hl. cbn [fold_left filter].
    destruct (IH (scan_line st l) Hb) as (R & S & C).
    rewrite R, S, C. unfold not_title at 2.
    destruct (is_title_line l) eqn:T; cbn [negb].
    + rewrite scan_line_title by exact T. now cbn.
    + rewrite scan_line_other by assumption. cbn.
      now rewrite <- app_assoc.
Qed.

(** One section: the previous one is saved, the heading becomes the
    current one and the content is the body without its title lines. *)
Lemma scan_section (sec : jsstring * list jsstring) (st : scan) :
  no_heading (snd sec) = true ->
  let st' := fold_left scan_line (section_lines sec) st in
  sc_raw st' = save_section st /\ currentSection st' = trim (fst sec)
  /\ currentContent st' = filter not_title (snd sec).
Proof.
  intros H. unfold section_lines. cbn [fold_left].
  rewrite scan_line_heading.
  destruct (scan_body (snd sec) (Scan (sc_title st) (save_section st) (trim (fst sec)) []) H)
    as (R & S & C).
  cbn zeta. now rewrite R, S, C.
Qed.

Lemma save_section_sections (secs : list (jsstring * list jsstring)) (st : scan) :
  forallb (fun sec => no_heading (snd sec)) secs = true ->
  save_section (fold_left scan_line (flat_map section_lines secs) st)
  = fold_left save secs (save_section st).
Proof.
  revert st; induction secs as [|sec secs IH]; intros st H; [reflexivity|].
  cbn [forallb] in H. apply andb_true_iff in H as [Hs Hr].
  cbn [flat_map fold_left]. rewrite fold_left_app, IH by assumption.
  f_equal. destruct (scan_section sec st Hs) as (R & S & C).
  unfold save_section at 1. rewrite R, S, C. reflexivity.
Qed.

(** The raw mapping of a document: its sections saved one after the
    other. *)
Lemma scanned_document (pre : list jsstring)
  (secs : list (jsstring * list jsstring)) :
  no_heading pre = true -> forallb (fun sec => no_heading (snd sec)) secs = true ->
  rawSections (scanned_sections (document pre secs)) = fold_left save secs [].
Proof.
  intros Hp Hs. unfold scanned_sections, scan_lines, document.
  cbn [rawSections]. rewrite fold_left_app, save_section_sections by assumption.
  f_equal. destruct (scan_body pre scan_start Hp) as (R & S & C).
  unfold save_section. now rewrite R, S.
Qed.

Lemma scanned_title (ls : list jsstring) :
  title (scanned_sections ls) = last_title ls.
Proof. unfold scanned_sections, scan_lines. cbn [title]. apply scan_title. Qed.

(** ** The raw mapping *)

Lemma raw_get_put_same (raw : list (jsstring * jsstring)) (k v : jsstring) :
  raw_get (raw_put raw k v) k = Some v.
Proof.
  induction raw as [|[k' x] raw IH]; cbn.
  - now rewrite str_eqb_refl.
  - destruct (str_eqb k' k) eqn:E; cbn; rewrite E; [reflexivity|exact IH].
Qed.

Lemma raw_get_put_other (raw : list (jsstring * jsstring)) (k v k' : jsstring) :
  k <> k' -> raw_get (raw_put raw k v) k' = raw_get raw k'.
Proof.
  intros N. induction raw as [|[j x] raw IH]; cbn.
  - now rewrite str_eqb_neq.
  - destruct (str_eqb j k) eqn:E; cbn.
    + apply str_eqb_eq in E. subst. now rewrite str_eqb_neq.
    + now rewrite IH.
Qed.

Lemma raw_get_save_other (raw : list (jsstring * jsstring))
  (sec : jsstring * list jsstring) (k : jsstring) :
  trim (fst sec) <> k -> raw_get (save raw sec) k = raw_get raw k.
Proof.
  intros N. unfold save, raw_set.
  destruct (truthy (trim (fst sec))); [|reflexivity].
  destruct (str_eqb (trim (fst sec)) (lit "__proto__")); [reflexivity|].
  now apply raw_get_put_other.
Qed.

Lemma raw_get_save_later (secs : list (jsstring * list jsstring))
  (raw : list (jsstring * jsstring)) (k : jsstring) :
  Forall (fun sec => trim (fst sec) <> k) secs ->
  raw_get (fold_left save secs raw) k = raw_get raw k.
Proof.
  revert raw; induction secs as [|sec secs IH]; intros raw H; [reflexivity|].
  inversion H; subst. cbn [fold_left]. rewrite IH by assumption.
  now apply raw_get_save_other.
Qed.

(** The last section saved under a heading is the one the mapping holds. *)
Lemma raw_get_save_last (before after : list (jsstring * list jsstring))
  (sec : jsstring * list jsstring) :
  trim (fst sec) <> [] -> trim (fst sec) <> lit "__proto__" ->
  Forall (fun sec' => trim (fst sec') <> trim (fst sec)) after ->
  raw_get (fold_left save (before ++ sec :: after) []) (trim (fst sec))
  = Some (body_text (snd sec)).
Proof.
  intros Hk Hp Ha. rewrite fold_left_app. cbn [fold_left].
  rewrite raw_get_save_later by assumption.
  unfold save at 1, raw_set.
  destruct (trim (fst sec)) eqn:E; [congruence|]. cbn [truthy].
  rewrite <- E in *. rewrite str_eqb_neq by assumption.
  apply raw_get_put_same.
Qed.

(** ** The classification keeps the title and the raw mapping *)

Lemma classify_fold_raw (keys : list jsstring) (s : Sections) :
  rawSections (fold_left classify keys s) = rawSections s.
Proof.
  revert s; induction keys as [|k keys IH]; intros s; [reflexivity|].
  cbn [fold_left]. now rewrite IH.
Qed.

Lemma classify_fold_title (keys : list jsstring) (s : Sections) :
  title (fold_left classify keys s) = title s.
Proof.
  revert s; induction keys as [|k keys IH]; intros s; [reflexivity|].
  cbn [fold_left]. now rewrite IH.
Qed.

Lemma classify_with_title (t : jsstring) (s : Sections) (k : jsstring) :
  classify (with_title t s) k = with_title t (classify s k).
Proof. reflexivity. Qed.

Lemma classify_fold_with_title (keys : list jsstring) (t : jsstring)
  (s : Sections) :
  fold_left classify keys (with_title t s)
  = with_title t (fold_left classify keys s).
Proof.
  revert s; induction keys as [|k keys IH]; intros s; [reflexivity|].
  cbn [fold_left]. now rewrite classify_with_title, IH.
Qed.

(** ** Texts and their lines *)

Lemma join_truthy_in (ls : list jsstring) (sep l : jsstring) :
  In l ls -> truthy l = true -> truthy (join ls sep) = true.
Proof.
  induction ls as [|x ls IH]; [contradiction|].
  intros [->|Hin] Hl.
  - destruct ls; [exact Hl|]. rewrite join_cons by discriminate.
    destruct l; [discriminate|reflexivity].
  - destruct ls as [|y ls]; [contradiction|]. rewrite join_cons by discriminate.
    destruct x; cbn [app]; [|reflexivity].
    destruct sep; cbn [app]; [|reflexivity]. now apply IH.
Qed.

(** A text made of lines, one of them not empty, is parsed from these
    lines. *)
Lemma parse_text_of (ls : list jsstring) (l : jsstring) :
  plain ls = true -> In l ls -> truthy l = true ->
  parseTrainingPlan (text_of ls) = Some (parse_lines ls).
Proof.
  intros Hp Hin Hl. unfold parseTrainingPlan, text_of.
  rewrite (join_truthy_in ls [LF] l Hin Hl). cbn [negb].
  rewrite split_join; [reflexivity| |exact (plain_Forall ls Hp)].
  intros ->. contradiction.
Qed.

(** * The matcher *)

Lemma char_matches_refl (ic : bool) (c : char) : char_matches ic c c = true.
Proof. unfold char_matches. destruct ic; apply N.eqb_refl. Qed.

(** With the flag [i], a pattern character that is no letter matches
    itself only. *)
Lemma upper_ascii_low (c x : char) :
  (x < 65)%N -> upper_ascii c = x -> c = x.
Proof.
  unfold upper_ascii. intros Hx.
  destruct ((97 <=? c) && (c <=? 122))%N eqn:E; [|auto].
  bools. lia.
Qed.

Lemma char_matches_low (c x : char) :
  (x < 65)%N -> c <> x -> char_matches true x c = false.
Proof.
  intros Hx H. unfold char_matches.
  destruct (N.eqb (upper_ascii x) (upper_ascii c)) eqn:E; [|reflexivity].
  apply N.eqb_eq in E. exfalso. apply H.
  apply (upper_ascii_low c x Hx). rewrite <- E.
  unfold upper_ascii.
  destruct ((97 <=? x) && (x <=? 122))%N eqn:E'; [bools; lia|reflexivity].
Qed.

Lemma rmatch_Str_app (ic : bool) (w rest : jsstring) (k : cont) (pos : nat)
  (caps : list (nat * jsstring)) :
  rmatch ic (Str w) k (MState pos (w ++ rest) caps)
  = k (MState (length w + pos) rest caps).
Proof.
  revert pos; induction w as [|c w IH]; intros pos; [reflexivity|].
  destruct w as [|d w].
  - cbn. now rewrite char_matches_refl.
  - change (Str (c :: d :: w)) with (Seq (Lit c) (Str (d :: w))).
    cbn [rmatch app m_rest m_pos m_caps]. rewrite char_matches_refl.
    rewrite IH. cbn [length]. do 2 f_equal. lia.
Qed.

(** A greedy star over a run that ends where the class stops matching
    hands the whole run to a continuation that accepts it. *)
Lemma star_greedy_run (p : char -> bool) (k : cont)
  (caps : list (nat * jsstring)) (a b : jsstring) (pos : nat) (r : mstate) :
  forallb p a = true ->
  match b with [] => True | c :: _ => p c = false end ->
  k (MState (length a + pos) b caps) = Some r ->
  star_greedy p k caps pos (a ++ b) = Some r.
Proof.
  intros Ha Hb. revert pos; induction a as [|c a IH]; intros pos Hk.
  - cbn [app length Nat.add] in *. destruct b as [|c b]; cbn; [exact Hk|].
    now rewrite Hb.
  - cbn [forallb] in Ha. apply andb_true_iff in Ha as [Hc Ha].
    cbn [app star_greedy]. rewrite Hc.
    rewrite IH; [reflexivity|exact Ha|]. rewrite <- Hk. do 2 f_equal. cbn. lia.
Qed.

(** ** Scanning a subject for matches *)

Lemma fails_within_app (re : RegExp) (a b s : jsstring) :
  fails_within re a (b ++ s) -> fails_within re b s ->
  fails_within re (a ++ b) s.
Proof.
  induction a as [|c a IH]; [auto|].
  cbn [app fails_within]. intros [H1 H2] Hb. split.
  - intros pos. rewrite <- app_assoc. apply H1.
  - now apply IH.
Qed.

(** A pattern that needs a first character [x] starts nowhere in a text
    without [x]. *)
Lemma fails_within_no_char (re : RegExp) (x : char) (a s : jsstring) :
  (forall pos c t, c <> x -> match_at re pos (c :: t) = None) ->
  no_char x a = true -> fails_within re a s.
Proof.
  intros Hre. induction a as [|c a IH]; [constructor|].
  change (c :: a) with ([c] ++ a). rewrite no_char_app.
  intros H. apply andb_true_iff in H as [Hc Ha].
  split; [|auto]. intros pos. apply Hre.
  apply no_char_In in Hc. intros ->. apply Hc. now left.
Qed.

(** [split] passes over the code units that a match has taken. *)
Lemma re_split_go_skip (re : RegExp) (a s cur : jsstring) (pos : nat) :
  re_split_go re pos (a ++ s) (length a) cur
  = re_split_go re (length a + pos) s 0 cur.
Proof.
  revert pos; induction a as [|c a IH]; intros pos; [reflexivity|].
  cbn [app length re_split_go]. rewrite IH. f_equal. lia.
Qed.

(** [split] adds to the current piece a text in which no match starts. *)
Lemma re_split_go_fails (re : RegExp) (x s cur : jsstring) (pos : nat) :
  fails_within re x s ->
  re_split_go re pos (x ++ s) 0 cur
  = re_split_go re (length x + pos) s 0 (rev x ++ cur).
Proof.
  revert pos cur; induction x as [|c x IH]; intros pos cur H; [reflexivity|].
  destruct H as [H1 H2]. cbn [app re_split_go]. rewrite H1, (IH _ _ H2).
  cbn [rev length]. rewrite <- app_assoc. f_equal. lia.
Qed.

Lemma match_all_go_fails (re : RegExp) (x s : jsstring) (pos : nat) :
  fails_within re x s ->
  match_all_go re pos (x ++ s) 0 = match_all_go re (length x + pos) s 0.
Proof.
  revert pos; induction x as [|c x IH]; intros pos H; [reflexivity|].
  destruct H as [H1 H2]. cbn [app match_all_go]. rewrite H1, (IH _ H2).
  cbn [length]. f_equal. lia.
Qed.

Lemma match_all_go_skip (re : RegExp) (a s : jsstring) (pos : nat) :
  match_all_go re pos (a ++ s) (length a) = match_all_go re (length a + pos) s 0.
Proof.
  revert pos; induction a as [|c a IH]; intros pos.
  - cbn [app length]. destruct s; reflexivity.
  - cbn [app length match_all_go]. rewrite IH. f_equal. lia.
Qed.

(** ** Splitting a body at its sub-block headings *)

Section Subheadings.

(** The word of the heading: [Priority], [Drill] or [Day]. *)
Variable w : jsstring.
Hypothesis word_starts : word_ok w = true.

Lemma match_subheading_other (pos : nat) (c : char) (t : jsstring) :
  c <> ch "#" -> match_at (re_subheading w) pos (c :: t) = None.
Proof.
  intros H. unfold match_at, re_subheading.
  cbn [re_icase re_body Seqs]. eval_lits.
  cbn [Str rmatch m_rest]. change 35%N with (ch "#").
  now rewrite (char_matches_low c (ch "#") eq_refl H).
Qed.

Lemma match_subheading_nil (pos : nat) :
  match_at (re_subheading w) pos [] = None.
Proof. reflexivity. Qed.

(** At a heading the match takes the heading and nothing more. *)
Lemma match_subheading (n b : jsstring) (pos : nat) :
  digits n = true -> no_digit_first b = true ->
  match_at (re_subheading w) pos (subheading w n ++ b)
  = Some (MState (length (subheading w n) + pos) b []).
Proof.
  intros Hnd Hb. unfold digits in Hnd. apply andb_true_iff in Hnd as [Hn Hd].
  unfold match_at, re_subheading, subheading.
  cbn [re_icase re_body Seqs]. eval_lits.
  change ([35; 35; 35; 32]%N ++ w ++ [32%N] ++ n)
    with ([35; 35; 35]%N ++ [32%N] ++ w ++ [32%N] ++ n).
  rewrite <- !app_assoc.
  cbn [rmatch]. rewrite rmatch_Str_app. cbn [m_caps m_pos m_rest].
  destruct n as [|d n]; [discriminate|].
  cbn [forallb] in Hd. apply andb_true_iff in Hd as [Hd1 Hd2].
  assert (Sd : is_space d = false).
  { destruct (is_space d) eqn:E; [exfalso|reflexivity].
    unfold is_digit in Hd1. unfold is_space in E. clear - Hd1 E. bools; lia. }
  erewrite (star_greedy_run is_space _ [] [32%N] (w ++ [32%N] ++ (d :: n) ++ b));
    [reflexivity|reflexivity|
     destruct w; [discriminate|now apply negb_true_iff in word_starts]|].
  rewrite rmatch_Str_app. cbn [m_caps m_pos m_rest].
  erewrite (star_greedy_run is_space _ [] [32%N] ((d :: n) ++ b));
    [reflexivity|reflexivity|exact Sd|].
  unfold Plus. cbn [rmatch app m_rest m_pos m_caps]. rewrite Hd1.
  erewrite (star_greedy_run is_digit _ [] n b);
    [reflexivity|exact Hd2|
     destruct b; [exact I|now apply negb_true_iff in Hb]|].
  do 2 f_equal. cbn [length]. rewrite length_app. cbn [length]. lia.
Qed.

Lemma fails_within_no_hash (x s : jsstring) :
  no_hash x = true -> fails_within (re_subheading w) x s.
Proof.
  apply fails_within_no_char. intros pos c t.
  apply match_subheading_other.
Qed.

Lemma subheading_cons (n : jsstring) :
  subheading w n = ch "#" :: (lit "## " ++ w ++ lit " " ++ n).
Proof. reflexivity. Qed.

Lemma re_split_go_blocks (blocks : list (jsstring * jsstring))
  (pre cur : jsstring) (pos : nat) :
  no_hash pre = true -> forallb block_ok blocks = true ->
  re_split_go (re_subheading w) pos (subheading_doc w pre blocks) 0 cur
  = (rev cur ++ pre) :: map snd blocks.
Proof.
  revert pre cur pos.
  induction blocks as [|[n b] blocks IH]; intros pre cur pos Hp Hb.
  - unfold subheading_doc. cbn [flat_map map].
    rewrite re_split_go_fails by now apply fails_within_no_hash.
    cbn [re_split_go]. now rewrite rev_app_distr, rev_involutive.
  - cbn [forallb] in Hb. apply andb_true_iff in Hb as [Hb1 Hbs].
    unfold block_ok in Hb1. cbn [fst snd] in Hb1.
    apply andb_true_iff in Hb1 as [Hb1 Hd].
    apply andb_true_iff in Hb1 as [Hn Hh].
    unfold subheading_doc. cbn [flat_map map fst snd].
    rewrite re_split_go_fails by now apply fails_within_no_hash.
    rewrite <- !app_assoc.
    set (rest := flat_map (fun nb => subheading w (fst nb) ++ snd nb) blocks).
    assert (F : no_digit_first (b ++ rest) = true).
    { destruct b as [|x b]; [|exact Hd]. unfold rest.
      destruct blocks as [|[n' b'] blocks']; reflexivity. }
    assert (M := match_subheading n (b ++ rest) (length pre + pos) Hn F).
    rewrite subheading_cons in *. cbn [app re_split_go]. cbn [app] in M.
    rewrite M. cbn [m_pos length].
    replace (S (length (lit "## " ++ w ++ lit " " ++ n)) + (length pre + pos)
             - (length pre + pos))
      with (S (length (lit "## " ++ w ++ lit " " ++ n))) by lia.
    rewrite re_split_go_skip, rev_app_distr, rev_involutive. f_equal.
    apply (IH b [] _ Hh Hbs).
Qed.

(** The pieces of a body cut at its headings: the text before the first
    heading, then the text after each heading. *)
Lemma re_split_subheading_doc (pre : jsstring)
  (blocks : list (jsstring * jsstring)) :
  no_hash pre = true -> forallb block_ok blocks = true ->
  re_split (subheading_doc w pre blocks) (re_subheading w)
  = pre :: map snd blocks.
Proof.
  intros Hp Hb. unfold re_split.
  destruct (subheading_doc w pre blocks) as [|c s] eqn:E.
  - rewrite match_subheading_nil.
    destruct pre; [|discriminate].
    destruct blocks as [|[n b] blocks]; [reflexivity|discriminate].
  - rewrite <- E. now rewrite re_split_go_blocks.
Qed.

End Subheadings.

(** * The colour of a score *)

Lemma SFcompare_antisym (a b : spec_float) :
  SFcompare a b = option_map CompOpp (SFcompare b a).
Proof.
  destruct a as [sa|sa| |sa ma ea], b as [sb|sb| |sb mb eb]; cbn;
    try destruct sa; try destruct sb; try reflexivity.
  - assert (A : Pos.compare_cont Eq ma mb = CompOpp (Pos.compare_cont Eq mb ma))
      by (symmetry; apply (Pos.compare_cont_antisym mb ma Eq)).
    rewrite (Z.compare_antisym eb ea), A.
    destruct (eb ?= ea)%Z; cbn; reflexivity.
  - assert (A : Pos.compare_cont Eq ma mb = CompOpp (Pos.compare_cont Eq mb ma))
      by (symmetry; apply (Pos.compare_cont_antisym mb ma Eq)).
    rewrite (Z.compare_antisym eb ea), A.
    destruct (eb ?= ea)%Z; cbn; reflexivity.
Qed.

Lemma SFcompare_defined (a b c : spec_float) (o : comparison) :
  SFcompare a b = Some o -> c <> S754_nan -> SFcompare c b <> None.
Proof.
  destruct a, b, c; cbn; congruence.
Qed.

(** A number that is at least [lo] and not at least [hi] is below [hi]. *)
Lemma not_ge_lt (x lo hi : float) :
  Prim2SF hi <> S754_nan ->
  ge x lo = true -> ge x hi = false -> PrimFloat.ltb x hi = true.
Proof.
  unfold ge. rewrite !leb_spec, ltb_spec. unfold SFleb, SFltb.
  intros Hhi Hlo Hge.
  destruct (SFcompare (Prim2SF lo) (Prim2SF x)) as [o|] eqn:E; [|discriminate].
  assert (D := SFcompare_defined _ _ _ _ E Hhi).
  rewrite (SFcompare_antisym (Prim2SF x) (Prim2SF hi)).
  destruct (SFcompare (Prim2SF hi) (Prim2SF x)) as [[ | | ]|];
    cbn; congruence.
Qed.

Lemma lt_not_ge (x hi : float) :
  PrimFloat.ltb x hi = true -> ge x hi = false.
Proof.
  unfold ge. rewrite leb_spec, ltb_spec. unfold SFleb, SFltb.
  rewrite (SFcompare_antisym (Prim2SF hi) (Prim2SF x)).
  destruct (SFcompare (Prim2SF x) (Prim2SF hi)) as [[ | | ]|];
    cbn; congruence.
Qed.

Lemma seventy_is_a_number : Prim2SF 70%float <> S754_nan.
Proof. vm_compute. discriminate. Qed.

(** C10.  [getScoreColor] is total and partitions its input: it answers
    [score-unknown] for [null] and for [undefined], [score-good] for every
    number that is at least 70, [score-medium] for every number that is at
    least 50 and below 70, and [score-poor] for every other number (NaN
    among them). *)
Theorem getScoreColor_partition (s : score) :
  match s with
  | Null | Undefined => getScoreColor s = lit "score-unknown"
  | Num x =>
      (ge x 70%float = true -> getScoreColor s = lit "score-good")
      /\ (ge x 50%float = true -> PrimFloat.ltb x 70%float = true ->
          getScoreColor s = lit "score-medium")
      /\ (ge x 70%float = false ->
          ge x 50%float && PrimFloat.ltb x 70%float = false ->
          getScoreColor s = lit "score-poor")
  end.
Proof.
  destruct s as [| |x]; try reflexivity.
  cbn [getScoreColor]. split; [|split].
  - now intros ->.
  - intros H50 Hlt. now rewrite (lt_not_ge _ _ Hlt), H50.
  - intros H70 H. rewrite H70.
    destruct (ge x 50%float) eqn:H50; [|reflexivity].
    rewrite (not_ge_lt x _ _ seventy_is_a_number H50 H70) in H.
    discriminate.
Qed.

(** The four cases at 85, 60, 12, NaN and [null]. *)
Lemma getScoreColor_partition_witness :
  getScoreColor (Num 85%float) = lit "score-good"
  /\ getScoreColor (Num 60%float) = lit "score-medium"
  /\ getScoreColor (Num 12%float) = lit "score-poor"
  /\ getScoreColor (Num nan) = lit "score-poor"
  /\ getScoreColor Null = lit "score-unknown".
Proof.
  split; [|split; [|split; [|split]]].
  - apply (proj1 (getScoreColor_partition (Num 85%float))). reflexivity.
  - apply (proj1 (proj2 (getScoreColor_partition (Num 60%float))));
      reflexivity.
  - apply (proj2 (proj2 (getScoreColor_partition (Num 12%float))));
      reflexivity.
  - apply (proj2 (proj2 (getScoreColor_partition (Num nan))));
      reflexivity.
  - exact (getScoreColor_partition Null).
Defined.

(** * Title lines *)

Lemma scan_line_title_raw (st : scan) (l : jsstring) :
  is_title_line l = true ->
  sc_raw (scan_line st l) = sc_raw st
  /\ currentSection (scan_line st l) = currentSection st
  /\ currentContent (scan_line st l) = currentContent st.
Proof. intros H. rewrite scan_line_title by exact H. now cbn. Qed.

(** The loop run on two states that differ by the title only. *)
Lemma scan_line_same (st1 st2 : scan) (l : jsstring) :
  sc_raw st1 = sc_raw st2 -> currentSection st1 = currentSection st2 ->
  currentContent st1 = currentContent st2 ->
  sc_raw (scan_line st1 l) = sc_raw (scan_line st2 l)
  /\ currentSection (scan_line st1 l) = currentSection (scan_line st2 l)
  /\ currentContent (scan_line st1 l) = currentContent (scan_line st2 l).
Proof.
  intros R S C. unfold scan_line, save_section. rewrite R, S, C.
  destruct (startsWith l (lit "# ")); [now cbn|].
  destruct (startsWith l (lit "## ")); [now cbn|].
  destruct (startsWith l (lit "### ")); now cbn.
Qed.

(** Title lines touch the title and nothing else: without them the loop
    ends with the same raw mapping, heading and content. *)
Lemma scan_ignores_titles (ls : list jsstring) (st1 st2 : scan) :
  sc_raw st1 = sc_raw st2 -> currentSection st1 = currentSection st2 ->
  currentContent st1 = currentContent st2 ->
  save_section (fold_left scan_line ls st1)
  = save_section (fold_left scan_line (filter not_title ls) st2).
Proof.
  revert st1 st2; induction ls as [|l ls IH]; intros st1 st2 R S C.
  - cbn. unfold save_section. now rewrite R, S, C.
  - cbn [fold_left filter]. unfold not_title at 1.
    destruct (is_title_line l) eqn:T; cbn [negb].
    + destruct (scan_line_title_raw st1 l T) as (R' & S' & C').
      apply IH; congruence.
    + cbn [fold_left].
      destruct (scan_line_same st1 st2 l R S C) as (R' & S' & C').
      now apply IH.
Qed.

Lemma parse_lines_title (ls : list jsstring) :
  parse_lines ls
  = with_title (last_title ls) (parse_lines (filter not_title ls)).
Proof.
  unfold parse_lines.
  assert (E : scanned_sections ls
              = with_title (last_title ls)
                  (scanned_sections (filter not_title ls))).
  { unfold scanned_sections, with_title, scan_lines. cbn.
    f_equal; [apply scan_title|now apply scan_ignores_titles]. }
  rewrite E at 2. rewrite classify_fold_with_title.
  f_equal. f_equal. rewrite E. reflexivity.
Qed.

Lemma parse_some (text : jsstring) (p : Sections) :
  parseTrainingPlan text = Some p -> p = parse_lines (split text [LF]).
Proof.
  unfold parseTrainingPlan. destruct (negb (truthy text)); congruence.
Qed.

(** C2, as the code has it.  The title of the plan is the text of the LAST
    line that starts with the title marker, the marker removed and the rest
    trimmed, and the empty string when there is no such line; apart from the
    title, the plan is the plan of the same lines without the title lines,
    so a title line neither opens a section nor enters a body. *)
Theorem title_is_last_title_line (text : jsstring) (p : Sections) :
  parseTrainingPlan text = Some p ->
  title p = last_title (split text [LF])
  /\ p = with_title (last_title (split text [LF]))
           (parse_lines (filter not_title (split text [LF]))).
Proof.
  intros H. apply parse_some in H. subst p.
  rewrite parse_lines_title at 1 2. split; reflexivity.
Qed.

(** * Documents made of sections *)

Lemma object_keys_single (k v : jsstring) : object_keys [(k, v)] = [k].
Proof.
  unfold object_keys, index_keys. cbn [map fst fold_right filter].
  destruct (array_index k); reflexivity.
Qed.

(** A heading that a predicate selects is neither empty nor the key that
    the raw mapping refuses. *)
Lemma predicate_key (f : field) (key : jsstring) :
  predicate f (toLowerCase key) = true ->
  truthy key = true /\ str_eqb key (lit "__proto__") = false.
Proof.
  intros H. split.
  - destruct key; [|reflexivity]. destruct f; discriminate.
  - destruct (str_eqb key (lit "__proto__")) eqn:E; [|reflexivity].
    apply str_eqb_eq in E. subst key. destruct f; discriminate.
Qed.

Lemma parse_document (before : list jsstring)
  (secs : list (jsstring * list jsstring)) :
  secs <> [] -> plain (document before secs) = true ->
  parseTrainingPlan (text_of (document before secs))
  = Some (parse_lines (document before secs)).
Proof.
  intros Hs Hp. destruct secs as [|sec secs]; [congruence|].
  apply (parse_text_of _ (lit "## " ++ fst sec)); [exact Hp| |reflexivity].
  unfold document. apply in_or_app. right. now left.
Qed.

(** The plan of a document whose raw mapping holds one section. *)
Lemma parse_lines_single (ls : list jsstring) (key content : jsstring) :
  rawSections (scanned_sections ls) = [(key, content)] ->
  parse_lines ls = classify (scanned_sections ls) key.
Proof.
  intros H. unfold parse_lines. rewrite H, object_keys_single. reflexivity.
Qed.

Lemma classify_populated (f : field) (s : Sections) (key : jsstring) :
  predicate f (toLowerCase key) = true ->
  bigPicture s = [] -> immediateFocus s = ImmediateFocus.empty ->
  progression s = Progression.empty ->
  populated f (section_body s key) (classify s key).
Proof.
  intros H _ HI HP. unfold section_body.
  destruct f; cbn [populated classify bigPicture immediateFocus drills
    dailyPlan weeklySchedule weekPlan strengths progression sessionPlan
    checkpoints mentalCues traps]; cbn [predicate] in H; rewrite H;
    rewrite ?HI, ?HP; reflexivity.
Qed.

Lemma raw_set_fresh (key v : jsstring) :
  str_eqb key (lit "__proto__") = false -> raw_set [] key v = [(key, v)].
Proof. intros H. unfold raw_set. now rewrite H. Qed.

(** The plan of a document with a single section that some predicate
    selects: the section is in the raw mapping, and every field whose
    predicate selects the heading holds what its rule makes of the body. *)
Lemma single_section_plan
  (before : list jsstring) (h : jsstring) (body : list jsstring) (f0 : field) :
  plain (document before [(h, body)]) = true ->
  no_heading before = true -> no_heading body = true ->
  predicate f0 (toLowerCase (trim h)) = true ->
  exists p,
    parseTrainingPlan (text_of (document before [(h, body)])) = Some p
    /\ rawSections p = [(trim h, body_text body)]
    /\ forall f, predicate f (toLowerCase (trim h)) = true ->
                 populated f (body_text body) p.
Proof.
  intros Hp Hb Hbody H0.
  destruct (predicate_key f0 (trim h) H0) as [Ht Hproto].
  assert (R : rawSections (scanned_sections (document before [(h, body)]))
              = [(trim h, body_text body)]).
  { rewrite scanned_document; [|exact Hb|cbn [forallb snd]; now rewrite Hbody].
    cbn [fold_left]. unfold save. cbn [fst snd]. rewrite Ht.
    now apply raw_set_fresh. }
  exists (parse_lines (document before [(h, body)])).
  split; [apply parse_document; [discriminate|exact Hp]|].
  rewrite (parse_lines_single _ _ _ R).
  assert (B : section_body (scanned_sections (document before [(h, body)]))
                (trim h) = body_text body).
  { unfold section_body. rewrite R. cbn. now rewrite str_eqb_refl. }
  split; [exact R|].
  intros f Hf. rewrite <- B. apply classify_populated; auto.
Qed.

Lemma section_body_fold (keys : list jsstring) (s : Sections) (k : jsstring) :
  section_body (fold_left classify keys s) k = section_body s k.
Proof. unfold section_body. now rewrite classify_fold_raw. Qed.

Lemma list_field_classify (f : field) (s : Sections) (k : jsstring)
  (l : list jsstring) :
  list_field f (classify s k) = Some l ->
  exists l0, list_field f s = Some l0
    /\ l = if predicate f (toLowerCase k)
           then bullets (section_body s k) else l0.
Proof.
  unfold section_body.
  destruct f; cbn [list_field classify bigPicture strengths checkpoints
    mentalCues traps predicate]; intros E; try discriminate;
    injection E as <-; eexists; (split; [reflexivity|]);
    match goal with
    | |- context [if ?c then _ else _] => destruct c
    end; reflexivity.
Qed.

(** A list of bullets after the classification: the bullets of the last
    selected key, or what the list was when no key is selected. *)
Lemma list_field_fold (f : field) (keys : list jsstring) (s : Sections)
  (l : list jsstring) :
  list_field f (fold_left classify keys s) = Some l ->
  exists l0, list_field f s = Some l0
    /\ l = match last_selected f keys with
           | Some k => bullets (section_body s k)
           | None => l0
           end.
Proof.
  revert s l; induction keys as [|k keys IH]; intros s l H.
  - exists l. now split.
  - cbn [fold_left] in H. destruct (IH _ _ H) as (l1 & H1 & E1).
    destruct (list_field_classify f s k l1 H1) as (l0 & H0 & E0).
    exists l0. split; [exact H0|]. cbn [last_selected].
    destruct (last_selected f keys) as [k'|]; [exact E1|].
    rewrite E1, E0.
    destruct (predicate f (toLowerCase k)); reflexivity.
Qed.

(** C4, as the code has it.  In a document made of sections, every section
    whose heading is not empty once trimmed, is not [__proto__], and is not
    used again by a later section has its body in the raw mapping under its
    heading: its lines, the title lines apart, joined by line feeds.  No
    predicate has to select the heading. *)
Theorem last_section_body_retained
  (before : list jsstring) (earlier later : list (jsstring * list jsstring))
  (sec : jsstring * list jsstring) :
  plain (document before (earlier ++ sec :: later)) = true ->
  no_heading before = true ->
  forallb (fun s => no_heading (snd s)) (earlier ++ sec :: later) = true ->
  truthy (trim (fst sec)) = true ->
  str_eqb (trim (fst sec)) (lit "__proto__") = false ->
  forallb (fun s => negb (str_eqb (trim (fst s)) (trim (fst sec)))) later
  = true ->
  exists p,
    parseTrainingPlan (text_of (document before (earlier ++ sec :: later)))
    = Some p
    /\ raw_get (rawSections p) (trim (fst sec)) = Some (body_text (snd sec)).
Proof.
  intros Hp Hb Hs Ht Hproto Hl.
  exists (parse_lines (document before (earlier ++ sec :: later))).
  split.
  - apply parse_document; [|exact Hp]. destruct earlier; discriminate.
  - unfold parse_lines. rewrite classify_fold_raw.
    rewrite scanned_document by assumption.
    apply raw_get_save_last.
    + intros E. rewrite E in Ht. discriminate.
    + intros E. rewrite E, str_eqb_refl in Hproto. discriminate.
    + apply Forall_forall. intros s' Hin E.
      rewrite forallb_forall in Hl. specialize (Hl s' Hin).
      rewrite E, str_eqb_refl in Hl. discriminate.
Qed.

(** * The empty text and the defaults *)

Lemma filter_titles_none (ls : list jsstring) :
  forallb not_title ls = true -> filter is_title_line ls = [].
Proof.
  induction ls as [|l ls IH]; [reflexivity|].
  cbn [forallb filter]. intros H. apply andb_true_iff in H as [Hl Hr].
  unfold not_title in Hl. apply negb_true_iff in Hl. rewrite Hl. auto.
Qed.

(** The destructuring of [line.split(':')] in a priority block finds its
    two pieces: a line that holds a colon splits in two pieces at least. *)
Lemma split_colon_two_pieces (line : jsstring) :
  includes line (lit ":") = true -> 2 <= length (split line (lit ":")).
Proof.
  change (lit ":") with [58%N]. rewrite includes_char. unfold split.
  generalize (@nil char) as cur.
  induction line as [|c line IH]; intros cur H; [discriminate|].
  cbn [existsb] in H. cbn [split_go startsWith].
  destruct (N.eqb 58 c) eqn:E; cbn [andb length Nat.sub].
  - assert (N := split_not_nil line [58%N]). unfold split in N.
    destruct (split_go [58%N] line 0 []); [congruence|cbn; lia].
  - apply IH. exact H.
Qed.

(** C1, as the code has it.  The empty text gives [null].  Every other text
    gives a plan, an object with all its fields; when its raw mapping is
    empty every field but the title is at its default, the empty string or
    the empty sequence, and the title is empty when no line is a title
    line.  Nothing is raised on the way: the one value that the parser
    takes from an array without a test, the second piece of a line split at
    its colons, is there whenever it is read. *)
Theorem parse_complete :
  parseTrainingPlan [] = None
  /\ (forall text, truthy text = true ->
        exists p, parseTrainingPlan text = Some p
          /\ (rawSections p = [] -> p = with_title (title p) initial_sections)
          /\ (forallb not_title (split text [LF]) = true -> title p = []))
  /\ (forall line, includes line (lit ":") = true ->
        2 <= length (split line (lit ":"))).
Proof.
  split; [reflexivity|]. split; [|exact split_colon_two_pieces].
  intros text Ht.
  exists (parse_lines (split text [LF])). split.
  - unfold parseTrainingPlan. now rewrite Ht.
  - unfold parse_lines. split.
    + rewrite classify_fold_raw. intros E. rewrite E.
      change (object_keys []) with (@nil jsstring). cbn [fold_left].
      unfold scanned_sections in *. cbn [rawSections] in E.
      unfold with_title, initial_sections. cbn. now rewrite E.
    + intros H. rewrite classify_fold_title, scanned_title.
      unfold last_title. now rewrite filter_titles_none.
Qed.

(** * Bullet lines *)

(** The pattern that removes the dash is anchored: it matches at the start
    of the line or nowhere. *)
Lemma search_dash_later (s : jsstring) (pos : nat) :
  search re_dash (S pos) s = None.
Proof.
  revert pos; induction s as [|c s IH]; intros pos; [reflexivity|].
  cbn [search]. change (match_at re_dash (S pos) (c :: s)) with (@None mstate).
  apply IH.
Qed.

Lemma star_greedy_spaces (s : jsstring) (pos : nat)
  (caps : list (nat * jsstring)) :
  exists n, star_greedy is_space Some caps pos s
            = Some (MState n (trimStart s) caps).
Proof.
  revert pos; induction s as [|c s IH]; intros pos.
  - exists pos. reflexivity.
  - cbn [star_greedy trimStart]. destruct (is_space c).
    + destruct (IH (S pos)) as (n & ->). now exists n.
    + now exists pos.
Qed.

Lemma trimStart_idem (s : jsstring) : trimStart (trimStart s) = trimStart s.
Proof.
  induction s as [|c s IH]; [reflexivity|].
  cbn [trimStart]. destruct (is_space c) eqn:E; [exact IH|].
  cbn [trimStart]. now rewrite E.
Qed.

(** A line that starts with the dash loses the dash and the white space
    around what follows. *)
Lemma strip_bullet_flush (t : jsstring) : strip_bullet (ch "-" :: t) = trim t.
Proof.
  unfold strip_bullet, re_replace. cbn [search].
  unfold match_at, re_dash. cbn [re_icase re_body Seqs rmatch m_pos m_rest
    m_caps Nat.eqb char_matches]. rewrite N.eqb_refl.
  destruct (star_greedy_spaces t 1 []) as (n & ->).
  cbn [firstn app m_rest]. unfold trim. now rewrite trimStart_idem.
Qed.

Lemma match_dash_other (c : char) (l : jsstring) (pos : nat) :
  N.eqb (ch "-") c = false -> match_at re_dash pos (c :: l) = None.
Proof.
  intros H. unfold match_at, re_dash.
  cbn [re_icase re_body Seqs rmatch m_pos m_rest m_caps char_matches].
  destruct (Nat.eqb pos 0); [now rewrite H|reflexivity].
Qed.

(** A line that does not start with the dash is left as it is. *)
Lemma strip_bullet_other (l : jsstring) :
  startsWith l (lit "-") = false -> strip_bullet l = trim l.
Proof.
  intros H. unfold strip_bullet, re_replace.
  destruct l as [|c l]; [reflexivity|].
  change (lit "-") with [ch "-"] in H. cbn [startsWith] in H.
  rewrite andb_true_r in H.
  cbn [search]. now rewrite (match_dash_other c l 0 H), search_dash_later.
Qed.

Lemma trimStart_snoc (a : jsstring) (c : char) :
  is_space c = false -> exists a', trimStart (a ++ [c]) = a' ++ [c].
Proof.
  intros Hc. induction a as [|x a IH].
  - exists []. cbn. now rewrite Hc.
  - cbn [app trimStart]. destruct (is_space x); [exact IH|].
    now exists (x :: a).
Qed.

Lemma trim_keeps_first (c : char) (t : jsstring) :
  is_space c = false -> exists u, trim (c :: t) = c :: u.
Proof.
  intros Hc. unfold trim. cbn [trimStart]. rewrite Hc.
  unfold trimEnd. cbn [rev].
  destruct (trimStart_snoc (rev t) c Hc) as (a' & ->).
  exists (rev a'). now rewrite rev_app_distr.
Qed.

Lemma trim_indent (n : nat) (s : jsstring) :
  trim (repeat 32%N n ++ s) = trim s.
Proof. unfold trim. f_equal. induction n as [|n IH]; [reflexivity|exact IH]. Qed.

(** C5.  What the code does with bullet lines.  A line that starts with
    the dash gives its text, the dash and the white space around the text
    removed.  A bullet line indented by spaces passes the filter, which
    looks at the trimmed line, and keeps its dash, because the pattern that
    removes the dash is anchored at the start of the line as it stands.  So
    in the document below the second entry is [- two], not [two]. *)
Theorem indented_bullet_keeps_its_dash :
  (forall t : jsstring, strip_bullet (ch "-" :: t) = trim t)
  /\ (forall (n : nat) (t : jsstring),
        is_bullet (repeat 32%N (S n) ++ ch "-" :: t) = true
        /\ exists u,
             strip_bullet (repeat 32%N (S n) ++ ch "-" :: t) = ch "-" :: u)
  /\ option_map checkpoints
       (parseTrainingPlan
          (text_of [lit "## Checkpoints"; lit "- one"; lit "  - two";
                    lit "- three"]))
     = Some [lit "one"; lit "- two"; lit "three"].
Proof.
  split; [exact strip_bullet_flush|]. split; [|vm_compute; reflexivity].
  intros n t.
  destruct (trim_keeps_first (ch "-") t eq_refl) as (u & Hu). split.
  - unfold is_bullet. rewrite trim_indent, Hu. reflexivity.
  - exists u. rewrite strip_bullet_other by reflexivity.
    now rewrite trim_indent.
Qed.

(** * The runs of the daily plan *)

Lemma char_matches_star (c : char) :
  c <> ch "*" -> char_matches true (ch "*") c = false.
Proof. now apply char_matches_low. Qed.

Lemma no_star_cons (c : char) (s : jsstring) :
  no_star (c :: s) = true -> c <> ch "*" /\ no_star s = true.
Proof.
  unfold no_star. change (c :: s) with ([c] ++ s). rewrite no_char_app.
  intros H. apply andb_true_iff in H as [Hc Hs]. split; [|exact Hs].
  apply no_char_In in Hc. intros ->. apply Hc. now left.
Qed.

(** Both patterns of a run header start with two stars. *)
Lemma match_runsplit_other (pos : nat) (c : char) (t : jsstring) :
  c <> ch "*" -> match_at re_runsplit pos (c :: t) = None.
Proof.
  intros H. unfold match_at, re_runsplit.
  cbn [re_icase re_body Seqs]. eval_lits.
  cbn [Str rmatch m_rest]. change 42%N with (ch "*").
  now rewrite (char_matches_star c H).
Qed.

Lemma match_runheader_other (pos : nat) (c : char) (t : jsstring) :
  c <> ch "*" -> match_at re_runheader pos (c :: t) = None.
Proof.
  intros H. unfold match_at, re_runheader.
  cbn [re_icase re_body Seqs]. eval_lits.
  cbn [Str rmatch m_rest]. change 42%N with (ch "*").
  now rewrite (char_matches_star c H).
Qed.

Lemma digit_or_dash_not_space (c : char) :
  digit_or_dash c = true -> is_space c = false.
Proof.
  intros H. destruct (is_space c) eqn:E; [exfalso|reflexivity].
  unfold digit_or_dash, is_digit, is_ch in H. change (ch "-") with 45%N in H.
  unfold is_space in E. bools; lia.
Qed.

Lemma no_star_forallb (s : jsstring) :
  no_star s = true -> forallb not_star s = true.
Proof.
  induction s as [|c s IH]; [reflexivity|].
  intros H. apply no_star_cons in H as [Hc Hs].
  cbn [forallb]. rewrite (IH Hs), andb_true_r.
  unfold not_star, is_ch. apply negb_true_iff. now apply N.eqb_neq.
Qed.

Lemma range_parts (n : jsstring) :
  range n = true ->
  exists d n', n = d :: n' /\ digit_or_dash d = true
               /\ forallb digit_or_dash n' = true.
Proof.
  unfold range. intros H. apply andb_true_iff in H as [Ht Hd].
  destruct n as [|d n']; [discriminate|].
  cbn [forallb] in Hd. apply andb_true_iff in Hd as [Hd1 Hd2].
  now exists d, n'.
Qed.

Lemma no_range_first_stars (t rest : jsstring) :
  no_range_first t = true ->
  match t ++ lit "**" ++ rest with
  | [] => True
  | c :: _ => digit_or_dash c = false
  end.
Proof.
  destruct t as [|c t]; [reflexivity|].
  cbn [no_range_first app]. now intros H%negb_true_iff.
Qed.

(** The pattern of the split takes the two stars, [Run], the white space
    and the range of a header, and stops there. *)
Lemma match_runsplit_header (n t rest : jsstring) (pos : nat) :
  range n = true -> no_range_first t = true ->
  match_at re_runsplit pos (lit "**Run " ++ n ++ t ++ lit "**" ++ rest)
  = Some (MState (length (lit "**Run " ++ n) + pos) (t ++ lit "**" ++ rest) []).
Proof.
  intros Hn Ht. destruct (range_parts n Hn) as (d & n' & -> & Hd & Hn').
  unfold match_at, re_runsplit. cbn [re_icase re_body Seqs].
  change (lit "**Run " ++ (d :: n') ++ t ++ lit "**" ++ rest)
    with (lit "**Run" ++ [32%N] ++ (d :: n') ++ t ++ lit "**" ++ rest).
  cbn [rmatch]. rewrite rmatch_Str_app. cbn [m_caps m_pos m_rest].
  erewrite (star_greedy_run is_space _ [] [32%N]);
    [reflexivity|reflexivity|cbn [app]; now apply digit_or_dash_not_space|].
  unfold Plus. cbn [rmatch app m_rest m_pos m_caps]. rewrite Hd.
  erewrite (star_greedy_run digit_or_dash _ [] n' (t ++ lit "**" ++ rest));
    [reflexivity|exact Hn'|now apply no_range_first_stars|].
  do 2 f_equal. eval_lits. cbn [length app]. lia.
Qed.

(** The pattern of the headers takes a whole header. *)
Lemma match_runheader_header (n t rest : jsstring) (pos : nat) :
  range n = true -> no_range_first t = true -> no_star t = true ->
  match_at re_runheader pos (run_header n t ++ rest)
  = Some (MState (length (run_header n t) + pos) rest []).
Proof.
  intros Hn Ht Hs. destruct (range_parts n Hn) as (d & n' & -> & Hd & Hn').
  unfold match_at, re_runheader, run_header. cbn [re_icase re_body Seqs].
  rewrite <- !app_assoc.
  change (lit "**Run " ++ (d :: n') ++ t ++ lit "**" ++ rest)
    with (lit "**Run" ++ [32%N] ++ (d :: n') ++ t ++ lit "**" ++ rest).
  cbn [rmatch]. rewrite rmatch_Str_app. cbn [m_caps m_pos m_rest].
  erewrite (star_greedy_run is_space _ [] [32%N]);
    [reflexivity|reflexivity|cbn [app]; now apply digit_or_dash_not_space|].
  unfold Plus. cbn [rmatch app m_rest m_pos m_caps]. rewrite Hd.
  erewrite (star_greedy_run digit_or_dash _ [] n' (t ++ lit "**" ++ rest));
    [reflexivity|exact Hn'|now apply no_range_first_stars|].
  cbn [m_rest m_pos m_caps].
  erewrite (star_greedy_run not_star _ [] t (lit "**" ++ rest));
    [reflexivity|now apply no_star_forallb|reflexivity|].
  rewrite rmatch_Str_app. do 2 f_equal.
  eval_lits. cbn [length app]. rewrite !length_app. cbn [length]. lia.
Qed.

(** ** Where no header starts *)

Lemma fails_within_runsplit (x s : jsstring) :
  no_star x = true -> fails_within re_runsplit x s.
Proof.
  induction x as [|c x IH]; [constructor|].
  intros H. apply no_star_cons in H as [Hc Hx]. split; [|auto].
  intros pos. now apply match_runsplit_other.
Qed.

Lemma fails_within_runheader (x s : jsstring) :
  no_star x = true -> fails_within re_runheader x s.
Proof.
  induction x as [|c x IH]; [constructor|].
  intros H. apply no_star_cons in H as [Hc Hx]. split; [|auto].
  intros pos. now apply match_runheader_other.
Qed.

Lemma runs_start (runs : list (jsstring * jsstring * jsstring)) :
  flat_map run_text runs = []
  \/ exists s, flat_map run_text runs = lit "**R" ++ s.
Proof.
  destruct runs as [|[[n t] b] runs]; [now left|]. right.
  cbn [flat_map run_text]. unfold run_header. rewrite <- !app_assoc.
  eexists. reflexivity.
Qed.

(** The two stars that close a header do not open one, whatever follows
    the header: a text that does not start with [R], or the next header. *)
Lemma fails_within_closing (b : jsstring)
  (runs : list (jsstring * jsstring * jsstring)) :
  no_star b = true -> no_R_first b = true ->
  fails_within re_runsplit (lit "**") (b ++ flat_map run_text runs).
Proof.
  intros Hs Hr. change (lit "**") with [ch "*"; ch "*"].
  cbn [fails_within app].
  destruct b as [|c b].
  - cbn [app]. destruct (runs_start runs) as [->|(s & ->)];
      repeat split; intros pos; reflexivity.
  - apply no_star_cons in Hs as [Hc _]. cbn [no_R_first] in Hr.
    apply negb_true_iff in Hr. cbn [app]. repeat split; intros pos.
    + unfold match_at, re_runsplit. cbn [re_icase re_body Seqs]. eval_lits.
      cbn [Str rmatch m_rest m_pos m_caps].
      change (char_matches true 42%N 42%N) with true. cbn iota.
      assert (E : char_matches true 82%N c = false).
      { unfold char_matches. change (upper_ascii 82%N) with (ch "R").
        now rewrite N.eqb_sym. }
      now rewrite E.
    + unfold match_at, re_runsplit. cbn [re_icase re_body Seqs]. eval_lits.
      cbn [Str rmatch m_rest m_pos m_caps].
      change (char_matches true 42%N 42%N) with true. cbn iota.
      change 42%N with (ch "*"). now rewrite (char_matches_star c Hc).
Qed.

Lemma run_ok_parts (n t b : jsstring) :
  run_ok (n, t, b) = true ->
  range n = true /\ no_star t = true /\ no_range_first t = true
  /\ no_star b = true /\ no_R_first b = true.
Proof. unfold run_ok. rewrite !andb_true_iff. tauto. Qed.

(** ** The pieces and the headers of a body made of runs *)

Lemma re_split_go_runs (runs : list (jsstring * jsstring * jsstring))
  (x cur : jsstring) (pos : nat) :
  fails_within re_runsplit x (flat_map run_text runs) ->
  forallb run_ok runs = true ->
  re_split_go re_runsplit pos (x ++ flat_map run_text runs) 0 cur
  = (rev cur ++ x) :: map run_piece runs.
Proof.
  revert x cur pos.
  induction runs as [|[[n t] b] runs IH]; intros x cur pos Hx Hr.
  - cbn [flat_map map] in *. rewrite re_split_go_fails by exact Hx.
    cbn [re_split_go]. now rewrite rev_app_distr, rev_involutive.
  - cbn [forallb] in Hr. apply andb_true_iff in Hr as [Hr1 Hrs].
    destruct (run_ok_parts n t b Hr1) as (Hn & Ht & Hf & Hb & HR).
    rewrite re_split_go_fails by exact Hx.
    cbn [flat_map map run_text run_piece]. unfold run_header.
    rewrite <- !app_assoc.
    set (rest := flat_map run_text runs) in *.
    assert (M : match_at re_runsplit (length x + pos)
                  (ch "*" :: (lit "*Run " ++ n) ++ t ++ lit "**" ++ b ++ rest)
                = Some (MState (S (length (lit "*Run " ++ n)) + (length x + pos))
                          (t ++ lit "**" ++ b ++ rest) []))
      by exact (match_runsplit_header n t (b ++ rest) (length x + pos) Hn Hf).
    change (lit "**Run " ++ n ++ t ++ lit "**" ++ b ++ rest)
      with (ch "*" :: (lit "*Run " ++ n) ++ t ++ lit "**" ++ b ++ rest).
    cbn [re_split_go]. rewrite M. cbn [m_pos].
    replace (S (length (lit "*Run " ++ n)) + (length x + pos) - (length x + pos))
      with (S (length (lit "*Run " ++ n))) by lia.
    rewrite re_split_go_skip, rev_app_distr, rev_involutive. f_equal.
    replace (t ++ lit "**" ++ b ++ rest) with ((t ++ lit "**" ++ b) ++ rest)
      by now rewrite <- !app_assoc.
    apply (IH (t ++ lit "**" ++ b) [] _); [|exact Hrs].
    apply fails_within_app; [now apply fails_within_runsplit|].
    apply fails_within_app; [now apply fails_within_closing|].
    now apply fails_within_runsplit.
Qed.

Lemma match_all_go_runs (runs : list (jsstring * jsstring * jsstring))
  (x : jsstring) (pos : nat) :
  no_star x = true -> forallb run_ok runs = true ->
  match_all_go re_runheader pos (x ++ flat_map run_text runs) 0
  = map (fun r => let '(n, t, _) := r in run_header n t) runs.
Proof.
  revert x pos.
  induction runs as [|[[n t] b] runs IH]; intros x pos Hx Hr.
  - cbn [flat_map map]. rewrite app_nil_r.
    rewrite <- (app_nil_r x),
      (match_all_go_fails _ _ _ _ (fails_within_runheader x [] Hx)).
    reflexivity.
  - cbn [forallb] in Hr. apply andb_true_iff in Hr as [Hr1 Hrs].
    destruct (run_ok_parts n t b Hr1) as (Hn & Ht & Hf & Hb & HR).
    rewrite (match_all_go_fails _ _ _ _ (fails_within_runheader x _ Hx)).
    cbn [flat_map map run_text]. rewrite <- !app_assoc.
    assert (M := match_runheader_header n t
                   (b ++ flat_map run_text runs) (length x + pos) Hn Hf Ht).
    remember (run_header n t) as hd eqn:Ehd.
    destruct hd as [|c hd]; [discriminate|].
    cbn [app match_all_go]. cbn [app] in M. rewrite M. cbn [m_pos].
    replace (length (c :: hd) + (length x + pos) - (length x + pos))
      with (S (length hd)) by (cbn [length]; lia).
    f_equal.
    + change (c :: hd ++ b ++ flat_map run_text runs)
        with ((c :: hd) ++ b ++ flat_map run_text runs).
      change (S (length hd)) with (length (c :: hd)).
      apply firstn_length_app.
    + cbn [length Nat.sub]. rewrite Nat.sub_0_r.
      rewrite match_all_go_skip. now apply IH.
Qed.

Lemma match_runsplit_nil (pos : nat) : match_at re_runsplit pos [] = None.
Proof. reflexivity. Qed.

(** The pieces of a body made of runs: the text before the first header,
    then for each run what follows the range of its header. *)
Lemma re_split_runs (pre : jsstring)
  (runs : list (jsstring * jsstring * jsstring)) :
  no_star pre = true -> forallb run_ok runs = true ->
  re_split (runs_doc pre runs) re_runsplit = pre :: map run_piece runs.
Proof.
  intros Hp Hr. unfold re_split.
  destruct (runs_doc pre runs) as [|c s] eqn:E.
  - rewrite match_runsplit_nil. unfold runs_doc in E.
    destruct pre; [|discriminate].
    destruct runs as [|[[n t] b] runs]; [reflexivity|discriminate].
  - rewrite <- E. unfold runs_doc.
    rewrite re_split_go_runs; [reflexivity| |exact Hr].
    now apply fails_within_runsplit.
Qed.

(** The headers of a body made of runs. *)
Lemma re_match_all_runs (pre : jsstring)
  (runs : list (jsstring * jsstring * jsstring)) :
  no_star pre = true -> forallb run_ok runs = true ->
  re_match_all (runs_doc pre runs) re_runheader
  = map (fun r => let '(n, t, _) := r in run_header n t) runs.
Proof. intros Hp Hr. now apply match_all_go_runs. Qed.

Lemma match_runnum (n t : jsstring) (pos : nat) :
  range n = true -> no_range_first t = true ->
  exists e,
    match_at re_runnum pos (lit "Run " ++ n ++ t ++ lit "**")
    = Some (MState e (t ++ lit "**") [(1, n)]).
Proof.
  intros Hn Ht. destruct (range_parts n Hn) as (d & n' & -> & Hd & Hn').
  eexists. unfold match_at, re_runnum. cbn [re_icase re_body Seqs].
  change (lit "Run " ++ (d :: n') ++ t ++ lit "**")
    with (lit "Run" ++ [32%N] ++ (d :: n') ++ t ++ lit "**").
  cbn [rmatch]. rewrite rmatch_Str_app. cbn [m_caps m_pos m_rest].
  erewrite (star_greedy_run is_space _ [] [32%N]);
    [reflexivity|reflexivity|cbn [app]; now apply digit_or_dash_not_space|].
  unfold Plus. cbn [rmatch app m_rest m_pos m_caps]. rewrite Hd.
  erewrite (star_greedy_run digit_or_dash _ [] n' (t ++ lit "**"));
    [reflexivity|exact Hn'|now apply (no_range_first_stars t [])|].
  unfold set_cap. cbn [m_caps m_pos m_rest].
  match goal with
  | |- context [firstn ?k _] =>
      replace k with (length (d :: n')) by (cbn [length]; lia)
  end.
  change (d :: n' ++ t ++ lit "**") with ((d :: n') ++ t ++ lit "**").
  rewrite (firstn_length_app (d :: n')). reflexivity.
Qed.

(** The range that an entry takes from its header. *)
Lemma run_header_range (n t : jsstring) :
  range n = true -> no_range_first t = true ->
  exists m caps,
    re_match (run_header n t) re_runnum = Some (m, caps) /\ cap 1 caps = n.
Proof.
  intros Hn Ht. destruct (match_runnum n t 2 Hn Ht) as (e & M).
  unfold re_match, run_header.
  change (search re_runnum 0 (lit "**Run " ++ n ++ t ++ lit "**"))
    with (search re_runnum 2 (lit "Run " ++ n ++ t ++ lit "**")).
  change (lit "Run " ++ n ++ t ++ lit "**")
    with (ch "R" :: lit "un " ++ n ++ t ++ lit "**") in *.
  cbn [search]. rewrite M. do 2 eexists. split; [reflexivity|].
  cbn [m_caps cap Nat.eqb]. reflexivity.
Qed.

Lemma run_piece_nonblank (r : jsstring * jsstring * jsstring) :
  nonblank (run_piece r) = true.
Proof.
  destruct r as [[n t] b]. apply (nonblank_In _ (ch "*")); [|reflexivity].
  cbn [run_piece]. apply in_or_app. right. now left.
Qed.

Lemma run_pieces_nonblank (runs : list (jsstring * jsstring * jsstring)) :
  filter nonblank (map run_piece runs) = map run_piece runs.
Proof.
  apply filter_all, forallb_forall. intros x Hx.
  apply in_map_iff in Hx as (r & <- & _). apply run_piece_nonblank.
Qed.

Lemma run_entries_ranges (B : list jsstring)
  (runs : list (jsstring * jsstring * jsstring)) (i : nat) :
  forallb run_ok runs = true ->
  map Run.runs
    (mapi_from (run_entry B)
       (map (fun r => let '(n, t, _) := r in run_header n t) runs) i)
  = map run_range runs.
Proof.
  revert i; induction runs as [|[[n t] b] runs IH]; intros i Hr;
    [reflexivity|].
  cbn [forallb] in Hr. apply andb_true_iff in Hr as [Hr1 Hrs].
  destruct (run_ok_parts n t b Hr1) as (Hn & _ & Hf & _ & _).
  cbn [map mapi_from run_range]. rewrite (IH _ Hrs). f_equal.
  destruct (run_header_range n t Hn Hf) as (m & caps & E & C).
  unfold run_entry. cbn [Run.runs]. now rewrite E.
Qed.

Lemma run_entries_details (B : list jsstring) (hs : list jsstring) (i : nat) :
  map Run.details (mapi_from (run_entry B) hs i)
  = map (fun j => bullets (nth (S j) B [])) (seq i (length hs)).
Proof.
  revert i; induction hs as [|h hs IH]; intros i; [reflexivity|].
  cbn [mapi_from map length seq]. rewrite IH. f_equal.
  unfold run_entry. cbn [Run.details]. now rewrite Nat.add_1_r.
Qed.

(** C7.  What the code does with the details of the runs.  In a body made
    of runs, each a header in bold and the text after it, the i-th entry has
    the range of the i-th header.  Its details are the bullets of the piece
    at index i + 1 of the pieces that are not blank: when the text before
    the first header is not blank that is the text after the i-th header;
    when it is blank or empty it is filtered out, the pieces move down by
    one, and the details of the i-th entry are the bullets that follow the
    NEXT header, the last entry having none.  The two documents below show
    both. *)
Theorem run_details_come_from_next_header :
  (forall (pre : jsstring) (runs : list (jsstring * jsstring * jsstring)),
     no_star pre = true -> forallb run_ok runs = true ->
     let plan := dailyPlanOf (runs_doc pre runs) in
     map Run.runs plan = map run_range runs
     /\ (nonblank pre = true ->
         map Run.details plan = map (fun r => bullets (run_piece r)) runs)
     /\ (nonblank pre = false ->
         map Run.details plan
         = match runs with
           | [] => []
           | _ :: later =>
               map (fun r => bullets (run_piece r)) later ++ [[]]
           end))
  /\ option_map dailyPlan
       (parseTrainingPlan
          (text_of [lit "## Daily Plan"; lit "**Run 1: Warm**"; lit "- a";
                    lit "**Run 2: Go**"; lit "- b"]))
     = Some [Run.Build (lit "1") (lit "Warm") [lit "b"];
             Run.Build (lit "2") (lit "Go") []]
  /\ option_map dailyPlan
       (parseTrainingPlan
          (text_of [lit "## Daily Plan"; lit "Today:"; lit "**Run 1: Warm**";
                    lit "- a"; lit "**Run 2: Go**"; lit "- b"]))
     = Some [Run.Build (lit "1") (lit "Warm") [lit "a"];
             Run.Build (lit "2") (lit "Go") [lit "b"]].
Proof.
  split; [|split; vm_compute; reflexivity].
  intros pre runs Hp Hr plan. unfold plan, dailyPlanOf, mapi.
  rewrite (re_split_runs pre runs Hp Hr), (re_match_all_runs pre runs Hp Hr).
  split; [now apply run_entries_ranges|].
  rewrite run_entries_details, length_map.
  cbn [filter]. rewrite run_pieces_nonblank.
  rewrite <- (length_map run_piece runs).
  split; intros Hn; rewrite Hn.
  - cbn [nth]. rewrite <- (map_map (fun j => nth j (map run_piece runs) [])).
    now rewrite map_nth_seq, map_map.
  - rewrite <- (map_map (fun j => nth (S j) (map run_piece runs) [])).
    rewrite map_nth_succ_seq.
    destruct runs as [|r later]; [reflexivity|].
    cbn [map]. now rewrite map_app, map_map.
Qed.

(** * The days of the weekly schedule *)

Lemma day_line_num (lines : list jsstring) (d : Day.t) (line : jsstring) :
  Day.dayNum (day_line lines d line) = Day.dayNum d.
Proof.
  unfold day_line.
  destruct (includes line (lit ":"));
    match goal with
    | |- context [if ?c then _ else _] => destruct c
    end; reflexivity.
Qed.

Lemma day_lines_num (lines ls : list jsstring) (d : Day.t) :
  Day.dayNum (fold_left (day_line lines) ls d) = Day.dayNum d.
Proof.
  revert d; induction ls as [|l ls IH]; intros d; [reflexivity|].
  cbn [fold_left]. now rewrite IH, day_line_num.
Qed.

(** The number of a day is one more than the index of its block. *)
Lemma day_block_num (block : jsstring) (idx : nat) :
  Day.dayNum (day_block block idx) = idx + 1.
Proof. unfold day_block. now rewrite day_lines_num. Qed.

Lemma day_numbers_from (blocks : list jsstring) (i : nat) :
  map Day.dayNum (mapi_from day_block blocks i) = seq (S i) (length blocks).
Proof.
  revert i; induction blocks as [|b blocks IH]; intros i; [reflexivity|].
  cbn [mapi_from map length seq]. rewrite IH, day_block_num.
  f_equal. lia.
Qed.

Lemma kept_days_sorted (blocks : list jsstring) (i : nat) :
  let nums := map Day.dayNum (filter day_kept (mapi_from day_block blocks i)) in
  StronglySorted lt nums /\ Forall (lt i) nums.
Proof.
  revert i; induction blocks as [|b blocks IH]; intros i; cbn zeta.
  - split; constructor.
  - cbn [mapi_from filter]. destruct (IH (S i)) as [Hs Hf].
    assert (Hf' : Forall (lt i)
              (map Day.dayNum
                 (filter day_kept (mapi_from day_block blocks (S i))))).
    { eapply Forall_impl; [|exact Hf]. intros n Hn. cbn beta in Hn. lia. }
    destruct (day_kept (day_block b i)); [|now split].
    cbn [map]. rewrite day_block_num. split.
    + constructor; [exact Hs|]. now rewrite Nat.add_1_r.
    + constructor; [lia|exact Hf'].
Qed.

(** The days kept are the days of the first blocks exactly when their
    numbers go up one by one from the first number. *)
Lemma kept_days_prefix (blocks : list jsstring) (i : nat) :
  let all := mapi_from day_block blocks i in
  let days := filter day_kept all in
  map Day.dayNum days = seq (S i) (length days)
  <-> days = firstn (length days) all.
Proof.
  revert i; induction blocks as [|b blocks IH]; intros i; cbn zeta.
  - split; reflexivity.
  - cbn [mapi_from filter]. specialize (IH (S i)). cbn zeta in IH.
    destruct (day_kept (day_block b i)) eqn:K.
    + cbn [map length seq firstn]. rewrite day_block_num.
      replace (i + 1) with (S i) by lia. split.
      * intros E. injection E as E. f_equal. now apply IH.
      * intros E. injection E as E. f_equal. now apply IH.
    + destruct (filter day_kept (mapi_from day_block blocks (S i)))
        as [|d days] eqn:F; [split; reflexivity|].
      split.
      * intros E. exfalso.
        destruct (kept_days_sorted blocks (S i)) as [_ Hf].
        cbn zeta in Hf. rewrite F in Hf. cbn [map length seq] in E, Hf.
        injection E as E _. inversion Hf; subst. lia.
      * intros E. exfalso. cbn [length firstn] in E. injection E as E _.
        assert (Hin : In d (filter day_kept
                              (mapi_from day_block blocks (S i))))
          by (rewrite F; now left).
        apply filter_In in Hin as [_ Hk]. rewrite E, K in Hk. discriminate.
Qed.

Lemma re_day_word : word_ok (lit "Day") = true.
Proof. reflexivity. Qed.

(** C8, as the code has it.  For a section that the predicate of the weekly
    schedule selects, the body is cut at the day headings and the blank
    pieces are dropped; the number of a day is the position, from 1, of its
    block among the pieces that are left, counted BEFORE the blocks with
    neither a name nor a primary focus are discarded.  So the numbers of the
    returned days increase strictly and each is the position of its own
    block.  They are 1, 2, 3, ... when no block is discarded, and more
    generally exactly when the days returned are those of the first blocks,
    every discarded block coming after the blocks that are kept: a block
    discarded before a kept one leaves a gap.  The digits of a heading are
    matched and dropped: a body cut by headings gives the same pieces
    whatever the digits. *)
Theorem day_numbers_are_block_positions :
  (forall (s : Sections) (key : jsstring),
     is_weekly_schedule (toLowerCase key) = true ->
     let blocks := filter nonblank (re_split (section_body s key) re_day) in
     let days := weeklySchedule (classify s key) in
     days = filter day_kept (mapi day_block blocks)
     /\ (forall d, In d days ->
           1 <= Day.dayNum d <= length blocks
           /\ d = day_block (nth (Day.dayNum d - 1) blocks [])
                    (Day.dayNum d - 1)
           /\ day_kept d = true)
     /\ StronglySorted lt (map Day.dayNum days)
     /\ (forallb day_kept (mapi day_block blocks) = true ->
         map Day.dayNum days = seq 1 (length blocks))
     /\ (map Day.dayNum days = seq 1 (length days)
         <-> days = firstn (length days) (mapi day_block blocks)))
  /\ (forall (pre : jsstring) (blocks : list (jsstring * jsstring)),
        no_hash pre = true -> forallb block_ok blocks = true ->
        re_split (subheading_doc (lit "Day") pre blocks) re_day
        = pre :: map snd blocks).
Proof.
  split.
  - intros s key H blocks days.
    assert (E : days = filter day_kept (mapi day_block blocks)).
    { unfold days, classify. cbn [weeklySchedule]. now rewrite H. }
    split; [exact E|]. rewrite E. split; [|split; [|split]].
    + intros d Hd. apply filter_In in Hd as [Hin Hk].
      destruct (mapi_from_In day_block blocks 0 [] d Hin) as (j & Hj & Ed).
      cbn [Nat.add] in Ed.
      assert (N : Day.dayNum d = j + 1) by (rewrite Ed; apply day_block_num).
      rewrite N. replace (j + 1 - 1) with j by lia.
      split; [lia|]. now split.
    + apply (kept_days_sorted blocks 0).
    + intros K. unfold mapi in *. rewrite (filter_all _ _ K).
      apply day_numbers_from.
    + apply (kept_days_prefix blocks 0).
  - intros pre blocks Hp Hb.
    apply (re_split_subheading_doc (lit "Day") re_day_word pre blocks Hp Hb).
Qed.

(** * The priorities of the week *)

(** ** One line of a priority block *)

(** The line of current and target sets both and leaves the drill. *)
Lemma priority_line_current (p : Priority.t) :
  let q := priority_line p current_line in
  Priority.current q = lit "45" /\ Priority.target q = lit "60"
  /\ Priority.drill q = Priority.drill p.
Proof.
  cbn zeta. split; [|split]; vm_compute; reflexivity.
Qed.

Lemma drill_text_split (d : jsstring) :
  no_char (ch ":") d = true ->
  map trim (split (drill_text d) (lit ":")) = [lit "Drill"; trim d].
Proof.
  intros H. unfold drill_text.
  change (lit "Drill: " ++ d) with (lit "Drill" ++ ch ":" :: (32%N :: d)).
  change (lit ":") with [ch ":"].
  rewrite split_sep.
  - rewrite split_plain; [reflexivity|].
    apply no_char_In in H. intros [E|Hin]; [discriminate|contradiction].
  - apply no_char_In. reflexivity.
Qed.

(** A neutral line leaves current, target and drill. *)
Lemma priority_line_neutral (p : Priority.t) (l : jsstring) :
  neutral l = true ->
  let q := priority_line p l in
  Priority.current q = Priority.current p
  /\ Priority.target q = Priority.target p
  /\ Priority.drill q = Priority.drill p.
Proof.
  unfold neutral, priority_label. intros H.
  apply andb_true_iff in H as [H1 H2].
  apply negb_true_iff in H1, H2.
  cbn zeta. unfold priority_line. rewrite H1.
  destruct (includes l (lit ":")); [|now cbn].
  cbn [andb] in H2. rewrite H2. now cbn.
Qed.

Lemma nonblank_current_line : nonblank current_line = true.
Proof. reflexivity. Qed.

Lemma nonblank_drill_text (d : jsstring) : nonblank (drill_text d) = true.
Proof.
  apply (nonblank_In _ (ch "D")); [|reflexivity].
  unfold drill_text. apply in_or_app. left. now left.
Qed.

(** ** The lines of a priority block, one after the other *)

Section BlockOfDrill.

(** The drill of the block. *)
Variable d : jsstring.
Hypothesis no_colon : no_char (ch ":") d = true.
Hypothesis no_arrow : no_char ARROW d = true.

(** The line of the drill sets the drill and leaves current and target. *)
Lemma priority_line_drill (p : Priority.t) :
  let q := priority_line p (drill_text d) in
  Priority.current q = Priority.current p
  /\ Priority.target q = Priority.target p
  /\ Priority.drill q = strip_bold (trim d).
Proof.
  cbn zeta. unfold priority_line.
  assert (A : includes (drill_text d) [ARROW] = false).
  { apply includes_char_false. unfold drill_text. intros Hin.
    apply in_app_or in Hin as [Hin|Hin].
    - revert Hin. apply no_char_In. reflexivity.
    - revert Hin. now apply no_char_In. }
  assert (C : includes (drill_text d) (lit ":") = true).
  { apply includes_char_true. unfold drill_text. apply in_or_app. left.
    vm_compute. tauto. }
  rewrite A, C, (drill_text_split d no_colon), !andb_false_r.
  cbn [nth Priority.current Priority.target Priority.drill].
  change (includes (toLowerCase (lit "Drill")) (lit "drill")) with true.
  now split.
Qed.

Lemma block_line_cases (l : jsstring) :
  block_line d l = true ->
  l = current_line \/ l = drill_text d \/ neutral l = true.
Proof.
  unfold block_line. intros H.
  apply orb_true_iff in H as [H|H]; [|now right; right].
  apply orb_true_iff in H as [H|H]; apply str_eqb_eq in H; auto.
Qed.

(** What one line of the block does to the three fields. *)
Lemma block_line_step (p : Priority.t) (l : jsstring) :
  block_line d l = true ->
  (scored p \/ l = current_line -> scored (priority_line p l))
  /\ (drilled d p \/ l = drill_text d -> drilled d (priority_line p l)).
Proof.
  intros H. unfold scored, drilled.
  destruct (priority_line_current p) as (CC & CT & CD).
  destruct (priority_line_drill p) as (DC & DT & DD).
  destruct (block_line_cases l H) as [->|[->|N]].
  - split; [intros _; split; assumption|].
    intros [E|E]; [congruence|]. rewrite E. exact DD.
  - split; [|intros _; exact DD].
    intros [[E1 E2]|E]; [split; congruence|].
    rewrite E. split; assumption.
  - destruct (priority_line_neutral p l N) as (NC & NT & ND).
    split.
    + intros [[E1 E2]|E]; [split; congruence|]. rewrite E. split; assumption.
    + intros [E|E]; [congruence|]. rewrite E. exact DD.
Qed.

(** What is set stays set through the lines of the block. *)
Lemma block_lines_keep (L : list jsstring) (p : Priority.t) :
  forallb (block_line d) L = true ->
  (scored p -> scored (fold_left priority_line L p))
  /\ (drilled d p -> drilled d (fold_left priority_line L p)).
Proof.
  revert p; induction L as [|l L IH]; intros p HL; [now split|].
  cbn [forallb] in HL. apply andb_true_iff in HL as [Hl HL].
  cbn [fold_left]. destruct (IH (priority_line p l) HL) as [K1 K2].
  destruct (block_line_step p l Hl) as [S1 S2]. split; auto.
Qed.

(** The line of current and target and the line of the drill set the three
    fields, wherever they stand in the block. *)
Lemma block_lines_set (L : list jsstring) (p : Priority.t) :
  forallb (block_line d) L = true ->
  (In current_line L -> scored (fold_left priority_line L p))
  /\ (In (drill_text d) L -> drilled d (fold_left priority_line L p)).
Proof.
  revert p; induction L as [|l L IH]; intros p HL; [split; contradiction|].
  cbn [forallb] in HL. apply andb_true_iff in HL as [Hl HL].
  cbn [fold_left]. destruct (IH (priority_line p l) HL) as [I1 I2].
  destruct (block_lines_keep L (priority_line p l) HL) as [K1 K2].
  destruct (block_line_step p l Hl) as [S1 S2].
  split; intros [E|Hin]; auto.
Qed.

(** The fields that the claim reads, for a block whose lines are known. *)
Lemma priority_block_fields (b : jsstring) :
  forallb (block_line d) (lines_of b) = true ->
  In current_line (lines_of b) -> In (drill_text d) (lines_of b) ->
  Priority.current (priority_block b) = lit "45"
  /\ Priority.target (priority_block b) = lit "60"
  /\ Priority.drill (priority_block b) = strip_bold (trim d).
Proof.
  intros HL Hcur Hdr. unfold priority_block.
  set (L := filter nonblank (lines_of b)).
  assert (HL' : forallb (block_line d) L = true) by now apply forallb_filter.
  destruct (block_lines_set L Priority.empty HL') as [F1 F2].
  destruct F1 as [C T].
  { apply filter_In. split; [exact Hcur|apply nonblank_current_line]. }
  assert (D : drilled d (fold_left priority_line L Priority.empty)).
  { apply F2, filter_In. split; [exact Hdr|apply nonblank_drill_text]. }
  unfold drilled in D.
  destruct L as [|l0 L0]; [now repeat split|].
  match goal with
  | |- context [if ?c then _ else _] => destruct c
  end; cbn [Priority.current Priority.target Priority.drill]; auto.
Qed.

End BlockOfDrill.

(** ** From the lines of a body to its blocks *)

Lemma join_ended (a rest : list jsstring) :
  rest <> [] -> join (a ++ rest) [LF] = ended a ++ join rest [LF].
Proof.
  intros H. induction a as [|x a IH]; [reflexivity|].
  cbn [app]. rewrite join_cons by (destruct a; [exact H|discriminate]).
  rewrite IH. unfold ended. cbn [flat_map]. now rewrite <- !app_assoc.
Qed.

Lemma join_cons_app (a b : jsstring) (l : list jsstring) (sep : jsstring) :
  join ((a ++ b) :: l) sep = a ++ join (b :: l) sep.
Proof. destruct l; [reflexivity|]. cbn [join]. now rewrite <- app_assoc. Qed.

Lemma split_ended (ls : list jsstring) (t : jsstring) :
  plain ls = true -> split (ended ls ++ t) [LF] = ls ++ split t [LF].
Proof.
  induction ls as [|l ls IH]; [reflexivity|].
  intros H. cbn [plain forallb] in H. apply andb_true_iff in H as [Hl Hls].
  unfold ended. cbn [flat_map app]. rewrite <- !app_assoc. cbn [app].
  rewrite split_sep by now apply no_char_In.
  f_equal. now apply IH.
Qed.

Lemma no_char_single (c x : char) : c <> x -> no_char c [x] = true.
Proof.
  intros H. unfold no_char. cbn [existsb]. rewrite orb_false_r.
  apply negb_true_iff. now apply N.eqb_neq.
Qed.

Lemma no_char_ended (c : char) (ls : list jsstring) :
  c <> LF -> forallb (no_char c) ls = true -> no_char c (ended ls) = true.
Proof.
  intros Hc. induction ls as [|l ls IH]; [reflexivity|].
  cbn [forallb]. intros H. apply andb_true_iff in H as [Hl Hls].
  unfold ended. cbn [flat_map]. rewrite !no_char_app, Hl.
  fold (ended ls). rewrite (IH Hls), (no_char_single c LF Hc). reflexivity.
Qed.

Lemma no_char_join (c : char) (ls : list jsstring) :
  c <> LF -> forallb (no_char c) ls = true -> no_char c (join ls [LF]) = true.
Proof.
  intros Hc. induction ls as [|l ls IH]; [reflexivity|].
  cbn [forallb]. intros H. apply andb_true_iff in H as [Hl Hls].
  destruct ls as [|m ls]; [exact Hl|].
  rewrite join_cons by discriminate.
  rewrite !no_char_app, Hl, (IH Hls), (no_char_single c LF Hc). reflexivity.
Qed.

(** A line without hash is neither a title line nor a heading line. *)
Lemma no_hash_plain_line (l : jsstring) :
  no_hash l = true -> is_heading_line l = false /\ is_title_line l = false.
Proof.
  unfold no_hash, no_char, is_heading_line, is_title_line.
  destruct l as [|c l]; [now split|].
  cbn [existsb]. intros H. apply negb_true_iff, orb_false_iff in H as [H _].
  eval_lits. cbn [startsWith]. change (ch "#") with 35%N in H.
  rewrite H. now split.
Qed.

Lemma plain_app (a b : list jsstring) : plain (a ++ b) = plain a && plain b.
Proof. apply forallb_app. Qed.

Lemma blank_ended (ls : list jsstring) :
  forallb blank_line ls = true -> blank_line (ended ls) = true.
Proof.
  induction ls as [|l ls IH]; [reflexivity|].
  cbn [forallb]. intros H. apply andb_true_iff in H as [Hl Hls].
  unfold ended, blank_line in *. cbn [flat_map].
  rewrite !forallb_app, Hl. cbn. now apply IH.
Qed.

Lemma existsb_str_eqb_In (x : jsstring) (ls : list jsstring) :
  existsb (str_eqb x) ls = true -> In x ls.
Proof.
  intros H. apply existsb_exists in H as (y & Hy & E).
  apply str_eqb_eq in E. now subst.
Qed.

(** The text of a body with two priority blocks, as the cut sees it. *)
Lemma two_priorities_text (pre : list jsstring)
  (n1 r1 : jsstring) (ls1 : list jsstring)
  (n2 r2 : jsstring) (ls2 : list jsstring) :
  join (two_priorities pre n1 r1 ls1 n2 r2 ls2) [LF]
  = subheading_doc (lit "Priority") (ended pre)
      [(n1, r1 ++ [LF] ++ ended ls1); (n2, join (r2 :: ls2) [LF])].
Proof.
  unfold two_priorities, subheading_doc.
  rewrite join_ended by discriminate. f_equal.
  rewrite join_cons_app. cbn [flat_map fst snd].
  rewrite join_cons by (destruct ls1; discriminate).
  rewrite join_ended by discriminate. rewrite join_cons_app.
  rewrite app_nil_r, <- !app_assoc. reflexivity.
Qed.

Lemma no_digit_first_app (r t : jsstring) :
  no_digit_first r = true -> no_digit_first (r ++ [LF] ++ t) = true.
Proof. destruct r; [reflexivity|auto]. Qed.

(** The first block: its text is what is left of the heading line, a line
    feed, and its lines, each ended by a line feed. *)
Lemma first_block_lines (r : jsstring) (ls : list jsstring) :
  no_char LF r = true -> plain ls = true ->
  lines_of (r ++ [LF] ++ ended ls) = r :: ls ++ [[]].
Proof.
  intros Hr Hls. unfold lines_of. cbn [app].
  rewrite split_sep by now apply no_char_In.
  f_equal. rewrite <- (app_nil_r (ended ls)). now rewrite split_ended.
Qed.

(** The last block: what is left of the heading line and its lines. *)
Lemma last_block_lines (r : jsstring) (ls : list jsstring) :
  no_char LF r = true -> plain ls = true ->
  lines_of (join (r :: ls) [LF]) = r :: ls.
Proof.
  intros Hr Hls. unfold lines_of. apply split_join; [discriminate|].
  apply plain_Forall. cbn [plain forallb]. now rewrite Hr.
Qed.

Lemma priority_block_ok_parts (n r d : jsstring) (ls : list jsstring) :
  priority_block_ok n r d ls = true ->
  digits n = true /\ no_hash r = true /\ no_digit_first r = true
  /\ neutral r = true
  /\ (no_char (ch ":") d = true /\ no_char ARROW d = true
      /\ no_hash d = true /\ truthy (strip_bold (trim d)) = true)
  /\ forallb no_hash ls = true /\ forallb (block_line d) ls = true
  /\ existsb (str_eqb current_line) ls = true
  /\ existsb (str_eqb (drill_text d)) ls = true.
Proof.
  unfold priority_block_ok, drill_ok. rewrite !andb_true_iff. tauto.
Qed.

(** A block of the claim, once its lines are known: the three fields, and
    the filter keeps it. *)
Lemma priority_block_of_claim (b n r d : jsstring) (ls tail : list jsstring) :
  lines_of b = r :: ls ++ tail ->
  forallb (block_line d) tail = true ->
  priority_block_ok n r d ls = true ->
  Priority.current (priority_block b) = lit "45"
  /\ Priority.target (priority_block b) = lit "60"
  /\ Priority.drill (priority_block b) = strip_bold (trim d)
  /\ priority_kept (priority_block b) = true.
Proof.
  intros HL Ht Hok.
  destruct (priority_block_ok_parts n r d ls Hok)
    as (_ & _ & _ & Nr & (Dc & Da & _ & Dt) & _ & Bl & Ec & Ed).
  destruct (priority_block_fields d Dc Da b) as (C & T & D).
  - rewrite HL. cbn [forallb]. rewrite forallb_app, Bl, Ht.
    unfold block_line. rewrite Nr. now rewrite orb_true_r.
  - rewrite HL. right. apply in_or_app. left.
    now apply existsb_str_eqb_In.
  - rewrite HL. right. apply in_or_app. left.
    now apply existsb_str_eqb_In.
  - repeat split; try assumption.
    unfold priority_kept. rewrite D, Dt. apply orb_true_r.
Qed.


(** * The claims on concrete documents *)

(** The empty text gives [null], not a plan at its defaults. *)
Lemma empty_text_gives_null :
  parseTrainingPlan [] = None
  /\ parseTrainingPlan [] <> Some initial_sections.
Proof. split; [reflexivity|discriminate]. Qed.

Lemma parse_complete_witness :
  exists p, parseTrainingPlan (lit "no heading here") = Some p
    /\ (rawSections p = [] -> p = with_title (title p) initial_sections)
    /\ (forallb not_title (split (lit "no heading here") [LF]) = true ->
        title p = []).
Proof.
  apply (proj1 (proj2 parse_complete) (lit "no heading here")). reflexivity.
Defined.

(** With two title lines the title is the second, not the first. *)
Lemma second_title_line_wins :
  exists p,
    parseTrainingPlan (text_of [lit "# First"; lit "# Second"]) = Some p
    /\ title p = lit "Second" /\ title p <> lit "First".
Proof.
  eexists. split; [reflexivity|]. split; [reflexivity|].
  vm_compute. discriminate.
Qed.

Lemma title_is_last_title_line_witness :
  let text :=
    text_of [lit "# First"; lit "## Notes"; lit "# Second"; lit "kept"] in
  let p := parse_lines (split text [LF]) in
  title p = last_title (split text [LF])
  /\ p = with_title (last_title (split text [LF]))
           (parse_lines (filter not_title (split text [LF]))).
Proof.
  intros text p. apply (title_is_last_title_line text p). reflexivity.
Defined.

(** Two sections under the same heading: the bullets of the first one are
    not in the list. *)
Lemma duplicate_heading_loses_first :
  exists p,
    parseTrainingPlan
      (text_of [lit "## Checkpoints"; lit "- a"; lit "## Checkpoints"; lit "- b"])
    = Some p
    /\ checkpoints p = [lit "b"] /\ checkpoints p <> [lit "a"; lit "b"].
Proof.
  eexists. split; [reflexivity|]. split; [reflexivity|].
  vm_compute. discriminate.
Qed.

(** A section whose heading is empty after the marker is not in the raw
    mapping: its body is lost. *)
Lemma empty_heading_body_lost :
  exists p,
    parseTrainingPlan (text_of [lit "## "; lit "body of a nameless section"])
    = Some p
    /\ rawSections p = [] /\ raw_get (rawSections p) [] = None.
Proof. eexists. split; [reflexivity|]. split; reflexivity. Qed.

Lemma last_section_body_retained_witness :
  exists p,
    parseTrainingPlan
      (text_of (document [lit "intro"]
         ([(lit "Notes", [lit "old"])]
          ++ (lit "Gear list", [lit "skis"; lit "# not a body line"; lit "poles"])
          :: [(lit "Notes", [lit "new"])])))
    = Some p
    /\ raw_get (rawSections p) (trim (lit "Gear list"))
       = Some (body_text [lit "skis"; lit "# not a body line"; lit "poles"]).
Proof.
  apply (last_section_body_retained [lit "intro"]
           [(lit "Notes", [lit "old"])] [(lit "Notes", [lit "new"])]
           (lit "Gear list",
            [lit "skis"; lit "# not a body line"; lit "poles"]));
    reflexivity.
Defined.

(** A day block with neither a name nor a primary focus is discarded after
    the numbers are given: the days returned are numbered 1 and 3. *)
Lemma discarded_day_leaves_a_gap :
  exists p,
    parseTrainingPlan
      (text_of [lit "## Weekly Schedule"; lit "### Day 1: Carving";
                lit "### Day 2:"; lit "### Day 3: Bumps"])
    = Some p
    /\ map Day.dayNum (weeklySchedule p) = [1; 3]
    /\ map Day.dayNum (weeklySchedule p) <> seq 1 (length (weeklySchedule p)).
Proof.
  eexists. split; [reflexivity|]. split; [reflexivity|].
  vm_compute. discriminate.
Qed.

Lemma day_numbers_are_block_positions_witness :
  let s :=
    scanned_sections
      [lit "## Weekly Schedule"; lit "### Day 4: Carving"; lit "### Day 9:";
       lit "### Day 2: Bumps"] in
  let blocks :=
    filter nonblank (re_split (section_body s (lit "Weekly Schedule")) re_day) in
  let days := weeklySchedule (classify s (lit "Weekly Schedule")) in
  (days = filter day_kept (mapi day_block blocks)
   /\ (forall d, In d days ->
         1 <= Day.dayNum d <= length blocks
         /\ d = day_block (nth (Day.dayNum d - 1) blocks [])
                  (Day.dayNum d - 1)
         /\ day_kept d = true)
   /\ StronglySorted lt (map Day.dayNum days)
   /\ (forallb day_kept (mapi day_block blocks) = true ->
       map Day.dayNum days = seq 1 (length blocks))
   /\ (map Day.dayNum days = seq 1 (length days)
       <-> days = firstn (length days) (mapi day_block blocks)))
  /\ re_split
       (subheading_doc (lit "Day") []
          [(lit "4", lit ": Carving" ++ [LF]); (lit "9", lit ":" ++ [LF]);
           (lit "2", lit ": Bumps")])
       re_day
     = [] :: map snd
               [(lit "4", lit ": Carving" ++ [LF]); (lit "9", lit ":" ++ [LF]);
                (lit "2", lit ": Bumps")].
Proof.
  intros s blocks days. split.
  - apply (proj1 day_numbers_are_block_positions s (lit "Weekly Schedule")).
    reflexivity.
  - apply (proj2 day_numbers_are_block_positions); reflexivity.
Defined.

Lemma run_details_come_from_next_header_witness :
  let runs :=
    [(lit "1", lit ": Warm", [LF] ++ lit "- a" ++ [LF]);
     (lit "2-3", lit ": Go", [LF] ++ lit "- b")] in
  let plan := dailyPlanOf (runs_doc [LF] runs) in
  map Run.runs plan = [lit "1"; lit "2-3"]
  /\ map Run.details plan = [[lit "b"]; []].
Proof.
  intros runs plan.
  destruct (proj1 run_details_come_from_next_header [LF] runs eq_refl eq_refl)
    as (R & _ & D).
  split; [exact R|]. exact (D eq_refl).
Defined.

(** * Loops that assign and loops that append *)

(** A loop that assigns a variable at the elements it selects leaves the
    value of the last one selected. *)
Lemma fold_last_wins {S A V : Type} (step : S -> A -> S) (proj : S -> V)
  (sel : A -> bool) (val : A -> V) :
  (forall s a, proj (step s a) = if sel a then val a else proj s) ->
  forall l s,
    proj (fold_left step l s) = last (map val (filter sel l)) (proj s).
Proof.
  intros Hstep l. induction l as [|a l IH]; intros s; [reflexivity|].
  cbn [fold_left filter]. rewrite IH, Hstep.
  destruct (sel a); [|reflexivity].
  cbn [map]. now rewrite last_cons_default.
Qed.

(** A loop that appends to a list at the elements it selects. *)
Lemma fold_appends {S A V : Type} (step : S -> A -> S) (proj : S -> list V)
  (sel : A -> bool) (val : A -> V) :
  (forall s a, proj (step s a) = if sel a then proj s ++ [val a] else proj s) ->
  forall l s,
    proj (fold_left step l s) = proj s ++ map val (filter sel l).
Proof.
  intros Hstep l. induction l as [|a l IH]; intros s.
  - cbn. now rewrite app_nil_r.
  - cbn [fold_left filter]. rewrite IH, Hstep.
    destruct (sel a); [|reflexivity].
    cbn [map]. now rewrite <- app_assoc.
Qed.

(** A loop that leaves a variable alone. *)
Lemma fold_keeps {S A V : Type} (step : S -> A -> S) (proj : S -> V) (v : V) :
  (forall s a, proj s = v -> proj (step s a) = v) ->
  forall l s, proj s = v -> proj (fold_left step l s) = v.
Proof.
  intros Hstep l. induction l as [|a l IH]; intros s H; [exact H|].
  cbn [fold_left]. apply IH, Hstep, H.
Qed.

(** * Patterns of one character class *)

Lemma replace_go_cons (re : RegExp) (rep : jsstring) (pos : nat) (c : char)
  (t : jsstring) :
  replace_go re rep pos (c :: t) 0
  = match match_at re pos (c :: t) with
    | Some st =>
        match m_pos st - pos with
        | O => rep ++ c :: replace_go re rep (S pos) t 0
        | S n => rep ++ replace_go re rep (S pos) t n
        end
    | None => c :: replace_go re rep (S pos) t 0
    end.
Proof. reflexivity. Qed.

Lemma replace_go_class (ic : bool) (q : char -> bool) (rep s : jsstring)
  (pos : nat) :
  replace_go (Re ic (Cls q)) rep pos s 0
  = flat_map (fun c => if q c then rep else [c]) s.
Proof.
  revert pos; induction s as [|c s IH]; intros pos; [reflexivity|].
  rewrite replace_go_cons. unfold match_at.
  cbn [re_icase re_body rmatch m_rest m_pos m_caps flat_map].
  destruct (q c).
  - cbn [m_pos]. replace (S pos - pos) with 1 by lia.
    f_equal. apply IH.
  - cbn [app]. f_equal. apply IH.
Qed.

Lemma flat_map_filter (q : char -> bool) (s : jsstring) :
  flat_map (fun c => if q c then [] else [c]) s
  = filter (fun c => negb (q c)) s.
Proof.
  induction s as [|c s IH]; [reflexivity|].
  cbn [flat_map filter]. destruct (q c); cbn; now rewrite IH.
Qed.

(** A lazy run over a text at which the continuation refuses to start goes
    on after the text. *)
Lemma star_lazy_run (p : char -> bool) (k : cont)
  (caps : list (nat * jsstring)) (a b : jsstring) (pos : nat) :
  forallb p a = true ->
  (forall c t n, In c a -> k (MState n (c :: t) caps) = None) ->
  star_lazy p k caps pos (a ++ b) = star_lazy p k caps (length a + pos) b.
Proof.
  revert pos; induction a as [|c a IH]; intros pos Hp Hk; [reflexivity|].
  cbn [forallb] in Hp. apply andb_true_iff in Hp as [Hc Ha].
  cbn [app star_lazy]. rewrite (Hk c (a ++ b) pos (or_introl eq_refl)), Hc.
  rewrite IH; [|exact Ha|intros x t n Hx; apply Hk; now right].
  f_equal. cbn [length]. lia.
Qed.

(** A match at the position where the search starts is the one found. *)
Lemma search_here (re : RegExp) (pos : nat) (s : jsstring) (st : mstate) :
  match_at re pos s = Some st -> search re pos s = Some (pos, st).
Proof. intros H. destruct s; cbn [search]; now rewrite H. Qed.

(** * What every plan satisfies *)

Lemma forallb_filter_self {A : Type} (f : A -> bool) (l : list A) :
  forallb f (filter f l) = true.
Proof.
  induction l as [|x l IH]; [reflexivity|].
  cbn [filter]. destruct (f x) eqn:E; [|exact IH].
  cbn [forallb]. now rewrite E.
Qed.

(** A property of the plan that every turn of the classification keeps
    holds after all of them. *)
Lemma classify_fold_invariant (P : Sections -> Prop) :
  (forall s k, P s -> P (classify s k)) ->
  forall keys s, P s -> P (fold_left classify keys s).
Proof.
  intros step keys. induction keys as [|k keys IH]; intros s H; [exact H|].
  cbn [fold_left]. apply IH, step, H.
Qed.

Lemma classify_entries_kept (s : Sections) (k : jsstring) :
  entries_kept s -> entries_kept (classify s k).
Proof.
  unfold entries_kept. intros (H1 & H2 & H3 & H4 & H5).
  cbn [classify immediateFocus weekPlan drills weeklySchedule sessionPlan].
  repeat split.
  - destruct (is_immediate_focus (toLowerCase k)); [|exact H1].
    apply forallb_filter_self.
  - destruct (is_week_plan (toLowerCase k)); [|exact H2].
    apply forallb_filter_self.
  - destruct (is_drills (toLowerCase k)); [|exact H3].
    apply forallb_filter_self.
  - destruct (is_weekly_schedule (toLowerCase k)); [|exact H4].
    apply forallb_filter_self.
  - destruct (is_session_plan (toLowerCase k)); [|exact H5].
    apply forallb_filter_self.
Qed.

(** X2.  No entry of a plan is an empty one: whatever the text, a detail of
    the immediate focus is not empty and does not start with a hash, a
    priority has a name or a drill, a drill a name or an execution, a day a
    name or a primary focus, and a session entry an activity. *)
Theorem plan_entries_are_kept (text : jsstring) (p : Sections) :
  parseTrainingPlan text = Some p -> entries_kept p.
Proof.
  intros H. apply parse_some in H. subst p. unfold parse_lines.
  apply classify_fold_invariant; [exact classify_entries_kept|].
  repeat split.
Qed.

Lemma plan_entries_are_kept_witness :
  entries_kept
    (parse_lines
       [lit "## Immediate Focus"; lit "- "; lit "# title"; lit "- Hips forward";
        lit "## Session Plan"; lit "**"; lit "**Run 1**: Warm up"]).
Proof.
  apply (plan_entries_are_kept
           (text_of [lit "## Immediate Focus"; lit "- "; lit "# title";
                     lit "- Hips forward"; lit "## Session Plan"; lit "**";
                     lit "**Run 1**: Warm up"])).
  reflexivity.
Defined.

Lemma classify_focus_drill (s : Sections) (k : jsstring) :
  ImmediateFocus.drill (immediateFocus s) = [] ->
  ImmediateFocus.drill (immediateFocus (classify s k)) = [].
Proof.
  intros H. cbn [classify immediateFocus].
  destruct (is_immediate_focus (toLowerCase k)); exact H.
Qed.

(** X3.  The drill of the immediate focus is never filled in: the object is
    created with an empty drill, and the branch of the immediate focus assigns
    the cue and the details only. *)
Theorem immediate_focus_drill_stays_empty (text : jsstring) (p : Sections) :
  parseTrainingPlan text = Some p ->
  ImmediateFocus.drill (immediateFocus p) = [].
Proof.
  intros H. apply parse_some in H. subst p. unfold parse_lines.
  apply (classify_fold_invariant
           (fun s => ImmediateFocus.drill (immediateFocus s) = []));
    [exact classify_focus_drill|reflexivity].
Qed.

Lemma immediate_focus_drill_stays_empty_witness :
  ImmediateFocus.drill
    (immediateFocus
       (parse_lines [lit "## Immediate Focus"; lit "Drill: Railroad tracks";
                     lit "Mental cue: Hips forward"]))
  = [].
Proof.
  apply (immediate_focus_drill_stays_empty
           (text_of [lit "## Immediate Focus"; lit "Drill: Railroad tracks";
                     lit "Mental cue: Hips forward"])).
  reflexivity.
Defined.

(** * The bold marker *)

Lemma match_at_bold (pos : nat) (c : char) (t : jsstring) :
  match_at re_bold pos (c :: t)
  = if N.eqb 42 c then
      match t with
      | d :: u => if N.eqb 42 d then Some (MState (S (S pos)) u []) else None
      | [] => None
      end
    else None.
Proof. destruct t; reflexivity. Qed.

Lemma unbold_cons (c d : char) (u : jsstring) :
  unbold (c :: d :: u)
  = if N.eqb 42 c && N.eqb 42 d then unbold u else c :: unbold (d :: u).
Proof. reflexivity. Qed.

Lemma replace_go_bold (s : jsstring) :
  (forall pos, replace_go re_bold [] pos s 0 = unbold s)
  /\ (forall pos c, replace_go re_bold [] pos (c :: s) 0 = unbold (c :: s)).
Proof.
  induction s as [|d u [IH1 IH2]].
  - split; [reflexivity|]. intros pos c.
    rewrite replace_go_cons, match_at_bold.
    destruct (N.eqb 42 c); reflexivity.
  - split; [intros pos; apply IH2|]. intros pos c.
    rewrite replace_go_cons, match_at_bold, unbold_cons.
    destruct (N.eqb 42 c); cbn [andb]; [|f_equal; apply IH2].
    destruct (N.eqb 42 d); [|f_equal; apply IH2].
    cbn [m_pos]. replace (S (S pos) - pos) with 2 by lia.
    cbn [app]. change (replace_go re_bold [] (S pos) (d :: u) 1)
      with (replace_go re_bold [] (S (S pos)) u 0). apply IH1.
Qed.

(** Removing the bold markers reads the text once, from the left. *)
Lemma strip_bold_unbold (s : jsstring) : strip_bold s = unbold s.
Proof. apply (proj1 (replace_go_bold s)). Qed.

Lemma unbold_first (d : char) (u : jsstring) :
  N.eqb 42 d = false -> exists v, unbold (d :: u) = d :: v.
Proof.
  intros D. destruct u as [|e v]; [now exists []|].
  rewrite unbold_cons, D. now eexists.
Qed.

Lemma unbold_no_bold (s : jsstring) :
  no_bold (unbold s) = true /\ forall c, no_bold (unbold (c :: s)) = true.
Proof.
  unfold no_bold. change (lit "**") with [42%N; 42%N].
  induction s as [|d u [IH1 IH2]].
  - split; [reflexivity|]. intros c. cbn. now rewrite !andb_false_r.
  - split; [apply IH2|]. intros c. rewrite unbold_cons.
    destruct (N.eqb 42 c) eqn:C; cbn [andb].
    + destruct (N.eqb 42 d) eqn:D; [exact IH1|].
      cbn [includes]. rewrite (proj1 (negb_true_iff _) (IH2 d)).
      rewrite orb_false_r. destruct (unbold_first d u D) as (v & ->).
      cbn [startsWith]. now rewrite C, D.
    + cbn [includes startsWith]. rewrite C. cbn [andb orb]. exact (IH2 d).
Qed.

Lemma strip_bold_no_bold (s : jsstring) : no_bold (strip_bold s) = true.
Proof. rewrite strip_bold_unbold. apply unbold_no_bold. Qed.

(** ** Parts of a text *)

Lemma startsWith_app_l (s p t : jsstring) :
  startsWith s p = true -> startsWith (s ++ t) p = true.
Proof.
  revert s; induction p as [|x p IH]; intros s H; [reflexivity|].
  destruct s as [|y s]; [discriminate|].
  cbn [startsWith app] in *. apply andb_true_iff in H as [H1 H2].
  rewrite H1. now apply IH.
Qed.

Lemma includes_app_l (a b p : jsstring) :
  includes a p = true -> includes (a ++ b) p = true.
Proof.
  induction a as [|x a IH].
  - destruct p; [intros _; destruct b; reflexivity|discriminate].
  - cbn [includes app]. intros H. apply orb_true_iff in H as [H|H].
    + pose proof (startsWith_app_l (x :: a) p b H) as H'.
      cbn [app] in H'. now rewrite H'.
    + rewrite (IH H). apply orb_true_r.
Qed.

Lemma includes_app_r (a b p : jsstring) :
  includes b p = true -> includes (a ++ b) p = true.
Proof.
  intros H. induction a as [|x a IH]; [exact H|].
  cbn [includes app]. rewrite IH. apply orb_true_r.
Qed.

Lemma trimStart_suffix (s : jsstring) : exists a, s = a ++ trimStart s.
Proof.
  induction s as [|c s (a & IH)]; [now exists []|].
  cbn [trimStart]. destruct (is_space c); [|now exists []].
  exists (c :: a). cbn. now f_equal.
Qed.

Lemma trim_part (s : jsstring) : exists a b, s = a ++ trim s ++ b.
Proof.
  destruct (trimStart_suffix s) as (a & Ha).
  destruct (trimStart_suffix (rev (trimStart s))) as (b & Hb).
  exists a, (rev b). unfold trim, trimEnd.
  rewrite <- rev_app_distr, <- Hb, rev_involutive. exact Ha.
Qed.

Lemma no_bold_trim (s : jsstring) : no_bold s = true -> no_bold (trim s) = true.
Proof.
  unfold no_bold. rewrite !negb_true_iff. intros H.
  destruct (trim_part s) as (a & b & E).
  destruct (includes (trim s) (lit "**")) eqn:I; [|reflexivity].
  rewrite E in H. rewrite includes_app_r in H; [discriminate|].
  now apply includes_app_l.
Qed.

(** ** The values stripped of the marker *)

Lemma session_entry_no_bold (l : jsstring) :
  no_bold (Session.activity (session_entry l)) = true.
Proof.
  unfold session_entry.
  destruct (re_match l re_session_bold) as [[m caps]|].
  - apply strip_bold_no_bold.
  - destruct (re_match l re_session_plain) as [[m caps]|].
    + apply strip_bold_no_bold.
    + apply no_bold_trim, strip_bold_no_bold.
Qed.

Lemma priority_line_no_bold (p : Priority.t) (line : jsstring) :
  no_bold (Priority.drill p) = true /\ no_bold (Priority.terrain p) = true ->
  no_bold (Priority.drill (priority_line p line)) = true
  /\ no_bold (Priority.terrain (priority_line p line)) = true.
Proof.
  intros [Hd Ht]. unfold priority_line.
  destruct (includes line (lit "Current:") && includes line [ARROW]);
    [destruct (re_match line re_current) as [[m caps]|]|];
    destruct (includes line (lit ":"));
    cbn [Priority.drill Priority.terrain]; split;
    try assumption;
    match goal with
    | |- context [if ?c then _ else _] => destruct c
    end; try assumption; apply strip_bold_no_bold.
Qed.

Lemma priority_block_no_bold (block : jsstring) :
  no_bold (Priority.drill (priority_block block)) = true
  /\ no_bold (Priority.terrain (priority_block block)) = true.
Proof.
  unfold priority_block.
  set (lines := filter nonblank (lines_of block)).
  assert (H : no_bold (Priority.drill (fold_left priority_line lines
                                         Priority.empty)) = true
              /\ no_bold (Priority.terrain (fold_left priority_line lines
                                              Priority.empty)) = true).
  { generalize Priority.empty, (conj (eq_refl true) (eq_refl true)
      : no_bold (Priority.drill Priority.empty) = true
        /\ no_bold (Priority.terrain Priority.empty) = true).
    induction lines as [|l lines IH]; intros p Hp; [exact Hp|].
    cbn [fold_left]. apply IH. now apply priority_line_no_bold. }
  destruct lines as [|l0 lines']; [exact H|].
  match goal with
  | |- context [if ?c then _ else _] => destruct c
  end; exact H.
Qed.

Lemma classify_stripped_values (s : Sections) (k : jsstring) :
  stripped_values s -> stripped_values (classify s k).
Proof.
  intros [Hs Hw]. unfold stripped_values.
  cbn [classify sessionPlan weekPlan]. split.
  - destruct (is_session_plan (toLowerCase k)); [|exact Hs].
    intros e He. unfold sessionPlanOf in He.
    apply filter_In in He as [He _]. apply in_map_iff in He as (l & <- & _).
    apply session_entry_no_bold.
  - destruct (is_week_plan (toLowerCase k)); [|exact Hw].
    intros q Hq. unfold weekPlanOf in Hq.
    apply filter_In in Hq as [Hq _]. apply in_map_iff in Hq as (b & <- & _).
    apply priority_block_no_bold.
Qed.

(** X11.  Where the parser removes the bold markers none is left: whatever the
    text, the activity of a session entry and the drill and the terrain of a
    priority hold no two stars in a row. *)
Theorem stripped_values_hold_no_bold_marker (text : jsstring) (p : Sections) :
  parseTrainingPlan text = Some p -> stripped_values p.
Proof.
  intros H. apply parse_some in H. subst p. unfold parse_lines.
  apply classify_fold_invariant; [exact classify_stripped_values|].
  split; intros x [].
Qed.

Lemma stripped_values_hold_no_bold_marker_witness :
  stripped_values
    (parse_lines
       [lit "## Session Plan"; lit "**Run 1-2**: ***Warm*** up";
        lit "## Priorities"; lit "### Priority 1: Edging";
        lit "**Drill**: ****Railroad**** tracks"]).
Proof.
  apply (stripped_values_hold_no_bold_marker
           (text_of
              [lit "## Session Plan"; lit "**Run 1-2**: ***Warm*** up";
               lit "## Priorities"; lit "### Priority 1: Edging";
               lit "**Drill**: ****Railroad**** tracks"])).
  reflexivity.
Defined.

(** * Headings that two predicates select *)

Lemma startsWith_prefix_of (s a b : jsstring) :
  startsWith s (a ++ b) = true -> startsWith s a = true.
Proof.
  revert s; induction a as [|x a IH]; intros s H; [reflexivity|].
  destruct s as [|y s]; [discriminate|].
  cbn [startsWith app] in *. apply andb_true_iff in H as [H1 H2].
  rewrite H1. now apply IH.
Qed.

Lemma startsWith_includes (s p : jsstring) :
  startsWith s p = true -> includes s p = true.
Proof. intros H. destruct s; cbn [includes]; now rewrite H. Qed.

Lemma startsWith_suffix_of (s a b : jsstring) :
  startsWith s (a ++ b) = true -> includes s b = true.
Proof.
  revert s; induction a as [|x a IH]; intros s H.
  - now apply startsWith_includes.
  - destruct s as [|y s]; [discriminate|].
    cbn [startsWith app] in H. apply andb_true_iff in H as [_ H].
    cbn [includes]. rewrite (IH s H). apply orb_true_r.
Qed.

(** A text that contains a needle contains the start of the needle. *)
Lemma includes_prefix_of (s a b : jsstring) :
  includes s (a ++ b) = true -> includes s a = true.
Proof.
  induction s as [|y s IH]; cbn [includes]; intros H;
    apply orb_true_iff in H as [H|H]; try discriminate.
  - now rewrite (startsWith_prefix_of _ _ _ H).
  - now rewrite (startsWith_prefix_of _ _ _ H).
  - rewrite (IH H). apply orb_true_r.
Qed.

(** And the end of the needle. *)
Lemma includes_suffix_of (s a b : jsstring) :
  includes s (a ++ b) = true -> includes s b = true.
Proof.
  induction s as [|y s IH]; intros H.
  - cbn [includes] in H. rewrite orb_false_r in H.
    now apply (startsWith_suffix_of [] a b).
  - cbn [includes] in H. apply orb_true_iff in H as [H|H].
    + now apply (startsWith_suffix_of (y :: s) a b).
    + cbn [includes]. rewrite (IH H). apply orb_true_r.
Qed.

Lemma progression_is_progress (k : jsstring) :
  includes k (lit "progression") = true ->
  is_progression k = true /\ is_checkpoints k = true.
Proof.
  intros H. unfold is_progression, is_checkpoints. rewrite H. split.
  - reflexivity.
  - rewrite (includes_prefix_of k (lit "progress") (lit "ion") H).
    apply orb_true_r.
Qed.

Lemma daily_session_plan_is_session_plan (k : jsstring) :
  includes k (lit "daily session plan") = true ->
  is_daily_plan k = true /\ is_session_plan k = true.
Proof.
  intros H. unfold is_daily_plan, is_session_plan. rewrite H. split.
  - reflexivity.
  - now rewrite (includes_suffix_of k (lit "daily ") (lit "session plan") H).
Qed.

(** X4.  The predicates on the heading overlap by their needles.
    [progression] contains [progress], so a section that the predicate of the
    progression selects by that word is read as the checkpoints too;  [daily
    session plan] contains [session plan], so a section selected as the daily
    plan by these words is read as the session plan too; and the second needle
    of the drills contains the first, so it selects nothing more.  In a
    document with the single section [4-Week Progression] the progression and
    the checkpoints are both read from its body. *)
Theorem headings_selected_twice :
  (forall k, includes k (lit "progression") = true ->
             is_progression k = true /\ is_checkpoints k = true)
  /\ (forall k, includes k (lit "daily session plan") = true ->
                is_daily_plan k = true /\ is_session_plan k = true)
  /\ (forall k, is_drills k = includes k (lit "3 key drills"))
  /\ forall (before : list jsstring) (h : jsstring) (body : list jsstring),
       plain (document before [(h, body)]) = true ->
       no_heading before = true -> no_heading body = true ->
       includes (toLowerCase (trim h)) (lit "progression") = true ->
       exists p,
         parseTrainingPlan (text_of (document before [(h, body)])) = Some p
         /\ progression p = progressionOf (body_text body) Progression.empty
         /\ checkpoints p = bullets (body_text body).
Proof.
  split; [exact progression_is_progress|].
  split; [exact daily_session_plan_is_session_plan|]. split.
  - intros k. unfold is_drills.
    destruct (includes k (lit "your 3 key drills")) eqn:E;
      [|apply orb_false_r].
    rewrite (includes_suffix_of k (lit "your ") (lit "3 key drills") E).
    reflexivity.
  - intros before h body Hp Hb Hbody H.
    destruct (progression_is_progress _ H) as [H1 H2].
    destruct (single_section_plan before h body FProgression Hp Hb Hbody H1)
      as (p & P & _ & F).
    exists p. split; [exact P|]. split.
    + exact (F FProgression H1).
    + exact (F FCheckpoints H2).
Qed.

Lemma headings_selected_twice_witness :
  let body := [lit "### Week 1-2"; lit "- Hold the edge"; lit "### Week 3-4";
               lit "- Add speed"] in
  exists p,
    parseTrainingPlan
      (text_of (document [lit "# Plan"] [(lit "4-Week Progression", body)]))
    = Some p
    /\ progression p = progressionOf (body_text body) Progression.empty
    /\ checkpoints p = bullets (body_text body).
Proof.
  intros body.
  apply (proj2 (proj2 (proj2 headings_selected_twice)) [lit "# Plan"]
           (lit "4-Week Progression") body); reflexivity.
Defined.

(** * Lists of bullets *)

Lemma trimStart_app_spaces (a b : jsstring) :
  forallb is_space a = true -> trimStart (a ++ b) = trimStart b.
Proof.
  induction a as [|c a IH]; [reflexivity|].
  cbn [forallb app trimStart]. intros H. apply andb_true_iff in H as [Hc Ha].
  rewrite Hc. auto.
Qed.

Lemma trimStart_app_text (s w : jsstring) :
  trimStart s <> [] -> trimStart (s ++ w) = trimStart s ++ w.
Proof.
  induction s as [|c s IH]; cbn [trimStart app]; [congruence|].
  destruct (is_space c); [exact IH|reflexivity].
Qed.

(** White space at the end of a text does not survive [trim]. *)
Lemma trim_app_spaces (s w : jsstring) :
  forallb is_space w = true -> trim (s ++ w) = trim s.
Proof.
  intros Hw. unfold trim.
  destruct (trimStart s) as [|c t] eqn:E.
  - apply trimStart_nil in E.
    rewrite trimStart_spaces; [reflexivity|].
    rewrite forallb_app, E, Hw. reflexivity.
  - rewrite trimStart_app_text by congruence. rewrite E.
    unfold trimEnd. rewrite rev_app_distr.
    rewrite trimStart_app_spaces; [reflexivity|now rewrite forallb_rev].
Qed.

Lemma is_bullet_dash (t : jsstring) : is_bullet (ch "-" :: t) = true.
Proof.
  unfold is_bullet.
  destruct (trim_keeps_first (ch "-") t eq_refl) as (u & ->). reflexivity.
Qed.

Lemma bullets_text_of (ls : list jsstring) :
  ls <> [] -> plain ls = true ->
  bullets (text_of ls) = map strip_bullet (filter is_bullet ls).
Proof.
  intros Hn Hp. unfold bullets, lines_of, text_of.
  rewrite split_join; [reflexivity|exact Hn|now apply plain_Forall].
Qed.

(** X5.  A list written one item a line, each line starting with the dash, is
    read back item by item, each item trimmed. *)
Theorem bullets_of_a_dashed_list (items : list jsstring) :
  plain items = true ->
  bullets (text_of (map (fun x => ch "-" :: x) items)) = map trim items.
Proof.
  intros Hp. destruct items as [|x items]; [reflexivity|].
  rewrite bullets_text_of; [|discriminate|].
  - rewrite filter_all.
    + rewrite map_map. apply map_ext. intros y. apply strip_bullet_flush.
    + apply forallb_forall. intros l Hl.
      apply in_map_iff in Hl as (y & <- & _). apply is_bullet_dash.
  - unfold plain in *. apply forallb_forall. intros l Hl.
    apply in_map_iff in Hl as (y & <- & Hy).
    rewrite forallb_forall in Hp. specialize (Hp y Hy).
    change (ch "-" :: y) with ([ch "-"] ++ y). rewrite no_char_app, Hp.
    reflexivity.
Qed.

Lemma bullets_of_a_dashed_list_witness :
  bullets
    (text_of (map (fun x => ch "-" :: x)
                [lit " Hips forward "; lit "Edge early"; lit "  - nested"]))
  = map trim [lit " Hips forward "; lit "Edge early"; lit "  - nested"].
Proof.
  apply (bullets_of_a_dashed_list
           [lit " Hips forward "; lit "Edge early"; lit "  - nested"]).
  reflexivity.
Defined.

Lemma is_bullet_app_spaces (l w : jsstring) :
  forallb is_space w = true -> is_bullet (l ++ w) = is_bullet l.
Proof. intros H. unfold is_bullet. now rewrite trim_app_spaces. Qed.

Lemma strip_bullet_app_spaces (l w : jsstring) :
  forallb is_space w = true -> strip_bullet (l ++ w) = strip_bullet l.
Proof.
  intros Hw. destruct l as [|c l].
  - cbn [app]. rewrite !strip_bullet_other.
    + apply (trim_app_spaces [] w Hw).
    + reflexivity.
    + destruct w as [|x w]; [reflexivity|].
      cbn [forallb] in Hw. apply andb_true_iff in Hw as [Hx _].
      change (lit "-") with [ch "-"]. cbn [startsWith].
      destruct (N.eqb (ch "-") x) eqn:E; [|reflexivity].
      apply N.eqb_eq in E. subst x. discriminate.
  - destruct (N.eqb (ch "-") c) eqn:E.
    + apply N.eqb_eq in E. subst c. cbn [app].
      rewrite !strip_bullet_flush. now apply trim_app_spaces.
    + rewrite !strip_bullet_other.
      * now apply trim_app_spaces.
      * change (lit "-") with [ch "-"]. cbn [startsWith]. now rewrite E.
      * change (lit "-") with [ch "-"]. cbn [app startsWith]. now rewrite E.
Qed.

(** X6.  White space at the end of the lines, such as the carriage return of a
    text with Windows line ends, changes nothing to the bullets read. *)
Theorem bullets_ignore_line_ends (ls : list jsstring) (w : jsstring) :
  plain ls = true -> forallb is_space w = true -> no_char LF w = true ->
  bullets (text_of (map (fun l => l ++ w) ls)) = bullets (text_of ls).
Proof.
  intros Hp Hw Hl. destruct ls as [|l0 ls]; [reflexivity|].
  rewrite !bullets_text_of; try discriminate; try assumption.
  - generalize (l0 :: ls). intros L.
    induction L as [|l L IH]; [reflexivity|].
    cbn [map filter]. rewrite is_bullet_app_spaces by assumption.
    destruct (is_bullet l); [|exact IH].
    cbn [map]. rewrite strip_bullet_app_spaces by assumption. now f_equal.
  - unfold plain in *. apply forallb_forall. intros l Hin.
    apply in_map_iff in Hin as (y & <- & Hy).
    rewrite forallb_forall in Hp. rewrite no_char_app, (Hp y Hy), Hl.
    reflexivity.
Qed.

Lemma bullets_ignore_line_ends_witness :
  bullets (text_of (map (fun l => l ++ [13%N])
                      [lit "- one"; lit "note"; lit "  - two"; lit "-"]))
  = bullets (text_of [lit "- one"; lit "note"; lit "  - two"; lit "-"]).
Proof.
  apply (bullets_ignore_line_ends
           [lit "- one"; lit "note"; lit "  - two"; lit "-"] [13%N]);
    reflexivity.
Defined.

(** * Where the raw mapping comes from *)

Lemma raw_put_keys (raw : list (jsstring * jsstring)) (key v k : jsstring) :
  In k (map fst (raw_put raw key v)) -> In k (map fst raw) \/ k = key.
Proof.
  induction raw as [|[k0 x] raw IH]; cbn [raw_put map fst In].
  - intros [<-|[]]. now right.
  - destruct (str_eqb k0 key); cbn [map fst In].
    + intros [<-|H]; [left; now left|left; now right].
    + intros [<-|H]; [left; now left|].
      destruct (IH H) as [H'|H']; [left; now right|now right].
Qed.

Lemma raw_put_NoDup (raw : list (jsstring * jsstring)) (key v : jsstring) :
  NoDup (map fst raw) -> NoDup (map fst (raw_put raw key v)).
Proof.
  induction raw as [|[k0 x] raw IH]; cbn [raw_put map fst]; intros H.
  - constructor; [intros []|constructor].
  - inversion H as [|? ? Hk Hr]; subst.
    destruct (str_eqb k0 key) eqn:E; cbn [map fst]; [exact H|].
    constructor; [|now apply IH].
    intros Hin. apply raw_put_keys in Hin as [Hin| ->]; [contradiction|].
    now rewrite str_eqb_refl in E.
Qed.

Lemma raw_put_Forall (P : jsstring * jsstring -> Prop)
  (raw : list (jsstring * jsstring)) (key v : jsstring) :
  Forall P raw -> P (key, v) -> Forall P (raw_put raw key v).
Proof.
  intros H Hk. induction raw as [|[k0 x] raw IH]; cbn [raw_put].
  - now constructor.
  - inversion H as [|? ? H0 Hr]; subst.
    destruct (str_eqb k0 key) eqn:E.
    + apply str_eqb_eq in E. subst k0. now constructor.
    + constructor; [exact H0|now apply IH].
Qed.

(** Saving the current section keeps the raw mapping made of entries that
    come from the lines, one a key. *)
Lemma save_section_scan_of (ls : list jsstring) (st : scan) :
  scan_of ls st ->
  NoDup (map fst (save_section st))
  /\ Forall (raw_entry_of ls) (save_section st).
Proof.
  intros (N & F & S & C). unfold save_section, raw_set.
  destruct (truthy (currentSection st)) eqn:T; [|now split].
  destruct (str_eqb (currentSection st) (lit "__proto__")) eqn:E; [now split|].
  split; [now apply raw_put_NoDup|].
  apply raw_put_Forall; [exact F|].
  unfold raw_entry_of. cbn [fst snd]. split; [exact T|]. split.
  - intros E'. rewrite E', str_eqb_refl in E. discriminate.
  - split.
    + destruct S as [S|S]; [rewrite S in T; discriminate|exact S].
    + now exists (currentContent st).
Qed.

Lemma scan_line_scan_of (ls : list jsstring) (st : scan) (l : jsstring) :
  In l ls -> scan_of ls st -> scan_of ls (scan_line st l).
Proof.
  intros Hl H. destruct (is_title_line l) eqn:T.
  - rewrite scan_line_title by exact T. exact H.
  - destruct (is_heading_line l) eqn:Hh.
    + destruct (save_section_scan_of ls st H) as [N F].
      unfold scan_line. fold (is_title_line l) (is_heading_line l).
      rewrite T, Hh. rewrite replace_str_prefix by exact Hh.
      unfold scan_of. cbn [sc_raw currentSection currentContent].
      split; [exact N|]. split; [exact F|]. split.
      * right. exists l. repeat split; assumption.
      * intros x [].
    + rewrite scan_line_other by assumption.
      destruct H as (N & F & S & C).
      unfold scan_of. cbn [sc_raw currentSection currentContent].
      split; [exact N|]. split; [exact F|]. split; [exact S|].
      intros x Hx. apply in_app_or in Hx as [Hx|[<-|[]]]; [now apply C|].
      repeat split; assumption.
Qed.

Lemma scan_lines_scan_of (ls : list jsstring) :
  scan_of ls (scan_lines ls).
Proof.
  unfold scan_lines.
  assert (G : forall done st, incl done ls -> scan_of ls st ->
                scan_of ls (fold_left scan_line done st)).
  { induction done as [|l done IH]; intros st Hi H; [exact H|].
    cbn [fold_left]. apply IH.
    - intros x Hx. apply Hi. now right.
    - apply scan_line_scan_of; [apply Hi; now left|exact H]. }
  apply G; [apply incl_refl|].
  unfold scan_of, scan_start. cbn. split; [constructor|].
  split; [constructor|]. split; [now left|intros l []].
Qed.

(** X1.  The raw mapping never holds anything that is not in the text.  Its
    keys are all different; each is the trimmed text of a heading line of the
    text, not empty and not [__proto__]; and each body is made of lines of the
    text that are neither title nor heading lines, joined by line feeds. *)
Theorem raw_sections_come_from_the_text (text : jsstring) (p : Sections) :
  parseTrainingPlan text = Some p ->
  NoDup (map fst (rawSections p))
  /\ Forall (raw_entry_of (split text [LF])) (rawSections p).
Proof.
  intros H. apply parse_some in H. subst p. unfold parse_lines.
  rewrite classify_fold_raw. unfold scanned_sections. cbn [rawSections].
  apply save_section_scan_of, scan_lines_scan_of.
Qed.

Lemma raw_sections_come_from_the_text_witness :
  let text :=
    text_of [lit "intro"; lit "## Notes"; lit "a"; lit "# T"; lit "##  ";
             lit "lost"; lit "## __proto__"; lit "## Notes "; lit "b"] in
  NoDup (map fst (rawSections (parse_lines (split text [LF]))))
  /\ Forall (raw_entry_of (split text [LF]))
       (rawSections (parse_lines (split text [LF]))).
Proof.
  intros text. apply (raw_sections_come_from_the_text text). reflexivity.
Defined.

(** * The cue of the immediate focus *)

Lemma includes_first_In (l p : jsstring) (c : char) :
  includes l (c :: p) = true -> In c l.
Proof.
  induction l as [|x l IH]; [discriminate|].
  cbn [includes startsWith]. intros H. apply orb_true_iff in H as [H|H].
  - apply andb_true_iff in H as [H _]. apply N.eqb_eq in H. now left.
  - right. destruct l; [discriminate|]. now apply IH.
Qed.

(** A cue line is not blank. *)
Lemma cue_line_nonblank (l : jsstring) :
  is_cue_line l = true -> nonblank l = true.
Proof.
  unfold is_cue_line. eval_lits. intros H.
  apply orb_true_iff in H as [H|H]; [apply orb_true_iff in H as [H|H]|];
    apply includes_first_In in H;
    now apply (nonblank_In l _ H).
Qed.

Lemma filter_cue_nonblank (ls : list jsstring) :
  filter is_cue_line (filter nonblank ls) = filter is_cue_line ls.
Proof.
  induction ls as [|l ls IH]; [reflexivity|].
  cbn [filter]. destruct (nonblank l) eqn:N.
  - cbn [filter]. now rewrite IH.
  - destruct (is_cue_line l) eqn:C; [|exact IH].
    apply cue_line_nonblank in C. congruence.
Qed.

(** X7.  The cue of the immediate focus is the cue of the last cue line of the
    section.  A section without a cue line leaves the cue as it was, so the
    cue of an earlier section stays, while the details are replaced by those
    of the section whatever they were: in the document below the cue comes
    from the first section and the details from the second. *)
Theorem cue_is_the_last_cue_line :
  (forall (content : jsstring) (old : ImmediateFocus.t),
     let f := immediateFocusOf content old in
     ImmediateFocus.cue f
     = last (map cue_of (filter is_cue_line (lines_of content)))
         (ImmediateFocus.cue old)
     /\ ImmediateFocus.details f
        = filter detail_kept
            (map strip_label (filter nonblank (lines_of content))))
  /\ option_map immediateFocus
       (parseTrainingPlan
          (text_of [lit "## Immediate Focus"; lit "- Mental cue: Hips forward";
                    lit "## Immediate Focus Drill"; lit "- Railroad tracks"]))
     = Some (ImmediateFocus.Build [] (lit "Hips forward")
               [lit "Railroad tracks"]).
Proof.
  split; [|vm_compute; reflexivity].
  intros content old f. unfold f, immediateFocusOf.
  cbn [ImmediateFocus.cue ImmediateFocus.details]. split; [|reflexivity].
  rewrite <- filter_cue_nonblank.
  apply (fold_last_wins (fun c l => if is_cue_line l then cue_of l else c)
           (fun c => c) is_cue_line cue_of).
  reflexivity.
Qed.

(** ** The text of a cue *)

Lemma match_cue_label (label rest : jsstring) :
  cue_label label = true ->
  exists n,
    match_at re_cue 0 (label ++ lit ":" ++ rest)
    = Some (MState n (trimStart rest) []).
Proof.
  unfold cue_label. intros H.
  apply andb_true_iff in H as [H Hq]. apply andb_true_iff in H as [Hd Hc].
  unfold match_at, re_cue. cbn [re_icase re_body Seqs rmatch m_caps m_pos m_rest].
  rewrite star_lazy_run; [|exact Hd|].
  - change (lit ":" ++ rest) with (ch ":" :: rest).
    cbn [star_lazy rmatch m_rest m_pos m_caps].
    change (is_ch ":" (ch ":") || N.eqb (ch ":") QUOTE) with true.
    cbn iota.
    destruct (star_greedy_spaces rest (S (length label + 0)) []) as (n & ->).
    now exists n.
  - intros c t n Hin. cbn [rmatch m_rest].
    apply no_char_In in Hc, Hq.
    assert (C : is_ch ":" c = false).
    { unfold is_ch. apply N.eqb_neq. intros ->. now apply Hc. }
    assert (Q : N.eqb c QUOTE = false).
    { apply N.eqb_neq. intros ->. now apply Hq. }
    now rewrite C, Q.
Qed.

Lemma filter_not_quote_trimStart (s : jsstring) :
  exists sp, forallb is_space sp = true
    /\ filter not_quote s = sp ++ filter not_quote (trimStart s).
Proof.
  induction s as [|c s (sp & Hsp & IH)]; [now exists []|].
  cbn [trimStart]. destruct (is_space c) eqn:E; [|now exists []].
  exists (c :: sp). cbn [forallb filter]. rewrite E, Hsp. split; [reflexivity|].
  assert (Q : not_quote c = true).
  { unfold not_quote. apply negb_true_iff, N.eqb_neq. intros ->. discriminate. }
  rewrite Q, IH. reflexivity.
Qed.

Lemma trim_after_spaces (sp s : jsstring) :
  forallb is_space sp = true -> trim (sp ++ s) = trim s.
Proof. intros H. unfold trim. now rewrite trimStart_app_spaces. Qed.

(** X8.  The cue of a line made of a label, a colon and a text is the text
    with its double quotes removed, trimmed: the label goes with the colon and
    the white space after it. *)
Theorem cue_of_a_labelled_line (label rest : jsstring) :
  cue_label label = true ->
  cue_of (label ++ lit ":" ++ rest) = trim (filter not_quote rest).
Proof.
  intros H. unfold cue_of, re_replace.
  destruct (match_cue_label label rest H) as (n & M).
  rewrite (search_here _ _ _ _ M).
  cbn [firstn app m_rest]. unfold re_replace_all, re_quotes.
  rewrite replace_go_class, flat_map_filter.
  destruct (filter_not_quote_trimStart rest) as (sp & Hsp & E).
  change (fun c => negb (N.eqb c QUOTE)) with not_quote.
  rewrite E. now rewrite trim_after_spaces.
Qed.

Lemma cue_of_a_labelled_line_witness :
  cue_of (lit "- **Mental cue**" ++ lit ":" ++ (lit " " ++ [QUOTE]
            ++ lit "Hips to the hill" ++ [QUOTE; 32%N]))
  = lit "Hips to the hill".
Proof.
  rewrite (cue_of_a_labelled_line (lit "- **Mental cue**")
             (lit " " ++ [QUOTE] ++ lit "Hips to the hill" ++ [QUOTE; 32%N])).
  - reflexivity.
  - reflexivity.
Defined.

(** * The value of a line in a priority block *)

Lemma split_two_colons (label a b : jsstring) :
  no_char (ch ":") label = true -> no_char (ch ":") a = true ->
  map trim (split (label ++ lit ":" ++ a ++ lit ":" ++ b) (lit ":"))
  = trim label :: trim a :: map trim (split b (lit ":")).
Proof.
  intros Hl Ha. apply no_char_In in Hl, Ha.
  change (lit ":") with [ch ":"].
  change (label ++ [ch ":"] ++ a ++ [ch ":"] ++ b)
    with (label ++ ch ":" :: (a ++ ch ":" :: b)).
  now rewrite !split_sep by assumption.
Qed.

Lemma includes_colon_here (label rest : jsstring) :
  includes (label ++ lit ":" ++ rest) (lit ":") = true.
Proof.
  change (lit ":") with [ch ":"]. apply includes_char_true.
  apply in_or_app. right. now left.
Qed.

(** X9.  In a priority block the value of a line ends at its second colon: the
    line is split at every colon and the second piece alone is read, so what
    follows a second colon is dropped from the drill and from the terrain. *)
Theorem priority_value_ends_at_second_colon
  (p : Priority.t) (label a b : jsstring) :
  no_char (ch ":") label = true -> no_char (ch ":") a = true ->
  let q := priority_line p (label ++ lit ":" ++ a ++ lit ":" ++ b) in
  (includes (toLowerCase (trim label)) (lit "drill") = true ->
   Priority.drill q = strip_bold (trim a))
  /\ (includes (toLowerCase (trim label)) (lit "terrain") = true ->
      Priority.terrain q = strip_bold (trim a)).
Proof.
  intros Hl Ha q. unfold q, priority_line.
  rewrite (split_two_colons label a b Hl Ha), includes_colon_here.
  cbn [nth]. split; intros H; rewrite H;
    destruct (includes _ (lit "Current:") && includes _ [ARROW]);
    try destruct (re_match _ re_current) as [[m caps]|]; reflexivity.
Qed.

Lemma priority_value_ends_at_second_colon_witness :
  Priority.drill
    (priority_line Priority.empty
       (lit "- Drill" ++ lit ":" ++ lit " Start at 10" ++ lit ":"
          ++ lit "30 sharp"))
  = lit "Start at 10".
Proof.
  apply (priority_value_ends_at_second_colon Priority.empty (lit "- Drill")
           (lit " Start at 10") (lit "30 sharp")); reflexivity.
Defined.

(** * The blocks of the drills and of the days *)

Lemma list_indexOf_from_ge (l : list jsstring) (x : jsstring) (i : Z) :
  (list_indexOf_from l x i = -1 \/ i <= list_indexOf_from l x i)%Z.
Proof.
  revert i; induction l as [|y l IH]; intros i; [now left|].
  cbn [list_indexOf_from]. destruct (str_eqb y x); [right; lia|].
  destruct (IH (i + 1)%Z) as [H|H]; [now left|right; lia].
Qed.

(** [lines.indexOf(line) === 0] holds for the lines equal to the first. *)
Lemma list_indexOf_first (first : jsstring) (rest : list jsstring)
  (l : jsstring) :
  Z.eqb (list_indexOf (first :: rest) l) 0 = str_eqb first l.
Proof.
  unfold list_indexOf. cbn [list_indexOf_from].
  destruct (str_eqb first l); [reflexivity|].
  destruct (list_indexOf_from_ge rest l (0 + 1)) as [H|H];
    [rewrite H; reflexivity|].
  apply Z.eqb_neq. lia.
Qed.

(** ** Drills *)

Ltac labelled_step :=
  intros; unfold drill_line, day_line, labelled_line, line_value;
  destruct (includes _ (lit ":"));
  match goal with
  | |- context [if negb ?c && ?e then _ else _] => destruct (negb c && e)
  end;
  cbn [andb Drill.targetMetric Drill.why Drill.execution Drill.runsPerSession
       Drill.turnsPerRun Drill.terrain Drill.successFeels Drill.commonMistake
       Drill.progression Day.primaryFocus Day.secondary Day.terrain Day.goal
       Day.details];
  try reflexivity;
  match goal with
  | |- context [if ?c then _ else _] => destruct c
  end; reflexivity.

Section DrillLines.

Variable lines : list jsstring.

Lemma drill_line_targetMetric (d : Drill.t) (l : jsstring) :
  Drill.targetMetric (drill_line lines d l)
  = if labelled_line (lit "target metric") l then line_value l
    else Drill.targetMetric d.
Proof. labelled_step. Qed.

Lemma drill_line_why (d : Drill.t) (l : jsstring) :
  Drill.why (drill_line lines d l)
  = if labelled_line (lit "why this drill") l then line_value l
    else Drill.why d.
Proof. labelled_step. Qed.

Lemma drill_line_execution (d : Drill.t) (l : jsstring) :
  Drill.execution (drill_line lines d l)
  = if labelled_line (lit "execution") l then line_value l
    else Drill.execution d.
Proof. labelled_step. Qed.

Lemma drill_line_runsPerSession (d : Drill.t) (l : jsstring) :
  Drill.runsPerSession (drill_line lines d l)
  = if labelled_line (lit "runs per session") l then line_value l
    else Drill.runsPerSession d.
Proof. labelled_step. Qed.

Lemma drill_line_turnsPerRun (d : Drill.t) (l : jsstring) :
  Drill.turnsPerRun (drill_line lines d l)
  = if labelled_line (lit "turns per run") l then line_value l
    else Drill.turnsPerRun d.
Proof. labelled_step. Qed.

Lemma drill_line_terrain (d : Drill.t) (l : jsstring) :
  Drill.terrain (drill_line lines d l)
  = if labelled_line (lit "terrain") l then line_value l
    else Drill.terrain d.
Proof. labelled_step. Qed.

Lemma drill_line_successFeels (d : Drill.t) (l : jsstring) :
  Drill.successFeels (drill_line lines d l)
  = if labelled_line (lit "success feels") l then line_value l
    else Drill.successFeels d.
Proof. labelled_step. Qed.

Lemma drill_line_commonMistake (d : Drill.t) (l : jsstring) :
  Drill.commonMistake (drill_line lines d l)
  = if labelled_line (lit "common mistake") l then line_value l
    else Drill.commonMistake d.
Proof. labelled_step. Qed.

Lemma drill_line_progression (d : Drill.t) (l : jsstring) :
  Drill.progression (drill_line lines d l)
  = if labelled_line (lit "progression") l then line_value l
    else Drill.progression d.
Proof. labelled_step. Qed.

End DrillLines.

(** The name and the focus once the first line is read: no later line
    changes them. *)
Lemma drill_line_name_focus (first : jsstring) (rest : list jsstring)
  (d : Drill.t) (l : jsstring) :
  Drill.name d = drill_name_of first /\ Drill.focus d = drill_focus_of first ->
  Drill.name (drill_line (first :: rest) d l) = drill_name_of first
  /\ Drill.focus (drill_line (first :: rest) d l) = drill_focus_of first.
Proof.
  intros [Hn Hf]. unfold drill_line. rewrite list_indexOf_first.
  destruct (includes l (lit ":")); cbn [Drill.name Drill.focus];
    destruct (negb (truthy (Drill.name d)) && str_eqb first l) eqn:E;
    cbn [Drill.name Drill.focus]; try (split; assumption);
    apply andb_true_iff in E as [_ E]; apply str_eqb_eq in E; subst l;
    (split; [reflexivity|]); unfold drill_focus_of in *;
    destruct (re_match first re_focuscap) as [[m caps]|];
    try reflexivity; exact Hf.
Qed.

Lemma drill_line_first (first : jsstring) (rest : list jsstring) :
  let d := drill_line (first :: rest) Drill.empty first in
  Drill.name d = drill_name_of first /\ Drill.focus d = drill_focus_of first.
Proof.
  cbn zeta. unfold drill_line. rewrite list_indexOf_first, str_eqb_refl.
  destruct (includes first (lit ":")); cbn [Drill.name Drill.focus
    Drill.empty truthy negb andb]; (split; [reflexivity|]);
    unfold drill_focus_of;
    destruct (re_match first re_focuscap) as [[m caps]|]; reflexivity.
Qed.

Lemma drill_lines_name_focus (first : jsstring) (rest ls : list jsstring)
  (d : Drill.t) :
  Drill.name d = drill_name_of first /\ Drill.focus d = drill_focus_of first ->
  Drill.name (fold_left (drill_line (first :: rest)) ls d)
  = drill_name_of first
  /\ Drill.focus (fold_left (drill_line (first :: rest)) ls d)
     = drill_focus_of first.
Proof.
  revert d; induction ls as [|l ls IH]; intros d H; [exact H|].
  cbn [fold_left]. apply IH. now apply drill_line_name_focus.
Qed.

(** X12.  A drill is read field by field.  Each labelled field holds the value
    of the last line of the block, among those with a colon, whose label
    contains the words of the field, and is empty when there is none; the
    value is all that follows the first colon of the line.  The name and the
    focus are read from the first line of the block that is not blank, and
    from no other. *)
Theorem drill_block_reads_field_by_field (block : jsstring) :
  drill_block block = drill_of_lines (filter nonblank (lines_of block)).
Proof.
  unfold drill_block.
  destruct (filter nonblank (lines_of block)) as [|first rest];
    [reflexivity|].
  assert (NF := drill_lines_name_focus first rest rest _
                  (drill_line_first first rest)).
  change (fold_left (drill_line (first :: rest)) rest
            (drill_line (first :: rest) Drill.empty first))
    with (fold_left (drill_line (first :: rest)) (first :: rest) Drill.empty)
    in NF.
  destruct NF as [Hn Hf].
  pose proof (fold_last_wins _ _ _ _ (drill_line_targetMetric (first :: rest))
                (first :: rest) Drill.empty) as H1.
  pose proof (fold_last_wins _ _ _ _ (drill_line_why (first :: rest))
                (first :: rest) Drill.empty) as H2.
  pose proof (fold_last_wins _ _ _ _ (drill_line_execution (first :: rest))
                (first :: rest) Drill.empty) as H3.
  pose proof (fold_last_wins _ _ _ _ (drill_line_runsPerSession (first :: rest))
                (first :: rest) Drill.empty) as H4.
  pose proof (fold_last_wins _ _ _ _ (drill_line_turnsPerRun (first :: rest))
                (first :: rest) Drill.empty) as H5.
  pose proof (fold_last_wins _ _ _ _ (drill_line_terrain (first :: rest))
                (first :: rest) Drill.empty) as H6.
  pose proof (fold_last_wins _ _ _ _ (drill_line_successFeels (first :: rest))
                (first :: rest) Drill.empty) as H7.
  pose proof (fold_last_wins _ _ _ _ (drill_line_commonMistake (first :: rest))
                (first :: rest) Drill.empty) as H8.
  pose proof (fold_last_wins _ _ _ _ (drill_line_progression (first :: rest))
                (first :: rest) Drill.empty) as H9.
  destruct (fold_left (drill_line (first :: rest)) (first :: rest) Drill.empty).
  cbn [Drill.name Drill.focus Drill.targetMetric Drill.why Drill.execution
       Drill.runsPerSession Drill.turnsPerRun Drill.terrain Drill.successFeels
       Drill.commonMistake Drill.progression Drill.empty] in *.
  unfold drill_of_lines, labelled. congruence.
Qed.

(** ** Days *)

Section DayLines.

Variable lines : list jsstring.

Lemma day_line_primaryFocus (d : Day.t) (l : jsstring) :
  Day.primaryFocus (day_line lines d l)
  = if labelled_line (lit "primary focus") l then line_value l
    else Day.primaryFocus d.
Proof. labelled_step. Qed.

Lemma day_line_secondary (d : Day.t) (l : jsstring) :
  Day.secondary (day_line lines d l)
  = if labelled_line (lit "secondary") l then line_value l
    else Day.secondary d.
Proof. labelled_step. Qed.

Lemma day_line_terrain (d : Day.t) (l : jsstring) :
  Day.terrain (day_line lines d l)
  = if labelled_line (lit "terrain") l then line_value l
    else Day.terrain d.
Proof. labelled_step. Qed.

Lemma day_line_goal (d : Day.t) (l : jsstring) :
  Day.goal (day_line lines d l)
  = if labelled_line (lit "goal") l then line_value l else Day.goal d.
Proof. labelled_step. Qed.

Lemma day_line_details (d : Day.t) (l : jsstring) :
  Day.details (day_line lines d l)
  = if labelled_line (lit "add") l
    then Day.details d ++ [lit "Add: " ++ line_value l]
    else Day.details d.
Proof. labelled_step. Qed.

End DayLines.

Lemma day_line_name (first : jsstring) (rest : list jsstring)
  (d : Day.t) (l : jsstring) :
  Day.name d = day_name_of first ->
  Day.name (day_line (first :: rest) d l) = day_name_of first.
Proof.
  intros Hn. unfold day_line. rewrite list_indexOf_first.
  destruct (includes l (lit ":")); cbn [Day.name];
    destruct (negb (truthy (Day.name d)) && str_eqb first l) eqn:E;
    cbn [Day.name]; try assumption;
    apply andb_true_iff in E as [_ E]; apply str_eqb_eq in E; subst l;
    reflexivity.
Qed.

Lemma day_line_first (first : jsstring) (rest : list jsstring) (n : nat) :
  Day.name (day_line (first :: rest) (Day.Build n [] [] [] [] [] []) first)
  = day_name_of first.
Proof.
  unfold day_line. rewrite list_indexOf_first, str_eqb_refl.
  destruct (includes first (lit ":")); reflexivity.
Qed.

(** X13.  A day is read as a drill is: its labelled fields from the last line
    whose label contains their words, its name from the first line of the
    block that is not blank; its number is the place of the block; and its
    details are the values of the lines whose label contains [add], each after
    the words [Add: ], in the order of the lines. *)
Theorem day_block_reads_field_by_field (block : jsstring) (idx : nat) :
  day_block block idx = day_of_lines (filter nonblank (lines_of block)) idx.
Proof.
  unfold day_block.
  destruct (filter nonblank (lines_of block)) as [|first rest];
    [reflexivity|].
  set (start := Day.Build (idx + 1) [] [] [] [] [] []).
  set (L := first :: rest).
  assert (Hname : Day.name (fold_left (day_line L) L start)
                  = day_name_of first).
  { unfold L at 2. cbn [fold_left].
    apply (fold_keeps (day_line L) Day.name);
      [intros s a; apply day_line_name|apply day_line_first]. }
  pose proof (day_lines_num L L start) as H0.
  pose proof (fold_last_wins _ _ _ _ (day_line_primaryFocus L) L start) as H1.
  pose proof (fold_last_wins _ _ _ _ (day_line_secondary L) L start) as H2.
  pose proof (fold_last_wins _ _ _ _ (day_line_terrain L) L start) as H3.
  pose proof (fold_last_wins _ _ _ _ (day_line_goal L) L start) as H4.
  pose proof (fold_appends _ _ _ _ (day_line_details L) L start) as H5.
  destruct (fold_left (day_line L) L start).
  cbn [Day.dayNum Day.name Day.primaryFocus Day.secondary Day.terrain
       Day.goal Day.details start app] in *.
  unfold day_of_lines, labelled. fold L. subst. reflexivity.
Qed.

(** * The drills of a section *)

Lemma split_go_spaces (s cur : jsstring) (skip : nat) :
  forallb is_space s = true -> forallb is_space cur = true ->
  Forall (fun l => forallb is_space l = true) (split_go [LF] s skip cur).
Proof.
  revert cur skip; induction s as [|c s IH]; intros cur skip Hs Hc.
  - cbn [split_go]. constructor; [|constructor]. now rewrite forallb_rev.
  - cbn [forallb] in Hs. apply andb_true_iff in Hs as [H1 H2].
    cbn [split_go]. destruct skip as [|n]; [|now apply IH].
    destruct (startsWith (c :: s) [LF]).
    + constructor; [now rewrite forallb_rev|]. now apply IH.
    + apply IH; [exact H2|]. cbn [forallb]. now rewrite H1.
Qed.

(** A blank text has blank lines only. *)
Lemma lines_of_blank (b : jsstring) :
  nonblank b = false -> filter nonblank (lines_of b) = [].
Proof.
  intros H. unfold nonblank in H.
  destruct (trim b) eqn:E; [|discriminate]. apply trim_nil_iff in E.
  assert (F := split_go_spaces b [] 0 E eq_refl).
  unfold lines_of, split. induction F as [|l ls Hl _ IH]; [reflexivity|].
  cbn [filter]. now rewrite (nonblank_blank l Hl).
Qed.

Lemma drill_block_blank (b : jsstring) :
  nonblank b = false -> drill_block b = Drill.empty.
Proof. intros H. unfold drill_block. now rewrite (lines_of_blank b H). Qed.

(** The filter on the blocks drops nothing that the filter on the drills
    would keep. *)
Lemma drills_of_all_blocks (blocks : list jsstring) :
  filter drill_kept (map drill_block (filter nonblank blocks))
  = filter drill_kept (map drill_block blocks).
Proof.
  induction blocks as [|b blocks IH]; [reflexivity|].
  cbn [filter map]. destruct (nonblank b) eqn:N.
  - cbn [map filter]. now rewrite IH.
  - rewrite (drill_block_blank b N). exact IH.
Qed.

Lemma re_drill_word : word_ok (lit "Drill") = true.
Proof. reflexivity. Qed.

(** X15.  The drills of a body cut by drill headings: one block for the text
    before the first heading and one for the text after each heading, each
    read on its own, and the drills without name and execution dropped.  Blank
    blocks give no drill, so the drills follow the order of the blocks that
    are left.  The text before the first heading is a block like the others:
    when it is not blank, its first line names a drill. *)
Theorem drills_are_read_block_by_block (pre : jsstring)
  (blocks : list (jsstring * jsstring)) :
  no_hash pre = true -> forallb block_ok blocks = true ->
  drillsOf (subheading_doc (lit "Drill") pre blocks)
  = filter drill_kept (map drill_block (pre :: map snd blocks)).
Proof.
  intros Hp Hb. unfold drillsOf, re_drill.
  rewrite (re_split_subheading_doc (lit "Drill") re_drill_word pre blocks Hp Hb).
  apply drills_of_all_blocks.
Qed.

Lemma drills_are_read_block_by_block_witness :
  let pre := lit "Here are your drills:" ++ [LF] in
  let blocks :=
    [(lit "1", lit ": Railroad Tracks" ++ [LF]
               ++ lit "- **Execution**: roll both knees" ++ [LF]);
     (lit "2", [LF]);
     (lit "3", lit ": Javelin Turns - Integration" ++ [LF])] in
  map Drill.name (drillsOf (subheading_doc (lit "Drill") pre blocks))
  = [lit "Here are your drills"; lit "Railroad Tracks"; lit "Javelin Turns"].
Proof.
  intros pre blocks.
  rewrite (drills_are_read_block_by_block pre blocks); reflexivity.
Defined.

(** * The weeks of the progression *)

(** The search passes over a text in which no match starts. *)
Lemma search_fails (re : RegExp) (x s : jsstring) (pos : nat) :
  fails_within re x s ->
  search re pos (x ++ s) = search re (length x + pos) s.
Proof.
  revert pos; induction x as [|c x IH]; intros pos H; [reflexivity|].
  destruct H as [H1 H2]. cbn [app search]. rewrite H1, (IH _ H2).
  f_equal. cbn [length]. lia.
Qed.

Lemma search_none (re : RegExp) (x : jsstring) (pos : nat) :
  fails_within re x [] -> match_at re (length x + pos) [] = None ->
  search re pos x = None.
Proof.
  intros H E. rewrite <- (app_nil_r x) at 1. rewrite (search_fails re x [] pos H).
  cbn [search]. now rewrite E.
Qed.

Section Weeks.

Variables a b : ascii.
Hypothesis a_no_space : is_space (ch a) = false.

Lemma match_week_other (pos : nat) (c : char) (t : jsstring) :
  c <> ch "#" -> match_at (re_week a b) pos (c :: t) = None.
Proof.
  intros H. unfold match_at, re_week.
  cbn [re_icase re_body Seqs]. eval_lits.
  cbn [Str rmatch m_rest]. change 35%N with (ch "#").
  now rewrite (char_matches_low c (ch "#") eq_refl H).
Qed.

Lemma match_week_nil (pos : nat) : match_at (re_week a b) pos [] = None.
Proof. reflexivity. Qed.

Lemma fails_within_week (x s : jsstring) :
  no_hash x = true -> fails_within (re_week a b) x s.
Proof.
  apply fails_within_no_char. intros pos c t. apply match_week_other.
Qed.

Lemma look_week_end_other (c : char) (t : jsstring) (n : nat)
  (caps : list (nat * jsstring)) :
  c <> ch "#" ->
  rmatch true (Look (Alt (Str (lit "###")) Eol)) Some (MState n (c :: t) caps)
  = None.
Proof.
  intros H. eval_lits. cbn [Str rmatch m_rest]. change 35%N with (ch "#").
  now rewrite (char_matches_low c (ch "#") eq_refl H).
Qed.

Lemma look_week_end (rest : jsstring) (n : nat) (caps : list (nat * jsstring)) :
  week_end rest = true ->
  rmatch true (Look (Alt (Str (lit "###")) Eol)) Some (MState n rest caps)
  = Some (MState n rest caps).
Proof.
  intros H. destruct rest as [|x rest]; [reflexivity|].
  unfold week_end in H. change (lit "###") with [35; 35; 35]%N in *.
  destruct rest as [|y [|z rest]]; cbn [startsWith] in H;
    rewrite ?andb_false_r in H; try discriminate H.
  apply andb_true_iff in H as [Hx H]. apply andb_true_iff in H as [Hy H].
  apply andb_true_iff in H as [Hz _]. apply N.eqb_eq in Hx, Hy, Hz.
  subst. reflexivity.
Qed.

(** At a week heading the match runs to the end of the week. *)
Lemma match_week (sep : char) (body rest : jsstring) (pos : nat) :
  week_sep sep = true -> no_hash body = true -> week_end rest = true ->
  match_at (re_week a b) pos (week_heading a sep b ++ body ++ rest)
  = Some (MState (length (week_heading a sep b ++ body) + pos) rest []).
Proof.
  intros Hs Hb Hr. unfold match_at, re_week, week_heading.
  cbn [re_icase re_body Seqs]. eval_lits.
  change (([35; 35; 35; 32; 87; 101; 101; 107; 32]%N ++ [ch a; sep; ch b])
          ++ body ++ rest)
    with ([35; 35; 35]%N ++ [32%N] ++ [87; 101; 101; 107]%N ++ [32%N]
          ++ ch a :: sep :: ch b :: body ++ rest).
  cbn [rmatch]. rewrite rmatch_Str_app. cbn [m_caps m_pos m_rest].
  erewrite (star_greedy_run is_space _ [] [32%N]);
    [reflexivity|reflexivity|reflexivity|].
  rewrite rmatch_Str_app. cbn [m_caps m_pos m_rest].
  erewrite (star_greedy_run is_space _ [] [32%N]);
    [reflexivity|reflexivity|exact a_no_space|].
  cbn [rmatch m_rest m_pos m_caps]. rewrite !char_matches_refl.
  change (is_ch "-" sep || N.eqb sep ENDASH) with (week_sep sep). rewrite Hs.
  cbn [m_rest m_pos m_caps].
  rewrite star_lazy_run; [|now apply forallb_forall|].
  - assert (E : forall n, star_lazy any_char
                  (rmatch true (Look (Alt (Str (lit "###")) Eol)) Some) []
                  n rest
                = Some (MState n rest [])).
    { intros n. destruct rest; cbn [star_lazy]; fold (lit "###");
        now rewrite (look_week_end _ n [] Hr). }
    rewrite E.
    do 2 f_equal. rewrite !length_app. cbn [length]. lia.
  - intros c t n Hin. apply look_week_end_other.
    apply no_char_In in Hb. intros ->. contradiction.
Qed.

End Weeks.

Lemma one_no_space : is_space (ch "1") = false.
Proof. reflexivity. Qed.

Lemma three_no_space : is_space (ch "3") = false.
Proof. reflexivity. Qed.

(** The week found in a body: the text from the heading to the end of the
    week. *)
Lemma re_match_week (a b : ascii) (sep : char) (pre body rest : jsstring) :
  is_space (ch a) = false ->
  fails_within (re_week a b) pre (week_heading a sep b ++ body ++ rest) ->
  week_sep sep = true -> no_hash body = true -> week_end rest = true ->
  option_map fst
    (re_match (pre ++ week_heading a sep b ++ body ++ rest) (re_week a b))
  = Some (week_heading a sep b ++ body).
Proof.
  intros Ha Hp Hs Hb Hr. unfold re_match.
  rewrite (search_fails _ _ _ 0 Hp), Nat.add_0_r.
  rewrite (search_here _ _ _ _ (match_week a b Ha sep body rest _ Hs Hb Hr)).
  cbn [option_map fst m_pos].
  rewrite skipn_app, skipn_all, Nat.sub_diag. cbn [skipn app].
  replace (length (week_heading a sep b ++ body) + length pre - length pre)
    with (length (week_heading a sep b ++ body)) by lia.
  rewrite app_assoc. now rewrite firstn_length_app.
Qed.

(** The bullets under a heading line: the heading line is no bullet. *)
Lemma bullets_under_heading (h body : jsstring) :
  no_char LF h = true -> bullets ((ch "#" :: h) ++ LF :: body) = bullets body.
Proof.
  intros H. unfold bullets, lines_of.
  rewrite split_sep.
  - cbn [filter]. unfold is_bullet at 1.
    destruct (trim_keeps_first (ch "#") h eq_refl) as (u & ->). reflexivity.
  - apply no_char_In in H. intros [E|Hin]; [discriminate|contradiction].
Qed.

Lemma week_sep_chars (sep : char) :
  week_sep sep = true -> sep <> ch "#" /\ sep <> LF.
Proof.
  unfold week_sep, is_ch. intros H.
  apply orb_true_iff in H as [H|H]; apply N.eqb_eq in H; subst sep;
    split; discriminate.
Qed.

(** No week 3-4 starts inside the heading of the weeks 1-2. *)
Lemma fails_within_other_heading (sep : char) (s : jsstring) :
  week_sep sep = true ->
  fails_within (re_week "3" "4") (week_heading "1" sep "2") s.
Proof.
  intros Hs. destruct (week_sep_chars sep Hs) as [Hh _].
  unfold week_heading. eval_lits. cbn [app fails_within].
  repeat split; intros pos;
    try reflexivity;
    apply match_week_other; try discriminate; exact Hh.
Qed.

Lemma week_ok_parts (sep : char) (r body : jsstring) :
  week_ok sep r body = true ->
  week_sep sep = true /\ no_hash (r ++ LF :: body) = true
  /\ no_char LF (skipn 1 (week_heading "1" sep "2") ++ r) = true
  /\ no_char LF (skipn 1 (week_heading "3" sep "4") ++ r) = true.
Proof.
  unfold week_ok. intros H.
  apply andb_true_iff in H as [H Hb]. apply andb_true_iff in H as [H Hl].
  apply andb_true_iff in H as [Hs Hr].
  destruct (week_sep_chars sep Hs) as [_ Hn].
  split; [exact Hs|]. split.
  - unfold no_hash. change (LF :: body) with ([LF] ++ body).
    rewrite !no_char_app. unfold no_hash in Hr, Hb. now rewrite Hr, Hb.
  - assert (E : forall x y, no_char LF (skipn 1 (week_heading x sep y)) = true
                            \/ LF = ch x \/ LF = ch y).
    { intros x y. unfold week_heading. eval_lits. cbn [app skipn].
      unfold no_char. cbn [existsb].
      destruct (N.eqb LF (ch x)) eqn:X; [apply N.eqb_eq in X; auto|].
      destruct (N.eqb LF (ch y)) eqn:Y; [apply N.eqb_eq in Y; auto|].
      destruct (N.eqb LF sep) eqn:S; [apply N.eqb_eq in S; congruence|].
      left. reflexivity. }
    split; rewrite no_char_app, Hl.
    + destruct (E "1"%char "2"%char) as [->|[?|?]];
        [reflexivity|discriminate|discriminate].
    + destruct (E "3"%char "4"%char) as [->|[?|?]];
        [reflexivity|discriminate|discriminate].
Qed.

Lemma progressionOf_none (content : jsstring) (old : Progression.t) :
  no_hash content = true -> progressionOf content old = old.
Proof.
  intros H. unfold progressionOf, re_match.
  rewrite !search_none;
    try (now apply fails_within_week); try apply match_week_nil.
  now destruct old.
Qed.

(** X17.  The progression reads the bullets under each of its two week
    headings, up to the next three hashes or the end of the body, whatever
    stands before the first heading; and a body without any hash leaves the
    progression as it was. *)
Theorem progression_reads_each_week :
  (forall (content : jsstring) (old : Progression.t),
     no_hash content = true -> progressionOf content old = old)
  /\ forall (pre : jsstring) (s1 : char) (r1 body1 : jsstring)
       (s3 : char) (r3 body3 : jsstring) (old : Progression.t),
       no_hash pre = true ->
       week_ok s1 r1 body1 = true -> week_ok s3 r3 body3 = true ->
       progressionOf
         (pre ++ week_text "1" s1 "2" r1 body1
              ++ week_text "3" s3 "4" r3 body3) old
       = Progression.Build (bullets body1) (bullets body3).
Proof.
  split; [exact progressionOf_none|].
  intros pre s1 r1 body1 s3 r3 body3 old Hp H1 H3.
  destruct (week_ok_parts _ _ _ H1) as (Hs1 & Hb1 & Hl1 & _).
  destruct (week_ok_parts _ _ _ H3) as (Hs3 & Hb3 & _ & Hl3).
  unfold progressionOf.
  set (content := pre ++ week_text "1" s1 "2" r1 body1
                      ++ week_text "3" s3 "4" r3 body3).
  assert (E1 : pre ++ week_heading "1" s1 "2" ++ (r1 ++ LF :: body1)
                 ++ week_heading "3" s3 "4" ++ r3 ++ LF :: body3
               = content).
  { unfold content, week_text. now rewrite <- !app_assoc. }
  assert (E3 : (pre ++ week_heading "1" s1 "2" ++ r1 ++ LF :: body1)
                 ++ week_heading "3" s3 "4" ++ (r3 ++ LF :: body3) ++ []
               = content).
  { unfold content, week_text. now rewrite app_nil_r, <- !app_assoc. }
  assert (M1 := re_match_week "1" "2" s1 pre (r1 ++ LF :: body1)
                  (week_heading "3" s3 "4" ++ r3 ++ LF :: body3)
                  one_no_space
                  (fails_within_week "1" "2" pre _ Hp) Hs1 Hb1 eq_refl).
  rewrite E1 in M1.
  assert (F3 : fails_within (re_week "3" "4")
                 (pre ++ week_heading "1" s1 "2" ++ r1 ++ LF :: body1)
                 (week_heading "3" s3 "4" ++ (r3 ++ LF :: body3) ++ [])).
  { apply fails_within_app; [now apply fails_within_week|].
    apply fails_within_app; [now apply fails_within_other_heading|].
    now apply fails_within_week. }
  assert (M3 := re_match_week "3" "4" s3 _ (r3 ++ LF :: body3) []
                  three_no_space F3 Hs3 Hb3 eq_refl).
  rewrite E3 in M3.
  destruct (re_match content (re_week "1" "2")) as [[m1 c1]|]; [|discriminate].
  destruct (re_match content (re_week "3" "4")) as [[m3 c3]|]; [|discriminate].
  cbn [option_map fst] in M1, M3. injection M1 as ->. injection M3 as ->.
  f_equal.
  - exact (bullets_under_heading _ body1 Hl1).
  - exact (bullets_under_heading _ body3 Hl3).
Qed.

Lemma progression_reads_each_week_witness :
  progressionOf
    (lit "Plan:" ++ [LF]
       ++ week_text "1" (ch "-") "2" (lit ": Foundation")
            (lit "- Hold the edge" ++ [LF] ++ lit "- Look ahead" ++ [LF])
       ++ week_text "3" ENDASH "4" [] (lit "- Add speed"))
    Progression.empty
  = Progression.Build [lit "Hold the edge"; lit "Look ahead"] [lit "Add speed"].
Proof.
  apply (proj2 progression_reads_each_week (lit "Plan:" ++ [LF]) (ch "-")
           (lit ": Foundation")
           (lit "- Hold the edge" ++ [LF] ++ lit "- Look ahead" ++ [LF])
           ENDASH [] (lit "- Add speed") Progression.empty); reflexivity.
Defined.

(** * The lines of the session plan *)

Lemma trimStart_split (s : jsstring) :
  exists sp, s = sp ++ trimStart s /\ forallb is_space sp = true
    /\ match trimStart s with [] => True | c :: _ => is_space c = false end.
Proof.
  induction s as [|c s (sp & E & Hsp & Hc)]; [now exists []|].
  cbn [trimStart]. destruct (is_space c) eqn:C.
  - exists (c :: sp). cbn [app forallb]. rewrite C, Hsp.
    repeat split; [now f_equal|exact Hc].
  - exists []. repeat split. exact C.
Qed.

Lemma forallb_trimStart (p : char -> bool) (s : jsstring) :
  forallb p s = true -> forallb p (trimStart s) = true.
Proof.
  induction s as [|c s IH]; [reflexivity|].
  cbn [forallb trimStart]. intros H. apply andb_true_iff in H as [Hc Hs].
  destruct (is_space c); [auto|]. cbn [forallb]. now rewrite Hc, Hs.
Qed.

(** The end of both patterns of a session line: an optional colon, white
    space, and the rest of the line as the second group. *)
Lemma match_session_tail (sp ta : jsstring) (pos : nat)
  (caps : list (nat * jsstring)) :
  forallb is_space sp = true ->
  match ta with [] => True | c :: _ => is_space c = false end ->
  forallb dot ta = true ->
  exists m,
    rmatch true
      (Seqs [Opt (Lit (ch ":")); Star true is_space; Group 2 (Star true dot)])
      Some (MState pos (ch ":" :: sp ++ ta) caps)
    = Some (MState m [] ((2, ta) :: caps)).
Proof.
  intros Hsp Hc Hd.
  cbn [Seqs Opt rmatch m_rest m_pos m_caps]. rewrite char_matches_refl.
  erewrite (star_greedy_run is_space _ caps sp ta);
    [eexists; reflexivity|exact Hsp|exact Hc|].
  cbn [rmatch m_rest m_pos m_caps].
  rewrite <- (app_nil_r ta) at 1.
  erewrite (star_greedy_run dot _ caps ta []);
    [reflexivity|exact Hd|exact I|].
  unfold set_cap. cbn [m_pos m_rest m_caps].
  replace (length ta + (length sp + S pos) - (length sp + S pos))
    with (length ta) by lia.
  rewrite firstn_all. reflexivity.
Qed.

(** The first group of both patterns: [Run], white space and the range. *)
Lemma match_session_run (n rest : jsstring) (k : cont) (pos : nat)
  (caps : list (nat * jsstring)) (r : mstate) :
  range n = true ->
  match rest with [] => True | c :: _ => digit_or_dash c = false end ->
  k (MState (length (lit "Run " ++ n) + pos) rest
       ((1, lit "Run " ++ n) :: caps)) = Some r ->
  rmatch true
    (Group 1 (Seqs [Str (lit "Run"); Star true is_space; Plus digit_or_dash]))
    k (MState pos (lit "Run " ++ n ++ rest) caps)
  = Some r.
Proof.
  intros Hn Hr K. destruct (range_parts n Hn) as (d & n' & -> & Hd & Hn').
  change (lit "Run " ++ (d :: n') ++ rest)
    with (lit "Run" ++ [32%N] ++ (d :: n') ++ rest).
  cbn [Seqs rmatch]. rewrite rmatch_Str_app. cbn [m_caps m_pos m_rest].
  erewrite (star_greedy_run is_space _ caps [32%N]);
    [reflexivity|reflexivity|cbn [app]; now apply digit_or_dash_not_space|].
  unfold Plus. cbn [rmatch app m_rest m_pos m_caps]. rewrite Hd.
  erewrite (star_greedy_run digit_or_dash _ caps n' rest);
    [reflexivity|exact Hn'|exact Hr|].
  unfold set_cap. cbn [m_pos m_rest m_caps].
  rewrite <- K. f_equal. f_equal.
  - eval_lits. cbn [length app]. rewrite ?length_app. cbn [length]. lia.
  - f_equal. f_equal.
    match goal with
    | |- firstn ?k ?l = _ =>
        replace k with (length (lit "Run " ++ d :: n'))
          by (eval_lits; cbn [length app]; rewrite ?length_app;
              cbn [length]; lia);
        change l with ((lit "Run " ++ d :: n') ++ rest)
    end.
    apply firstn_length_app.
Qed.

Lemma match_session_bold (n sp ta : jsstring) :
  range n = true -> forallb is_space sp = true ->
  match ta with [] => True | c :: _ => is_space c = false end ->
  forallb dot ta = true ->
  exists m,
    match_at re_session_bold 0 (lit "**Run " ++ n ++ lit "**:" ++ sp ++ ta)
    = Some (MState m [] [(2, ta); (1, lit "Run " ++ n)]).
Proof.
  intros Hn Hsp Hc Hd.
  destruct (match_session_tail sp ta
              (length (lit "**") + (length (lit "Run " ++ n)
                                    + (length (lit "**") + 0)))
              [(1, lit "Run " ++ n)] Hsp Hc Hd) as (m & M).
  exists m. unfold match_at, re_session_bold. cbn [re_icase re_body].
  change (lit "**Run " ++ n ++ lit "**:" ++ sp ++ ta)
    with (lit "**" ++ lit "Run " ++ n ++ lit "**" ++ ch ":" :: sp ++ ta).
  change (Seqs [Str (lit "**");
                Group 1 (Seqs [Str (lit "Run"); Star true is_space;
                               Plus digit_or_dash]);
                Str (lit "**"); Opt (Lit (ch ":")); Star true is_space;
                Group 2 (Star true dot)])
    with (Seq (Str (lit "**"))
            (Seq (Group 1 (Seqs [Str (lit "Run"); Star true is_space;
                                 Plus digit_or_dash]))
               (Seq (Str (lit "**"))
                  (Seqs [Opt (Lit (ch ":")); Star true is_space;
                         Group 2 (Star true dot)])))).
  cbn [rmatch]. rewrite rmatch_Str_app.
  apply match_session_run; [exact Hn|reflexivity|].
  cbn [rmatch]. rewrite rmatch_Str_app. exact M.
Qed.

Lemma match_session_bold_other (pos : nat) (c : char) (t : jsstring) :
  c <> ch "*" -> match_at re_session_bold pos (c :: t) = None.
Proof.
  intros H. unfold match_at, re_session_bold.
  cbn [re_icase re_body Seqs]. eval_lits.
  cbn [Str rmatch m_rest]. change 42%N with (ch "*").
  now rewrite (char_matches_star c H).
Qed.

Lemma match_session_plain (n sp ta : jsstring) :
  range n = true -> forallb is_space sp = true ->
  match ta with [] => True | c :: _ => is_space c = false end ->
  forallb dot ta = true ->
  exists m,
    match_at re_session_plain 0 (lit "Run " ++ n ++ lit ":" ++ sp ++ ta)
    = Some (MState m [] [(2, ta); (1, lit "Run " ++ n)]).
Proof.
  intros Hn Hsp Hc Hd.
  destruct (match_session_tail sp ta (length (lit "Run " ++ n) + 0)
              [(1, lit "Run " ++ n)] Hsp Hc Hd) as (m & M).
  exists m. unfold match_at, re_session_plain. cbn [re_icase re_body].
  change (lit "Run " ++ n ++ lit ":" ++ sp ++ ta)
    with (lit "Run " ++ n ++ ch ":" :: sp ++ ta).
  change (Seqs [Group 1 (Seqs [Str (lit "Run"); Star true is_space;
                               Plus digit_or_dash]);
                Opt (Lit (ch ":")); Star true is_space;
                Group 2 (Star true dot)])
    with (Seq (Group 1 (Seqs [Str (lit "Run"); Star true is_space;
                              Plus digit_or_dash]))
            (Seqs [Opt (Lit (ch ":")); Star true is_space;
                   Group 2 (Star true dot)])).
  cbn [rmatch].
  apply match_session_run; [exact Hn|reflexivity|exact M].
Qed.

Lemma range_no_star (n : jsstring) : range n = true -> no_star n = true.
Proof.
  unfold range. intros H. apply andb_true_iff in H as [_ H].
  apply no_char_In. intros Hin. rewrite forallb_forall in H.
  specialize (H _ Hin). discriminate.
Qed.

(** X18.  A session line, in bold or not, gives its run and its activity: the
    run is [Run] with its number or range, and the activity is what follows
    the colon, without the white space before it and without bold markers.
    White space at the end of the line stays in the activity. *)
Theorem session_line_gives_run_and_activity (n act : jsstring) :
  range n = true -> forallb dot act = true ->
  session_entry (lit "**Run " ++ n ++ lit "**:" ++ act)
  = Session.Build (lit "Run " ++ n) (strip_bold (trimStart act))
  /\ (no_star act = true ->
      session_entry (lit "Run " ++ n ++ lit ":" ++ act)
      = Session.Build (lit "Run " ++ n) (strip_bold (trimStart act))).
Proof.
  intros Hn Hd.
  destruct (trimStart_split act) as (sp & E & Hsp & Hc).
  pose proof (forallb_trimStart dot act Hd) as Hd'.
  revert E Hc Hd'. generalize (trimStart act). intros ta E Hc Hd'.
  subst act. split.
  - destruct (match_session_bold n sp ta Hn Hsp Hc Hd') as (m & M).
    unfold session_entry, re_match.
    now rewrite (search_here _ _ _ _ M).
  - intros Hs.
    destruct (match_session_plain n sp ta Hn Hsp Hc Hd') as (m & M).
    unfold session_entry, re_match.
    rewrite (search_none re_session_bold).
    + now rewrite (search_here _ _ _ _ M).
    + apply (fails_within_no_char _ (ch "*"));
        [intros pos c t; apply match_session_bold_other|].
      pose proof (range_no_star n Hn) as Hr. unfold no_star in *.
      rewrite no_char_app in Hs. apply andb_true_iff in Hs as [Hs1 Hs2].
      rewrite !no_char_app, Hr, Hs1, Hs2. reflexivity.
    + reflexivity.
Qed.

Lemma session_line_gives_run_and_activity_witness :
  session_entry (lit "**Run " ++ lit "3-4" ++ lit "**:"
                   ++ lit "  **Carve** on blue runs ")
  = Session.Build (lit "Run 3-4") (lit "Carve on blue runs ")
  /\ session_entry (lit "Run " ++ lit "5" ++ lit ":" ++ lit " Cool down")
     = Session.Build (lit "Run 5") (lit "Cool down").
Proof.
  split.
  - apply (proj1 (session_line_gives_run_and_activity (lit "3-4")
                    (lit "  **Carve** on blue runs ") eq_refl eq_refl)).
  - apply (proj2 (session_line_gives_run_and_activity (lit "5")
                    (lit " Cool down") eq_refl eq_refl)).
    reflexivity.
Defined.

(** * The names of the metrics *)

Lemma split_go_underscore (up : char -> jsstring) (s cur : jsstring) :
  join (map (capitalize up) (split_go (lit "_") s 0 cur)) (lit " ")
  = match rev cur with
    | [] => title_case up true s
    | c :: pre => toUpperCase_unit up c ++ pre ++ title_case up false s
    end.
Proof.
  revert cur; induction s as [|c s IH]; intros cur.
  - cbn [split_go map join title_case]. unfold capitalize.
    destruct (rev cur); [reflexivity|]. now rewrite app_nil_r.
  - change (lit "_") with [ch "_"]. cbn [split_go startsWith title_case length
      Nat.sub]. rewrite andb_true_r.
    destruct (N.eqb (ch "_") c).
    + assert (N := split_not_nil s [ch "_"]). unfold split in N.
      change [ch "_"] with (lit "_") in *.
      cbn [map]. rewrite join_cons by (destruct (split_go (lit "_") s 0 []);
        [congruence|discriminate]).
      specialize (IH []). cbn [rev] in IH. rewrite IH.
      unfold capitalize. destruct (rev cur); [reflexivity|].
      now rewrite <- !app_assoc.
    + change [ch "_"] with (lit "_"). rewrite IH. cbn [rev].
      destruct (rev cur) as [|c0 pre]; cbn [app].
      * reflexivity.
      * now rewrite <- !app_assoc.
Qed.

(** X19.  The name of a metric is made in one pass over its key: every
    underscore becomes a space, the code unit at the start of the key and the
    one after each underscore are upper-cased, and nothing else changes; two
    underscores in a row give two spaces. *)
Theorem formatMetricName_is_one_pass (up : char -> jsstring)
  (name : jsstring) :
  formatMetricName up name = title_case up true name.
Proof.
  unfold formatMetricName, split. apply (split_go_underscore up name []).
Qed.

(** ** Keys of ASCII code units *)

Lemma upper_ascii_underscore (c : char) :
  N.eqb (ch "_") c = false -> N.eqb (ch "_") (upper_ascii c) = false.
Proof.
  intros H. unfold upper_ascii.
  destruct ((97 <=? c) && (c <=? 122))%N eqn:E; [|exact H].
  apply N.eqb_neq. change (ch "_") with 95%N. bools. lia.
Qed.

Lemma upper_ascii_idem (c : char) : upper_ascii (upper_ascii c) = upper_ascii c.
Proof.
  unfold upper_ascii.
  destruct ((97 <=? c) && (c <=? 122))%N eqn:E; [|now rewrite E].
  destruct ((97 <=? c - 32) && (c - 32 <=? 122))%N eqn:E'; [|reflexivity].
  bools. lia.
Qed.

Lemma upper_ascii_ascii (c : char) :
  (c <? 128)%N = true -> (upper_ascii c <? 128)%N = true.
Proof.
  intros H. unfold upper_ascii.
  destruct ((97 <=? c) && (c <=? 122))%N; [|exact H].
  apply N.ltb_lt in H. apply N.ltb_lt. lia.
Qed.

Lemma ascii_text_cons (c : char) (s : jsstring) :
  ascii_text (c :: s) = (c <? 128)%N && ascii_text s.
Proof. reflexivity. Qed.

Lemma title_case_ascii (up up' : char -> jsstring) (start : bool)
  (s : jsstring) :
  ascii_text s = true ->
  title_case up start s = title_case up' start s
  /\ length (title_case up start s) = length s
  /\ no_char (ch "_") (title_case up start s) = true
  /\ ascii_text (title_case up start s) = true.
Proof.
  revert start; induction s as [|c s IH]; intros start H.
  - repeat split.
  - rewrite ascii_text_cons in H. apply andb_true_iff in H as [Hc Hs].
    cbn [title_case]. destruct (N.eqb (ch "_") c) eqn:U.
    + destruct (IH true Hs) as (E & L & N & A).
      split; [now rewrite E|]. split; [cbn [length]; now rewrite L|].
      split; [|rewrite ascii_text_cons; now rewrite A].
      change (ch " " :: title_case up true s)
        with ([ch " "] ++ title_case up true s).
      now rewrite no_char_app, N.
    + destruct (IH false Hs) as (E & L & N & A).
      unfold toUpperCase_unit. rewrite Hc.
      split; [now rewrite E|].
      assert (X : forall x : char,
                  N.eqb (ch "_") x = false -> (x <? 128)%N = true ->
                  length ([x] ++ title_case up false s) = S (length s)
                  /\ no_char (ch "_") ([x] ++ title_case up false s) = true
                  /\ ascii_text ([x] ++ title_case up false s) = true).
      { intros x Hx Ax. split; [cbn [app length]; now rewrite L|]. split.
        - rewrite no_char_app, N. unfold no_char. cbn [existsb].
          now rewrite Hx.
        - cbn [app]. now rewrite ascii_text_cons, Ax, A. }
      destruct start; apply X; auto using upper_ascii_underscore,
        upper_ascii_ascii.
Qed.

(** A second pass changes nothing, when it upper-cases at its start only
    if the first pass did. *)
Lemma title_case_twice (up : char -> jsstring) (again start : bool)
  (s : jsstring) :
  ascii_text s = true -> implb again start = true ->
  title_case up again (title_case up start s) = title_case up start s.
Proof.
  revert again start; induction s as [|c s IH];
    intros again start H I; [reflexivity|].
  rewrite ascii_text_cons in H. apply andb_true_iff in H as [Hc Hs].
  cbn [title_case]. destruct (N.eqb (ch "_") c) eqn:U.
  - cbn [title_case]. change (N.eqb (ch "_") (ch " ")) with false. cbn iota.
    rewrite (IH false true Hs eq_refl).
    unfold toUpperCase_unit. destruct again; reflexivity.
  - unfold toUpperCase_unit. rewrite Hc.
    destruct start; cbn [app title_case].
    + rewrite (upper_ascii_underscore c U).
      unfold toUpperCase_unit. rewrite (upper_ascii_ascii c Hc).
      rewrite upper_ascii_idem, (IH false false Hs eq_refl).
      destruct again; reflexivity.
    + rewrite U. destruct again; [discriminate|].
      now rewrite (IH false false Hs eq_refl).
Qed.

(** X20.  On a key of ASCII code units, as the keys of the metrics are, the
    name has the length of the key and no underscore, does not depend on the
    Unicode tables, and formatting it again changes nothing. *)
Theorem formatMetricName_on_ascii_keys (up : char -> jsstring)
  (name : jsstring) :
  ascii_text name = true ->
  length (formatMetricName up name) = length name
  /\ no_char (ch "_") (formatMetricName up name) = true
  /\ (forall up', formatMetricName up' name = formatMetricName up name)
  /\ formatMetricName up (formatMetricName up name) = formatMetricName up name.
Proof.
  intros H.
  assert (E : forall u n, formatMetricName u n = title_case u true n).
  { intros u n. unfold formatMetricName, split.
    apply (split_go_underscore u n []). }
  rewrite !E.
  destruct (title_case_ascii up up true name H) as (_ & L & N & A).
  split; [exact L|]. split; [exact N|]. split.
  - intros up'. rewrite E. apply (title_case_ascii up' up true name H).
  - now apply title_case_twice.
Qed.

Lemma formatMetricName_on_ascii_keys_witness :
  let up := fun c : char => [c] in
  length (formatMetricName up (lit "edge_angle__max"))
  = length (lit "edge_angle__max")
  /\ formatMetricName up (lit "edge_angle__max") = lit "Edge Angle  Max".
Proof.
  intros up.
  destruct (formatMetricName_on_ascii_keys up (lit "edge_angle__max") eq_refl)
    as (L & _). split; [exact L|reflexivity].
Defined.

(** * The files that are kept *)

Lemma check_file_accepted (acc : checked) (file : File.t) :
  accepted file = true ->
  check_file acc file = Checked (validFiles acc ++ [file]) (errors acc).
Proof.
  unfold accepted, check_file. intros H.
  apply andb_true_iff in H as [Ht Hs]. rewrite Ht. cbn [negb].
  apply N.leb_le in Hs.
  destruct (5 * 1024 * 1024 <? File.size file)%N eqn:E; [|reflexivity].
  apply N.ltb_lt in E. change (5 * 1024 * 1024)%N with 5242880%N in E. lia.
Qed.

Lemma check_file_rejected (acc : checked) (file : File.t) :
  accepted file = false ->
  check_file acc file
  = Checked (validFiles acc) (errors acc ++ [rejection file]).
Proof.
  unfold accepted, check_file, rejection. intros H.
  destruct (array_includes validTypes (File.type file)); [|reflexivity].
  cbn [andb negb] in *. apply N.leb_gt in H.
  destruct (5 * 1024 * 1024 <? File.size file)%N eqn:E; [reflexivity|].
  apply N.ltb_ge in E. change (5 * 1024 * 1024)%N with 5242880%N in E. lia.
Qed.

Lemma check_files (files : list File.t) (acc : checked) :
  fold_left check_file files acc
  = Checked (validFiles acc ++ filter accepted files)
      (errors acc ++ map rejection (filter rejected files)).
Proof.
  revert acc; induction files as [|f files IH]; intros acc.
  - cbn. rewrite !app_nil_r. now destruct acc.
  - cbn [fold_left filter]. rewrite IH. unfold rejected at 2.
    destruct (accepted f) eqn:A; cbn [negb map].
    + rewrite check_file_accepted by exact A. cbn [validFiles errors].
      now rewrite <- app_assoc.
    + rewrite check_file_rejected by exact A. cbn [validFiles errors].
      now rewrite <- app_assoc.
Qed.

Lemma filter_rejected_nil (files : list File.t) :
  filter rejected files = [] <-> forallb accepted files = true.
Proof.
  induction files as [|f files IH]; [now split|].
  cbn [filter forallb]. unfold rejected at 1.
  destruct (accepted f); cbn [negb andb]; [exact IH|].
  split; discriminate.
Qed.

(** X21.  The files are sorted one by one, none is lost and none stops the
    others: the files kept are those with a valid type and at most five
    megabytes, in their order; every other file gives one error, which names
    the type when the type is wrong, whatever the size; and the error set is
    [null] exactly when every file is kept. *)
Theorem processFiles_sorts_the_files (files : list File.t) :
  let (c, err) := processFiles files in
  validFiles c = filter accepted files
  /\ errors c = map rejection (filter rejected files)
  /\ length (validFiles c) + length (errors c) = length files
  /\ (err = None <-> forallb accepted files = true).
Proof.
  unfold processFiles. rewrite check_files. cbn [validFiles errors app].
  split; [reflexivity|]. split; [reflexivity|]. split.
  - rewrite length_map. unfold rejected.
    induction files as [|f files IH]; [reflexivity|].
    cbn [filter]. destruct (accepted f); cbn [negb length]; lia.
  - rewrite <- filter_rejected_nil. unfold error_shown.
    destruct (filter rejected files); cbn; split; congruence.
Qed.

(** * The progress logs and the local storage *)

Section LogsProofs.

Context {Log : Type}.
Variable id : Log -> jsstring.
Variable stringify : list Log -> jsstring.

Lemma save_effect_logs (st : log_state Log) :
  progressLogs (save_effect stringify st) = progressLogs st
  /\ selectedLogForComparison (save_effect stringify st)
     = selectedLogForComparison st.
Proof.
  unfold save_effect. destruct (0 <? length (progressLogs st)); now split.
Qed.

Lemma other_id_In (logId : jsstring) (logs : list Log) (l : Log) :
  In (id l) (map id logs) -> str_eqb (id l) logId = false ->
  In (id l) (map id (filter (other_id id logId) logs)).
Proof.
  intros Hin Hne. apply in_map_iff in Hin as (x & E & Hx).
  apply in_map_iff. exists x. split; [exact E|].
  apply filter_In. split; [exact Hx|]. unfold other_id. now rewrite E, Hne.
Qed.

(** X22.  Deleting a log.  No log with the deleted [id] is left, and the other
    logs stay, in their order.  Once the effect has run, the local storage
    holds the logs that are left, and nothing when none is left: the effect
    alone would leave the last log in the storage, since it writes only when
    there is a log.  The selection for the comparison is cleared when it had
    the deleted [id]; when it was one of the logs it still is. *)
Theorem deleting_a_log_keeps_the_storage_in_step
  (logId : jsstring) (st : log_state Log) :
  let st' := save_effect stringify (deleteProgressLog id logId st) in
  progressLogs st' = filter (other_id id logId) (progressLogs st)
  /\ ~ In logId (map id (progressLogs st'))
  /\ mirrored stringify st'
  /\ (selection_listed id st -> selection_listed id st').
Proof.
  cbn zeta.
  destruct (save_effect_logs (deleteProgressLog id logId st)) as [L S].
  split; [exact L|]. split; [|split].
  - rewrite L. cbn [deleteProgressLog progressLogs]. intros Hin.
    apply in_map_iff in Hin as (x & E & Hx).
    apply filter_In in Hx as [_ Hx]. unfold other_id in Hx.
    now rewrite E, str_eqb_refl in Hx.
  - unfold mirrored, save_effect, deleteProgressLog.
    cbn [progressLogs stored selectedLogForComparison].
    destruct (filter (other_id id logId) (progressLogs st)); reflexivity.
  - unfold selection_listed. rewrite L, S.
    cbn [deleteProgressLog progressLogs selectedLogForComparison].
    destruct (selectedLogForComparison st) as [l|]; [|trivial].
    destruct (str_eqb (id l) logId) eqn:E; [trivial|].
    intros Hin. now apply other_id_In.
Qed.

End LogsProofs.

Lemma deleting_a_log_keeps_the_storage_in_step_witness :
  let id := fun l : jsstring * nat => fst l in
  let stringify := fun logs : list (jsstring * nat) =>
                     flat_map (fun l => fst l ++ lit ";") logs in
  let st := LogState [(lit "log-1", 120); (lit "log-2", 125)]
              (Some (lit "log-1", 120)) (Some (lit "log-1;log-2;")) in
  let st1 := save_effect stringify (deleteProgressLog id (lit "log-2") st) in
  let st2 := save_effect stringify (deleteProgressLog id (lit "log-1") st1) in
  (mirrored stringify st1 /\ stored st1 = Some (lit "log-1;")
   /\ selectedLogForComparison st1 = Some (lit "log-1", 120))
  /\ (mirrored stringify st2 /\ stored st2 = None
      /\ selectedLogForComparison st2 = None).
Proof.
  intros id stringify st st1 st2. split.
  - split; [|split; reflexivity].
    apply (deleting_a_log_keeps_the_storage_in_step id stringify
             (lit "log-2") st).
  - split; [|split; reflexivity].
    apply (deleting_a_log_keeps_the_storage_in_step id stringify
             (lit "log-1") st1).
Defined.

(** * Labels in bold *)

Lemma unbold_plain (s : jsstring) : no_star s = true -> unbold s = s.
Proof.
  induction s as [|c s IH]; [reflexivity|].
  intros H. apply no_star_cons in H as [Hc Hs].
  destruct s as [|d u]; [reflexivity|].
  rewrite unbold_cons. assert (E : N.eqb 42 c = false).
  { apply N.eqb_neq. intros E. apply Hc. now rewrite <- E. }
  rewrite E. cbn [andb]. f_equal. exact (IH Hs).
Qed.

Lemma unbold_app_stars (a b : jsstring) :
  no_star a = true -> unbold (a ++ lit "**" ++ b) = a ++ unbold b.
Proof.
  change (lit "**" ++ b) with (42%N :: 42%N :: b).
  induction a as [|c a IH]; intros H.
  - cbn [app]. now rewrite unbold_cons.
  - apply no_star_cons in H as [Hc Ha].
    assert (E : N.eqb 42 c = false).
    { apply N.eqb_neq. intros E. apply Hc. now rewrite <- E. }
    cbn [app]. destruct (a ++ 42%N :: 42%N :: b) as [|d u] eqn:X.
    + destruct a; discriminate.
    + rewrite unbold_cons, E. cbn [andb app]. f_equal. exact (IH Ha).
Qed.

Lemma re_replace_dash (t : jsstring) :
  re_replace (ch "-" :: t) re_dash [] = trimStart t.
Proof.
  unfold re_replace. cbn [search].
  unfold match_at, re_dash. cbn [re_icase re_body Seqs rmatch m_pos m_rest
    m_caps Nat.eqb char_matches]. rewrite N.eqb_refl.
  destruct (star_greedy_spaces t 1 []) as (n & ->). reflexivity.
Qed.

Lemma unbold_stars (b : jsstring) : unbold (lit "**" ++ b) = unbold b.
Proof. exact (unbold_app_stars [] b eq_refl). Qed.

(** The cleaned line of a label in bold: the dash and the markers gone. *)
Lemma clean_line_bold_label (inside : bool) (label value : jsstring) :
  no_star label = true -> no_star value = true ->
  clean_line (bold_label_line inside label value)
  = label ++ lit ":" ++ lit " " ++ value.
Proof.
  intros Hl Hv. unfold clean_line, bold_label_line.
  set (X := label ++ (if inside then lit ":** " else lit "**: ") ++ value).
  change (lit "- **" ++ X) with (ch "-" :: ch " " :: lit "**" ++ X).
  rewrite re_replace_dash.
  change (trimStart (ch " " :: lit "**" ++ X)) with (lit "**" ++ X).
  rewrite strip_bold_unbold, unbold_stars. unfold X.
  assert (Hc : no_star (lit ":" ++ lit " " ++ value) = true).
  { unfold no_star in *. now rewrite !no_char_app, Hv. }
  destruct inside.
  - change (label ++ lit ":** " ++ value)
      with (label ++ lit ":" ++ lit "**" ++ lit " " ++ value).
    rewrite app_assoc, unbold_app_stars.
    + rewrite unbold_plain; [now rewrite <- app_assoc|].
      unfold no_star in *. now rewrite no_char_app, Hv.
    + unfold no_star in *. now rewrite no_char_app, Hl.
  - change (label ++ lit "**: " ++ value)
      with (label ++ lit "**" ++ lit ":" ++ lit " " ++ value).
    rewrite unbold_app_stars by exact Hl.
    now rewrite unbold_plain.
Qed.

Lemma indexOf_from_colon (a b : jsstring) (i : Z) :
  no_char (ch ":") a = true ->
  indexOf_from (a ++ ch ":" :: b) (lit ":") i = (i + Z.of_nat (length a))%Z.
Proof.
  change (lit ":") with [ch ":"].
  revert i; induction a as [|c a IH]; intros i H.
  - cbn [app indexOf_from startsWith]. rewrite N.eqb_refl. cbn. lia.
  - change (c :: a) with ([c] ++ a) in H. rewrite no_char_app in H.
    apply andb_true_iff in H as [Hc Ha].
    unfold no_char in Hc. cbn [existsb] in Hc. rewrite orb_false_r in Hc.
    apply negb_true_iff in Hc.
    cbn [app indexOf_from startsWith]. rewrite Hc. cbn [andb].
    rewrite IH by exact Ha. cbn [length]. lia.
Qed.

Lemma label_and_value (a b : jsstring) :
  no_char (ch ":") a = true ->
  label_of (a ++ ch ":" :: b) = toLowerCase a
  /\ value_of (a ++ ch ":" :: b) = trim b.
Proof.
  intros H. unfold label_of, value_of, indexOf.
  rewrite (indexOf_from_colon a b 0 H). cbn [Z.add].
  unfold substring, substring_from, clamp.
  rewrite length_app. cbn [length Z.to_nat].
  rewrite Nat2Z.id.
  replace (Z.to_nat (Z.of_nat (length a) + 1)) with (S (length a)) by lia.
  rewrite !Nat.min_l by lia. cbn [Nat.min Nat.max].
  rewrite Nat.sub_0_r. cbn [skipn].
  rewrite firstn_length_app. split; [reflexivity|].
  f_equal. clear H. induction a as [|c a IH]; [reflexivity|exact IH].
Qed.

(** X14.  A line with its label in bold, as [- **Execution**: roll the knees]
    or [- **Execution:** roll the knees], gives its value to the fields whose
    words the label contains, whatever its case, and its value is the text
    after the label, trimmed. *)
Theorem labelled_line_in_bold (needle label value : jsstring) (inside : bool) :
  no_star label = true -> no_char (ch ":") label = true ->
  no_star value = true ->
  labelled_line needle (bold_label_line inside label value)
  = includes (toLowerCase label) needle
  /\ line_value (bold_label_line inside label value) = trim value.
Proof.
  intros Hl Hc Hv. unfold labelled_line, line_value.
  rewrite (clean_line_bold_label inside label value Hl Hv).
  destruct (label_and_value label (lit " " ++ value) Hc) as [L V].
  change (label ++ lit ":" ++ lit " " ++ value)
    with (label ++ ch ":" :: lit " " ++ value).
  rewrite L, V. split.
  - replace (includes (bold_label_line inside label value) (lit ":"))
      with true; [reflexivity|].
    symmetry. change (lit ":") with [ch ":"]. apply includes_char_true.
    unfold bold_label_line. apply in_or_app. right. apply in_or_app. right.
    apply in_or_app. left. destruct inside; cbn; auto.
  - apply (trim_indent 1).
Qed.

Lemma labelled_line_in_bold_witness :
  labelled_line (lit "execution")
    (bold_label_line true (lit "Execution") (lit "roll both knees: slowly "))
  = true
  /\ line_value
       (bold_label_line true (lit "Execution") (lit "roll both knees: slowly "))
     = lit "roll both knees: slowly".
Proof.
  apply (labelled_line_in_bold (lit "execution") (lit "Execution")
           (lit "roll both knees: slowly ") true); reflexivity.
Defined.

(** * The name of a priority *)

Lemma priority_line_name (p : Priority.t) (l : jsstring) :
  Priority.name (priority_line p l)
  = if negb (truthy (Priority.name p)) && naming_line l
    then heading_name l else Priority.name p.
Proof.
  unfold priority_line, naming_line, heading_name.
  destruct (includes l (lit "Current:") && includes l [ARROW]);
    [destruct (re_match l re_current) as [[m caps]|]|];
    destruct (includes l (lit ":")); cbn [Priority.name andb];
    rewrite ?andb_false_r; try reflexivity;
    destruct (negb (truthy (Priority.name p))); reflexivity.
Qed.

Lemma priority_lines_name (ls : list jsstring) (p : Priority.t) :
  Priority.name (fold_left priority_line ls p)
  = if truthy (Priority.name p) then Priority.name p
    else first_named (map heading_name (filter naming_line ls)).
Proof.
  revert p; induction ls as [|l ls IH]; intros p.
  - cbn [fold_left filter map first_named].
    now destruct (Priority.name p).
  - cbn [fold_left filter]. rewrite IH, priority_line_name.
    destruct (truthy (Priority.name p)) eqn:T; cbn [negb andb].
    + now rewrite T.
    + destruct (naming_line l); cbn [map first_named].
      * now destruct (truthy (heading_name l)).
      * now rewrite T.
Qed.

Lemma no_subheading_naming (ls : list jsstring) :
  no_subheading ls = true -> filter naming_line ls = [].
Proof.
  induction ls as [|l ls IH]; [reflexivity|].
  unfold no_subheading. cbn [forallb filter]. intros H.
  apply andb_true_iff in H as [Hl Hs]. apply negb_true_iff in Hl.
  unfold naming_line at 1. rewrite Hl, andb_false_r. now apply IH.
Qed.

(** X10.  The name of a priority.  Inside the loop only a line that starts
    with three hashes and holds a colon can name the priority, and the first
    such line whose name is not empty does: the line without its first three
    hashes and its texts in square brackets, trimmed.  A block cut at the
    priority headings can hold such a line, a sub-heading of another kind.
    When no line names the priority in the loop, its name is read from the
    first line of the block that is not blank: that line without colons,
    square brackets, hashes and stars, trimmed. *)
Theorem priority_name_of_its_block (block : jsstring) :
  let lines := filter nonblank (lines_of block) in
  Priority.name (priority_block block) = priority_name_of lines
  /\ (no_subheading lines = true ->
      Priority.name (priority_block block) = first_line_name lines).
Proof.
  cbn zeta.
  assert (E : Priority.name (priority_block block)
              = priority_name_of (filter nonblank (lines_of block))).
  { unfold priority_block, priority_name_of.
    pose proof (priority_lines_name (filter nonblank (lines_of block))
                  Priority.empty) as N.
    cbn [Priority.empty Priority.name truthy] in N.
    destruct (filter nonblank (lines_of block)) as [|first rest] eqn:F.
    - rewrite N. reflexivity.
    - assert (T : truthy first = true).
      { assert (Hin : In first (filter nonblank (lines_of block)))
          by (rewrite F; now left).
        apply filter_In in Hin as [_ Hin]. unfold nonblank in Hin.
        destruct first; [discriminate|reflexivity]. }
      rewrite T, andb_true_r.
      destruct (fold_left priority_line (first :: rest) Priority.empty)
        as [nm cu ta dr te de] eqn:P.
      cbn [Priority.name] in N. subst nm.
      destruct (first_named
                  (map heading_name (filter naming_line (first :: rest))))
        as [|c n]; cbn [truthy negb Priority.name]; [|reflexivity].
      unfold first_line_name, re_replace_all, re_punct.
      now rewrite replace_go_class, flat_map_filter. }
  split; [exact E|].
  intros H. rewrite E. unfold priority_name_of.
  now rewrite (no_subheading_naming _ H).
Qed.

Lemma priority_name_of_its_block_witness :
  Priority.name
    (priority_block
       (text_of [lit ": Edge Angle [HIGH]"; []; lit "- **Drill**: Railroad";
                 lit "Current: 45 " ++ [ARROW] ++ lit " 60"]))
  = lit "Edge Angle HIGH"
  /\ Priority.name
       (priority_block
          (text_of [lit ": Edge Angle [HIGH]"; lit "### Tips";
                    lit "### [later: maybe]"; lit "### Notes: see [draft] below";
                    lit "### Other: x"]))
     = lit "Notes: see  below".
Proof.
  split.
  - rewrite (proj2 (priority_name_of_its_block
               (text_of [lit ": Edge Angle [HIGH]"; [];
                         lit "- **Drill**: Railroad";
                         lit "Current: 45 " ++ [ARROW] ++ lit " 60"])));
      reflexivity.
  - rewrite (proj1 (priority_name_of_its_block
               (text_of [lit ": Edge Angle [HIGH]"; lit "### Tips";
                         lit "### [later: maybe]"; lit "### Notes: see [draft] below";
                         lit "### Other: x"]))).
    reflexivity.
Defined.

(** * The phase of a run *)

Lemma match_phase_other (pos : nat) (c : char) (t : jsstring) :
  c <> ch ":" -> match_at re_phase pos (c :: t) = None.
Proof.
  intros H. unfold match_at, re_phase.
  cbn [re_icase re_body Seqs rmatch m_rest].
  now rewrite (char_matches_low c (ch ":") eq_refl H).
Qed.

Lemma range_no_colon (n : jsstring) :
  range n = true -> no_char (ch ":") n = true.
Proof.
  unfold range. intros H. apply andb_true_iff in H as [_ H].
  apply no_char_In. intros Hin. rewrite forallb_forall in H.
  specialize (H _ Hin). discriminate.
Qed.

Lemma trim_trimStart (s : jsstring) : trim (trimStart s) = trim s.
Proof. unfold trim. now rewrite trimStart_idem. Qed.

Lemma nonblank_trimStart (s : jsstring) :
  nonblank s = true -> exists c t, trimStart s = c :: t.
Proof.
  unfold nonblank, trim, trimEnd. intros H.
  destruct (trimStart s) as [|c t]; [discriminate|]. now exists c, t.
Qed.

(** The phase that an entry takes from its header. *)
Lemma run_header_phase (n ph : jsstring) :
  range n = true -> no_star ph = true -> nonblank ph = true ->
  exists m caps,
    re_match (run_header n (lit ":" ++ ph)) re_phase = Some (m, caps)
    /\ trim (cap 1 caps) = trim ph.
Proof.
  intros Hn Hs Hb.
  destruct (trimStart_split ph) as (sp & E & Hsp & Hc).
  destruct (nonblank_trimStart ph Hb) as (c & t & T).
  rewrite <- (trim_trimStart ph). rewrite T in *.
  assert (Hst : no_star (c :: t) = true).
  { unfold no_star in *. rewrite E, no_char_app in Hs.
    now apply andb_true_iff in Hs as [_ Hs]. }
  apply no_star_cons in Hst as [Hcs Hts].
  assert (M : exists e,
             match_at re_phase (length (lit "**Run " ++ n) + 0)
               (ch ":" :: sp ++ (c :: t) ++ lit "**")
             = Some (MState e (lit "**") [(1, c :: t)])).
  { eexists. unfold match_at, re_phase.
    cbn [re_icase re_body Seqs rmatch m_rest m_pos m_caps].
    rewrite char_matches_refl.
    erewrite (star_greedy_run is_space _ [] sp ((c :: t) ++ lit "**"));
      [reflexivity|exact Hsp|exact Hc|].
    unfold Plus. cbn [rmatch app m_rest m_pos m_caps].
    assert (Nc : not_star c = true).
    { unfold not_star, is_ch. apply negb_true_iff. now apply N.eqb_neq. }
    rewrite Nc.
    erewrite (star_greedy_run not_star _ [] t (lit "**"));
      [reflexivity|now apply no_star_forallb|reflexivity|].
    unfold set_cap. cbn [m_caps m_pos m_rest].
    match goal with
    | |- context [firstn ?k _] =>
        replace k with (length (c :: t)) by (cbn [length]; lia)
    end.
    change (c :: t ++ lit "**") with ((c :: t) ++ lit "**").
    rewrite (firstn_length_app (c :: t)). reflexivity. }
  destruct M as (e & M).
  unfold re_match, run_header.
  replace (lit "**Run " ++ n ++ (lit ":" ++ ph) ++ lit "**")
    with ((lit "**Run " ++ n) ++ ch ":" :: sp ++ (c :: t) ++ lit "**").
  - rewrite search_fails.
    + rewrite (search_here _ _ _ _ M). do 2 eexists.
      split; [reflexivity|]. reflexivity.
    + apply (fails_within_no_char _ (ch ":"));
        [intros pos x y; apply match_phase_other|].
      rewrite no_char_app, (range_no_colon n Hn). reflexivity.
  - rewrite E. rewrite <- !app_assoc. reflexivity.
Qed.

Lemma phased_run_ok (n ph b : jsstring) :
  run_ok (phased_run (n, ph, b)) = true ->
  range n = true /\ no_star ph = true.
Proof.
  cbn [phased_run]. intros H.
  destruct (run_ok_parts n (lit ":" ++ ph) b H) as (Hn & Hs & _).
  split; [exact Hn|]. unfold no_star in *.
  rewrite no_char_app in Hs. now apply andb_true_iff in Hs as [_ Hs].
Qed.

Lemma run_entries_phases (B : list jsstring)
  (runs : list (jsstring * jsstring * jsstring)) (i : nat) :
  forallb run_ok (map phased_run runs) = true ->
  forallb phase_ok runs = true ->
  map Run.phase
    (mapi_from (run_entry B)
       (map (fun r => let '(n, t, _) := r in run_header n t)
          (map phased_run runs)) i)
  = map (fun r => trim (run_phase r)) runs.
Proof.
  revert i; induction runs as [|[[n ph] b] runs IH]; intros i Hr Hp;
    [reflexivity|].
  cbn [map forallb] in Hr, Hp.
  apply andb_true_iff in Hr as [Hr1 Hrs].
  apply andb_true_iff in Hp as [Hp1 Hps].
  destruct (phased_run_ok n ph b Hr1) as [Hn Hs].
  cbn [map mapi_from run_phase]. rewrite (IH _ Hrs Hps). f_equal.
  destruct (run_header_phase n ph Hn Hs Hp1) as (m & caps & E & C).
  unfold run_entry. cbn [Run.phase phased_run]. now rewrite E.
Qed.

(** X16.  The phase of a run comes from its own header, whatever happens to
    its details: in a body made of runs whose headers end with a colon and a
    phase that is not blank, the i-th entry has the phase of the i-th header,
    the text after the colon, trimmed. *)
Theorem run_phase_comes_from_its_own_header (pre : jsstring)
  (runs : list (jsstring * jsstring * jsstring)) :
  no_star pre = true -> forallb run_ok (map phased_run runs) = true ->
  forallb phase_ok runs = true ->
  map Run.phase (dailyPlanOf (runs_doc pre (map phased_run runs)))
  = map (fun r => trim (run_phase r)) runs.
Proof.
  intros Hp Hr Hph. unfold dailyPlanOf, mapi.
  rewrite (re_match_all_runs pre _ Hp Hr).
  now apply run_entries_phases.
Qed.

Lemma run_phase_comes_from_its_own_header_witness :
  map Run.phase
    (dailyPlanOf
       (runs_doc []
          (map phased_run
             [(lit "1-2", lit " Warm up ", [LF] ++ lit "- easy" ++ [LF]);
              (lit "3", lit "Carve: long turns", [LF] ++ lit "- edge")])))
  = [lit "Warm up"; lit "Carve: long turns"].
Proof.
  apply (run_phase_comes_from_its_own_header []
           [(lit "1-2", lit " Warm up ", [LF] ++ lit "- easy" ++ [LF]);
            (lit "3", lit "Carve: long turns", [LF] ++ lit "- edge")]);
    reflexivity.
Defined.

(** * The order of the keys *)

Lemma startsWith_incl (s p : jsstring) (c : char) :
  startsWith s p = true -> In c p -> In c s.
Proof.
  revert s; induction p as [|x p IH]; intros s H Hin; [contradiction|].
  destruct s as [|y s]; [discriminate|].
  cbn [startsWith] in H. apply andb_true_iff in H as [Hx Hp].
  apply N.eqb_eq in Hx. subst y.
  destruct Hin as [<-|Hin]; [now left|right; now apply IH].
Qed.

(** A text that contains a needle contains its code units. *)
Lemma includes_incl (l p : jsstring) (c : char) :
  includes l p = true -> In c p -> In c l.
Proof.
  induction l as [|x l IH]; cbn [includes]; intros H Hin.
  - rewrite orb_false_r in H. now apply (startsWith_incl [] p).
  - apply orb_true_iff in H as [H|H].
    + now apply (startsWith_incl (x :: l) p).
    + right. now apply IH.
Qed.

Lemma includes_digits (k needle : jsstring) :
  forallb is_digit k = true ->
  existsb (fun c => negb (is_digit c)) needle = true ->
  includes k needle = false.
Proof.
  intros Hk Hn. destruct (includes k needle) eqn:E; [|reflexivity].
  apply existsb_exists in Hn as (c & Hc & Hd).
  pose proof (includes_incl k needle c E Hc) as Hin.
  rewrite forallb_forall in Hk. rewrite (Hk c Hin) in Hd. discriminate.
Qed.

Lemma toLowerCase_digits (k : jsstring) :
  forallb is_digit k = true -> toLowerCase k = k.
Proof.
  induction k as [|c k IH]; [reflexivity|].
  cbn [forallb]. intros H. apply andb_true_iff in H as [Hc Hk].
  unfold toLowerCase in *. cbn [flat_map]. rewrite (IH Hk).
  unfold lower_char, is_digit in *.
  destruct ((65 <=? c) && (c <=? 90))%N eqn:A; [bools; lia|].
  destruct (c =? 8490)%N eqn:B; [bools; lia|].
  destruct (c =? 304)%N eqn:C; [bools; lia|reflexivity].
Qed.

Lemma array_index_digits (k : jsstring) (n : N) :
  array_index k = Some n -> forallb is_digit k = true.
Proof.
  unfold array_index. destruct k as [|c t]; [discriminate|].
  destruct (forallb is_digit (c :: t)); [reflexivity|discriminate].
Qed.

(** A heading made of digits is selected by no predicate: every needle
    holds a code unit that is no digit. *)
Lemma digits_unselected (k : jsstring) (f : field) :
  forallb is_digit k = true -> predicate f (toLowerCase k) = false.
Proof.
  intros H. rewrite (toLowerCase_digits k H).
  destruct f; cbn [predicate]; unfold is_big_picture, is_immediate_focus,
    is_week_plan, is_strengths, is_drills, is_daily_plan, is_weekly_schedule,
    is_progression, is_session_plan, is_checkpoints, is_mental_cues, is_traps;
    repeat match goal with
      | |- context [includes k ?n] => rewrite (includes_digits k n H eq_refl)
      end; reflexivity.
Qed.

(** A key that no predicate selects leaves the plan as it is. *)
Lemma classify_unselected (s : Sections) (k : jsstring) :
  (forall f, predicate f (toLowerCase k) = false) -> classify s k = s.
Proof.
  intros H. unfold classify.
  pose proof (H FBigPicture) as H1. pose proof (H FImmediateFocus) as H2.
  pose proof (H FWeekPlan) as H3. pose proof (H FStrengths) as H4.
  pose proof (H FDrills) as H5. pose proof (H FDailyPlan) as H6.
  pose proof (H FWeeklySchedule) as H7. pose proof (H FProgression) as H8.
  pose proof (H FSessionPlan) as H9. pose proof (H FCheckpoints) as H10.
  pose proof (H FMentalCues) as H11. pose proof (H FTraps) as H12.
  cbn [predicate] in *.
  rewrite H1, H2, H3, H4, H5, H6, H7, H8, H9, H10, H11, H12.
  now destruct s.
Qed.

Lemma classify_index_keys (keys : list jsstring) (s : Sections) :
  Forall (fun k => forallb is_digit k = true) keys ->
  fold_left classify keys s = s.
Proof.
  intros H. revert s. induction H as [|k keys Hk _ IH]; intros s;
    [reflexivity|].
  cbn [fold_left]. rewrite classify_unselected; [apply IH|].
  intros f. now apply digits_unselected.
Qed.

Lemma insert_index_In (x y : N * jsstring) (l : list (N * jsstring)) :
  In y (insert_index x l) -> y = x \/ In y l.
Proof.
  induction l as [|z l IH]; cbn [insert_index].
  - intros [<-|[]]. now left.
  - destruct (fst x <=? fst z)%N.
    + intros [<-|H]; [now left|now right].
    + intros [<-|H]; [right; now left|].
      destruct (IH H) as [->|H']; [now left|right; now right].
Qed.

Lemma index_keys_digits (keys : list jsstring) :
  Forall (fun k => forallb is_digit k = true) (map snd (index_keys keys)).
Proof.
  apply Forall_forall. intros k Hin. apply in_map_iff in Hin as ([n k'] & <- & Hin).
  cbn [snd]. induction keys as [|k0 keys IH]; [contradiction|].
  cbn [index_keys fold_right] in Hin. fold (index_keys keys) in Hin.
  destruct (array_index k0) as [n0|] eqn:E; [|now apply IH].
  apply insert_index_In in Hin as [Hin|Hin]; [|now apply IH].
  injection Hin as -> ->. now apply (array_index_digits k0 n0).
Qed.

Lemma classify_other_keys (keys : list jsstring) (s : Sections) :
  fold_left classify
    (filter (fun k => match array_index k with
                      | Some _ => false
                      | None => true
                      end) keys) s
  = fold_left classify keys s.
Proof.
  revert s; induction keys as [|k keys IH]; intros s; [reflexivity|].
  cbn [filter fold_left]. destruct (array_index k) as [n|] eqn:E.
  - rewrite IH. f_equal. symmetry. apply classify_unselected.
    intros f. apply digits_unselected. now apply (array_index_digits k n).
  - cbn [fold_left]. apply IH.
Qed.

(** X23.  The order in which [Object.keys] lists the headings does not
    show in the plan.  It lists first the headings that are array indices,
    such as [2024], in ascending order; these are made of digits, and no
    predicate selects them.  So the plan is what classifying the sections
    in the order in which their headings first appear in the text gives. *)
Theorem sections_are_read_in_the_order_of_the_text (text : jsstring)
  (p : Sections) :
  parseTrainingPlan text = Some p ->
  let s := scanned_sections (split text [LF]) in
  p = fold_left classify (map fst (rawSections s)) s.
Proof.
  intros H s. apply parse_some in H. subst p. unfold parse_lines.
  fold s. unfold object_keys. rewrite fold_left_app.
  rewrite (classify_index_keys _ s (index_keys_digits _)).
  apply classify_other_keys.
Qed.

Lemma sections_are_read_in_the_order_of_the_text_witness :
  let text := text_of [lit "## Checkpoints"; lit "- a"; lit "## 2024";
                       lit "- b"; lit "## 7"; lit "## Progress"; lit "- c"] in
  let s := scanned_sections (split text [LF]) in
  parse_lines (split text [LF])
  = fold_left classify (map fst (rawSections s)) s
  /\ object_keys (rawSections s)
     = [lit "7"; lit "2024"; lit "Checkpoints"; lit "Progress"].
Proof.
  intros text s. split; [|reflexivity].
  apply (sections_are_read_in_the_order_of_the_text text). reflexivity.
Defined.

(** * The details of a priority *)

Lemma priority_line_details (p : Priority.t) (l : jsstring) :
  Priority.details (priority_line p l) = Priority.details p ++ [strip_label l].
Proof.
  unfold priority_line.
  destruct (includes l (lit "Current:") && includes l [ARROW]);
    [destruct (re_match l re_current) as [[m caps]|]|];
    destruct (includes l (lit ":")); reflexivity.
Qed.

Lemma priority_lines_details (ls : list jsstring) (p : Priority.t) :
  Priority.details (fold_left priority_line ls p)
  = Priority.details p ++ map strip_label ls.
Proof.
  revert p; induction ls as [|l ls IH]; intros p.
  - cbn. now rewrite app_nil_r.
  - cbn [fold_left map]. rewrite IH, priority_line_details.
    now rewrite <- app_assoc.
Qed.

(** X24.  The details of a priority are the lines of its block that are
    not blank, all of them and in their order, the line that names the
    priority and the lines of its drill, terrain and scores included, each
    without its leading dash and its label in bold, trimmed. *)
Theorem priority_details_are_all_its_lines (block : jsstring) :
  Priority.details (priority_block block)
  = map strip_label (filter nonblank (lines_of block)).
Proof.
  unfold priority_block.
  pose proof (priority_lines_details (filter nonblank (lines_of block))
                Priority.empty) as D.
  cbn [Priority.empty Priority.details app] in D.
  destruct (filter nonblank (lines_of block)) as [|first rest]; [exact D|].
  match goal with
  | |- context [if ?c then _ else _] => destruct c
  end; exact D.
Qed.

(** * The order of the colours *)

(** The comparison of the numbers is transitive. *)
Lemma SFleb_trans (a b c : spec_float) :
  SFleb a b = true -> SFleb b c = true -> SFleb a c = true.
Proof.
  unfold SFleb.
  destruct a as [sa|sa| |sa ma ea], b as [sb|sb| |sb mb eb],
    c as [sc|sc| |sc mc ec]; cbn;
    try destruct sa; try destruct sb; try destruct sc; cbn;
    try reflexivity; try discriminate; try (intros; assumption).
  all: repeat match goal with
       | |- context [PosDef.Pos.compare_cont Eq ?x ?y] =>
           change (PosDef.Pos.compare_cont Eq x y) with (Pos.compare x y)
       end.
  all: destruct (Z.compare_spec ea eb), (Z.compare_spec eb ec),
         (Z.compare_spec ea ec); cbn;
       try reflexivity; try discriminate; try lia; subst.
  all: destruct (Pos.compare_spec ma mb), (Pos.compare_spec mb mc),
         (Pos.compare_spec ma mc); cbn;
       try reflexivity; try discriminate; try lia.
Qed.

Lemma ge_upwards (x y bound : float) :
  PrimFloat.leb x y = true -> ge x bound = true -> ge y bound = true.
Proof.
  unfold ge. rewrite !leb_spec. intros H1 H2.
  now apply (SFleb_trans _ (Prim2SF x)).
Qed.

(** X25.  The colour follows the score: of two numbers, the one that is
    not below the other never gets a worse colour, the colours going from
    [score-poor] through [score-medium] to [score-good]. *)
Theorem getScoreColor_is_monotone (x y : float) :
  PrimFloat.leb x y = true ->
  colour_rank (getScoreColor (Num x)) <= colour_rank (getScoreColor (Num y)).
Proof.
  intros H. cbn [getScoreColor].
  destruct (ge x 70%float) eqn:X70.
  - now rewrite (ge_upwards x y _ H X70).
  - destruct (ge x 50%float) eqn:X50.
    + rewrite (ge_upwards x y _ H X50).
      destruct (ge y 70%float); cbn; lia.
    + cbn. lia.
Qed.

Lemma getScoreColor_is_monotone_witness :
  colour_rank (getScoreColor (Num 49.5%float))
  <= colour_rank (getScoreColor (Num 69.5%float))
  /\ colour_rank (getScoreColor (Num 69.5%float))
     <= colour_rank (getScoreColor (Num 70%float)).
Proof.
  split.
  - apply (getScoreColor_is_monotone 49.5%float 69.5%float). reflexivity.
  - apply (getScoreColor_is_monotone 69.5%float 70%float). reflexivity.
Defined.

(** * The priorities of a section *)

Lemma priority_block_blank (b : jsstring) :
  nonblank b = false -> priority_block b = Priority.empty.
Proof. intros H. unfold priority_block. now rewrite (lines_of_blank b H). Qed.

Lemma priorities_of_all_blocks (blocks : list jsstring) :
  filter priority_kept (map priority_block (filter nonblank blocks))
  = filter priority_kept (map priority_block blocks).
Proof.
  induction blocks as [|b blocks IH]; [reflexivity|].
  cbn [filter map]. destruct (nonblank b) eqn:N.
  - cbn [map filter]. now rewrite IH.
  - rewrite (priority_block_blank b N). exact IH.
Qed.

Lemma priority_heading_word : word_ok (lit "Priority") = true.
Proof. reflexivity. Qed.

(** X26.  The priorities of a body cut by priority headings: one block for
    the text before the first heading and one for the text after each
    heading, each read on its own, and the priorities without name and
    drill dropped.  A text before the first heading that is not blank is a
    block like the others: its first line names a priority. *)
Theorem priorities_are_read_block_by_block (pre : jsstring)
  (blocks : list (jsstring * jsstring)) :
  no_hash pre = true -> forallb block_ok blocks = true ->
  weekPlanOf (subheading_doc (lit "Priority") pre blocks)
  = filter priority_kept (map priority_block (pre :: map snd blocks)).
Proof.
  intros Hp Hb. unfold weekPlanOf, re_priority.
  rewrite (re_split_subheading_doc (lit "Priority") priority_heading_word
             pre blocks Hp Hb).
  apply priorities_of_all_blocks.
Qed.

Lemma priorities_are_read_block_by_block_witness :
  let pre := lit "Focus on these two:" ++ [LF] in
  let blocks :=
    [(lit "1", lit ": Edge Angle" ++ [LF] ++ lit "Drill: Railroad" ++ [LF]);
     (lit "2", lit ": Balance")] in
  map Priority.name (weekPlanOf (subheading_doc (lit "Priority") pre blocks))
  = [lit "Focus on these two"; lit "Edge Angle"; lit "Balance"].
Proof.
  intros pre blocks.
  rewrite (priorities_are_read_block_by_block pre blocks); reflexivity.
Defined.

(** * Details with a label in bold *)

(** A lazy run stops where the continuation accepts. *)
Lemma star_lazy_here (p : char -> bool) (k : cont)
  (caps : list (nat * jsstring)) (pos : nat) (s : jsstring) (r : mstate) :
  k (MState pos s caps) = Some r -> star_lazy p k caps pos s = Some r.
Proof. intros H. destruct s; cbn [star_lazy]; now rewrite H. Qed.

(** The end of a label in bold: the two stars, with the colon before or
    after them, and the white space that follows. *)
Lemma boldlabel_end (inside : bool) (value : jsstring) (n : nat) :
  exists n',
    rmatch false
      (Seq (Str (lit "**")) (Seq (Opt (Lit (ch ":"))) (Star true is_space)))
      Some
      (MState n (lit "**" ++ (if inside then lit " " else lit ": ") ++ value)
         [])
    = Some (MState n' (trimStart value) []).
Proof.
  cbn [rmatch]. rewrite rmatch_Str_app.
  destruct inside.
  - change (lit " " ++ value) with (ch " " :: value).
    cbn [Opt rmatch m_rest m_pos m_caps char_matches].
    change (N.eqb (ch ":") (ch " ")) with false. cbn iota.
    cbn [star_greedy]. change (is_space (ch " ")) with true. cbn iota.
    destruct (star_greedy_spaces value (S (length (lit "**") + n)) [])
      as (n' & E).
    rewrite E. now exists n'.
  - change (lit ": " ++ value) with (ch ":" :: ch " " :: value).
    cbn [Opt rmatch m_rest m_pos m_caps char_matches].
    rewrite N.eqb_refl.
    cbn [star_greedy]. change (is_space (ch " ")) with true. cbn iota.
    destruct (star_greedy_spaces value (S (S (length (lit "**") + n))) [])
      as (n' & E).
    rewrite E. now exists n'.
Qed.

Lemma boldlabel_inside_other (c : char) (t : jsstring) (n : nat) :
  c <> ch "*" ->
  rmatch false
    (Seq (Str (lit "**")) (Seq (Opt (Lit (ch ":"))) (Star true is_space)))
    Some (MState n (c :: t) [])
  = None.
Proof.
  intros Hc. eval_lits. cbn [Str rmatch m_rest char_matches].
  assert (E : N.eqb 42 c = false)
    by (apply N.eqb_neq; intros E; apply Hc; now rewrite <- E).
  now rewrite E.
Qed.

Lemma match_boldlabel (inside : bool) (label value : jsstring) :
  forallb dot label = true -> no_star label = true ->
  exists n,
    match_at re_boldlabel 0
      (lit "**" ++ label ++ (if inside then lit ":** " else lit "**: ")
         ++ value)
    = Some (MState n (trimStart value) []).
Proof.
  intros Hd Hs. unfold match_at, re_boldlabel.
  cbn [re_icase re_body Seqs rmatch m_pos Nat.eqb].
  rewrite rmatch_Str_app. cbn [m_rest m_pos m_caps].
  apply no_char_In in Hs.
  destruct inside.
  - destruct (boldlabel_end true value
                (length (label ++ [ch ":"]) + (length (lit "**") + 0)))
      as (n & E).
    exists n.
    change (label ++ lit ":** " ++ value)
      with (label ++ [ch ":"] ++ lit "**" ++ lit " " ++ value).
    rewrite app_assoc, star_lazy_run.
    + now apply star_lazy_here.
    + rewrite forallb_app, Hd. reflexivity.
    + intros c t m Hin. apply boldlabel_inside_other.
      apply in_app_or in Hin as [Hin|[<-|[]]]; [|discriminate].
      intros ->. contradiction.
  - destruct (boldlabel_end false value
                (length label + (length (lit "**") + 0))) as (n & E).
    exists n.
    change (label ++ lit "**: " ++ value)
      with (label ++ lit "**" ++ lit ": " ++ value).
    rewrite star_lazy_run.
    + now apply star_lazy_here.
    + exact Hd.
    + intros c t m Hin. apply boldlabel_inside_other.
      intros ->. contradiction.
Qed.

(** X27.  A detail written with its label in bold, as
    [- **Drill**: Railroad tracks] or [- **Drill:** Railroad tracks], is
    kept without the dash and without the label: the detail is the text
    after the label, trimmed. *)
Theorem detail_drops_its_bold_label (inside : bool) (label value : jsstring) :
  forallb dot label = true -> no_star label = true ->
  strip_label (bold_label_line inside label value) = trim value.
Proof.
  intros Hd Hs. unfold strip_label, bold_label_line.
  set (X := label ++ (if inside then lit ":** " else lit "**: ") ++ value).
  change (lit "- **" ++ X) with (ch "-" :: ch " " :: lit "**" ++ X).
  rewrite re_replace_dash.
  change (trimStart (ch " " :: lit "**" ++ X)) with (lit "**" ++ X).
  unfold X, re_replace.
  destruct (match_boldlabel inside label value Hd Hs) as (n & M).
  rewrite (search_here _ _ _ _ M). cbn [firstn app m_rest].
  apply trim_trimStart.
Qed.

Lemma detail_drops_its_bold_label_witness :
  strip_label (bold_label_line false (lit "Drill") (lit " Railroad *tracks* "))
  = lit "Railroad *tracks*"
  /\ strip_label (bold_label_line true (lit "Why") (lit "more edge"))
     = lit "more edge".
Proof.
  split.
  - apply (detail_drops_its_bold_label false (lit "Drill")
             (lit " Railroad *tracks* ")); reflexivity.
  - apply (detail_drops_its_bold_label true (lit "Why") (lit "more edge"));
      reflexivity.
Defined.

(** * The week plan of two priority blocks *)

Lemma plain_single_body (before : list jsstring) (h : jsstring)
  (body : list jsstring) :
  plain (document before [(h, body)]) = true -> plain body = true.
Proof.
  intros Hp. unfold document in Hp.
  cbn [flat_map section_lines fst snd] in Hp.
  rewrite app_nil_r, plain_app in Hp. apply andb_true_iff in Hp as [_ Hp].
  cbn [plain forallb] in Hp. now apply andb_true_iff in Hp as [_ Hp].
Qed.

Lemma no_hash_lines (ls : list jsstring) :
  forallb no_hash ls = true ->
  no_heading ls = true /\ filter not_title ls = ls.
Proof.
  intros H. split.
  - unfold no_heading. apply forallb_forall. intros l Hl.
    rewrite forallb_forall in H.
    now destruct (no_hash_plain_line l (H l Hl)) as [-> _].
  - apply filter_all. apply forallb_forall. intros l Hl.
    rewrite forallb_forall in H. unfold not_title.
    now destruct (no_hash_plain_line l (H l Hl)) as [_ ->].
Qed.

(** The lines of a body of two priority blocks: the two heading lines
    apart, none holds a hash. *)
Lemma two_priorities_lines (pre : list jsstring)
  (n1 r1 d1 : jsstring) (ls1 : list jsstring)
  (n2 r2 d2 : jsstring) (ls2 : list jsstring) :
  let body := two_priorities pre n1 r1 ls1 n2 r2 ls2 in
  forallb no_hash pre = true ->
  priority_block_ok n1 r1 d1 ls1 = true ->
  priority_block_ok n2 r2 d2 ls2 = true ->
  no_heading body = true /\ body_text body = join body [LF].
Proof.
  intros body Hpre Hok1 Hok2.
  destruct (priority_block_ok_parts n1 r1 d1 ls1 Hok1)
    as (_ & _ & _ & _ & _ & Hls1 & _).
  destruct (priority_block_ok_parts n2 r2 d2 ls2 Hok2)
    as (_ & _ & _ & _ & _ & Hls2 & _).
  destruct (no_hash_lines pre Hpre) as [H0 T0].
  destruct (no_hash_lines ls1 Hls1) as [H1 T1].
  destruct (no_hash_lines ls2 Hls2) as [H2 T2].
  unfold body, two_priorities, body_text, no_heading in *. split.
  - rewrite forallb_app, H0. cbn [forallb andb].
    rewrite forallb_app, H1. cbn [forallb andb]. now rewrite H2.
  - f_equal. rewrite filter_app, T0. cbn [filter]. f_equal.
    change (not_title (subheading (lit "Priority") n1 ++ r1)) with true.
    cbn iota. f_equal. rewrite filter_app, T1. cbn [filter]. f_equal.
    change (not_title (subheading (lit "Priority") n2 ++ r2)) with true.
    cbn iota. now rewrite T2.
Qed.

(** What the rule of the week plan makes of a body of two priority blocks:
    the priority of the text before the first heading, when the filter
    keeps it, then the priorities of the two blocks. *)
Lemma two_priorities_week_plan (pre : list jsstring)
  (n1 r1 d1 : jsstring) (ls1 : list jsstring)
  (n2 r2 d2 : jsstring) (ls2 : list jsstring) :
  let body := two_priorities pre n1 r1 ls1 n2 r2 ls2 in
  plain body = true -> forallb no_hash pre = true ->
  priority_block_ok n1 r1 d1 ls1 = true ->
  priority_block_ok n2 r2 d2 ls2 = true ->
  exists P1 P2,
    weekPlanOf (body_text body)
    = filter priority_kept [priority_block (ended pre)] ++ [P1; P2]
    /\ (forallb blank_line pre = true ->
        weekPlanOf (body_text body) = [P1; P2])
    /\ Priority.current P1 = lit "45" /\ Priority.target P1 = lit "60"
    /\ Priority.drill P1 = strip_bold (trim d1)
    /\ Priority.current P2 = lit "45" /\ Priority.target P2 = lit "60"
    /\ Priority.drill P2 = strip_bold (trim d2).
Proof.
  intros body Hbody Hpre Hok1 Hok2.
  destruct (two_priorities_lines pre n1 r1 d1 ls1 n2 r2 d2 ls2
              Hpre Hok1 Hok2) as [_ T].
  fold body in T. rewrite T. clear T.
  (* the lines hold no line feed *)
  unfold body, two_priorities in Hbody.
  rewrite plain_app in Hbody. apply andb_true_iff in Hbody as [Lpre Hbody].
  cbn [plain forallb] in Hbody. apply andb_true_iff in Hbody as [Lh1 Hbody].
  fold (plain (ls1 ++ (subheading (lit "Priority") n2 ++ r2) :: ls2)) in Hbody.
  rewrite plain_app in Hbody. apply andb_true_iff in Hbody as [Lls1 Hbody].
  cbn [plain forallb] in Hbody. apply andb_true_iff in Hbody as [Lh2 Lls2].
  fold (plain ls2) in Lls2.
  rewrite no_char_app in Lh1, Lh2.
  apply andb_true_iff in Lh1 as [_ Lr1]. apply andb_true_iff in Lh2 as [_ Lr2].
  (* what the blocks are made of *)
  destruct (priority_block_ok_parts n1 r1 d1 ls1 Hok1)
    as (Dn1 & Hr1 & Fr1 & _ & _ & Hls1 & _ & _ & Ed1).
  destruct (priority_block_ok_parts n2 r2 d2 ls2 Hok2)
    as (Dn2 & Hr2 & Fr2 & _ & _ & Hls2 & _ & _ & Ed2).
  unfold body. rewrite two_priorities_text.
  (* the cut of the body *)
  set (b1 := r1 ++ [LF] ++ ended ls1) in *.
  set (b2 := join (r2 :: ls2) [LF]) in *.
  assert (Hash : ch "#" <> LF) by discriminate.
  assert (S : re_split (subheading_doc (lit "Priority") (ended pre)
                          [(n1, b1); (n2, b2)]) re_priority
              = [ended pre; b1; b2]).
  { apply (re_split_subheading_doc (lit "Priority") eq_refl).
    - apply (no_char_ended _ _ Hash Hpre).
    - cbn [forallb]. unfold block_ok. cbn [fst snd]. rewrite Dn1, Dn2.
      unfold b1, b2, no_hash. rewrite !no_char_app.
      fold (no_hash r1). rewrite Hr1, (no_char_single _ _ Hash).
      rewrite (no_char_ended _ _ Hash Hls1).
      rewrite (no_digit_first_app r1 _ Fr1).
      rewrite (no_char_join (ch "#") (r2 :: ls2) Hash)
        by (cbn [forallb]; fold (no_hash r2); now rewrite Hr2).
      assert (Fb2 : no_digit_first (join (r2 :: ls2) [LF]) = true).
      { destruct ls2 as [|m ls2]; [exact Fr2|].
        rewrite join_cons by discriminate. now apply no_digit_first_app. }
      now rewrite Fb2. }
  unfold weekPlanOf. rewrite S, priorities_of_all_blocks.
  (* the two blocks *)
  destruct (priority_block_of_claim b1 n1 r1 d1 ls1 [[]])
    as (C1 & T1 & D1 & K1);
    [now apply first_block_lines|reflexivity|exact Hok1|].
  destruct (priority_block_of_claim b2 n2 r2 d2 ls2 [])
    as (C2 & T2 & D2 & K2);
    [rewrite app_nil_r; now apply last_block_lines|reflexivity|exact Hok2|].
  exists (priority_block b1), (priority_block b2).
  assert (E : filter priority_kept
                (map priority_block [ended pre; b1; b2])
              = filter priority_kept [priority_block (ended pre)]
                ++ [priority_block b1; priority_block b2]).
  { cbn [map filter]. rewrite K1, K2.
    now destruct (priority_kept (priority_block (ended pre))). }
  split; [exact E|]. split; [|repeat split; assumption].
  intros Hb. rewrite E.
  rewrite (priority_block_blank (ended pre))
    by (apply nonblank_blank; now apply blank_ended).
  reflexivity.
Qed.




(** * The bullets of a body, item by item *)

Lemma trimEnd_split (t : jsstring) :
  exists w, t = trimEnd t ++ w /\ forallb is_space w = true.
Proof.
  destruct (trimStart_split (rev t)) as (sp & E & Hsp & _).
  exists (rev sp). split.
  - unfold trimEnd. rewrite <- rev_app_distr, <- E. now rewrite rev_involutive.
  - now rewrite forallb_rev.
Qed.

Lemma trim_trimEnd (t : jsstring) : trim (trimEnd t) = trim t.
Proof.
  destruct (trimEnd_split t) as (w & E & Hw).
  transitivity (trim (trimEnd t ++ w)); [|now rewrite <- E].
  symmetry. now apply trim_app_spaces.
Qed.

Lemma trim_dash (t : jsstring) : trim (ch "-" :: t) = ch "-" :: trimEnd t.
Proof.
  unfold trim. change (trimStart (ch "-" :: t)) with (ch "-" :: t).
  unfold trimEnd. cbn [rev].
  destruct (trimStart (rev t)) as [|c u] eqn:E.
  - rewrite trimStart_app_spaces by now apply trimStart_nil. reflexivity.
  - rewrite trimStart_app_text by congruence. rewrite E.
    now rewrite rev_app_distr.
Qed.

Lemma title_line_no_bullet (l : jsstring) :
  is_title_line l = true -> is_bullet l = false.
Proof.
  unfold is_title_line, is_bullet. destruct l as [|c l]; [discriminate|].
  change (lit "# ") with [ch "#"; 32%N]. cbn [startsWith]. intros H.
  apply andb_true_iff in H as [H _]. apply N.eqb_eq in H. subst c.
  destruct (trim_keeps_first (ch "#") l eq_refl) as (u & ->). reflexivity.
Qed.

Lemma filter_bullet_titles (body : list jsstring) :
  filter is_bullet (filter not_title body) = filter is_bullet body.
Proof.
  induction body as [|l body IH]; [reflexivity|].
  cbn [filter]. unfold not_title at 1.
  destruct (is_title_line l) eqn:T; cbn [negb filter].
  - now rewrite (title_line_no_bullet l T).
  - now rewrite IH.
Qed.

(** The bullets of a body as the raw mapping keeps it are those of its
    lines. *)
Lemma bullets_body (body : list jsstring) :
  plain body = true ->
  bullets (body_text body) = map strip_bullet (filter is_bullet body).
Proof.
  intros Hp. rewrite <- filter_bullet_titles. unfold body_text.
  destruct (filter not_title body) as [|l ls] eqn:E; [reflexivity|].
  apply (bullets_text_of (l :: ls)); [discriminate|].
  rewrite <- E. unfold plain in *. now apply forallb_filter.
Qed.

(** Where no bullet line is indented, the bullets are the items of the
    body. *)
Lemma bullets_dash_items (body : list jsstring) :
  plain body = true -> unindented body = true ->
  bullets (body_text body) = dash_items body.
Proof.
  intros Hp Hu. rewrite (bullets_body body Hp). unfold dash_items.
  apply map_ext_in. intros l Hl. apply filter_In in Hl as [Hin Hb].
  unfold unindented in Hu. rewrite forallb_forall in Hu.
  specialize (Hu l Hin). cbn beta in Hu. unfold is_bullet in Hb.
  rewrite Hb in Hu. cbn [implb] in Hu.
  destruct l as [|c t]; [discriminate|].
  change (lit "-") with [ch "-"] in Hu. cbn [startsWith] in Hu.
  apply andb_true_iff in Hu as [Hc _]. apply N.eqb_eq in Hc. subst c.
  rewrite strip_bullet_flush, trim_dash. cbn [skipn].
  now rewrite trim_trimEnd.
Qed.

Lemma list_field_populated (f : field) (c : jsstring) (p : Sections)
  (l : list jsstring) :
  populated f c p -> list_field f p = Some l -> l = bullets c.
Proof.
  destruct f; cbn [populated list_field]; intros H E; try discriminate;
    congruence.
Qed.

Lemma plain_document_body (before : list jsstring)
  (secs : list (jsstring * list jsstring)) (sec : jsstring * list jsstring) :
  plain (document before secs) = true -> In sec secs ->
  plain (snd sec) = true.
Proof.
  intros Hp Hin. unfold plain in *. apply forallb_forall. intros l Hl.
  rewrite forallb_forall in Hp. apply Hp.
  unfold document. apply in_or_app. right. apply in_flat_map.
  exists sec. split; [exact Hin|]. now right.
Qed.

(** * One heading for a field *)

Lemma section_body_classify (s : Sections) (a k : jsstring) :
  section_body (classify s a) k = section_body s k.
Proof. reflexivity. Qed.

Lemma populated_unselected (f : field) (c : jsstring) (s : Sections)
  (k : jsstring) :
  predicate f (toLowerCase k) = false ->
  populated f c s -> populated f c (classify s k).
Proof.
  destruct f; cbn [predicate populated classify bigPicture immediateFocus
    drills dailyPlan weeklySchedule weekPlan strengths progression
    sessionPlan checkpoints mentalCues traps]; intros -> H; exact H.
Qed.

Lemma at_default_unselected (f : field) (s : Sections) (k : jsstring) :
  predicate f (toLowerCase k) = false ->
  at_default f s -> at_default f (classify s k).
Proof.
  destruct f; cbn [predicate at_default classify immediateFocus
    progression]; intros H D; try exact I; now rewrite H.
Qed.

Lemma classify_populated_at (f : field) (s : Sections) (k : jsstring) :
  predicate f (toLowerCase k) = true -> at_default f s ->
  populated f (section_body s k) (classify s k).
Proof.
  intros H D. unfold section_body.
  destruct f; cbn [populated classify bigPicture immediateFocus drills
    dailyPlan weeklySchedule weekPlan strengths progression sessionPlan
    checkpoints mentalCues traps]; cbn [predicate] in H; rewrite H;
    cbn [at_default] in D; rewrite ?D; reflexivity.
Qed.

Lemma populated_fold_unselected (f : field) (c : jsstring)
  (keys : list jsstring) (s : Sections) :
  Forall (fun k => predicate f (toLowerCase k) = false) keys ->
  populated f c s -> populated f c (fold_left classify keys s).
Proof.
  intros H. revert s. induction H as [|k keys Hk _ IH]; intros s P;
    [exact P|].
  cbn [fold_left]. apply IH. now apply populated_unselected.
Qed.

(** When one key alone is selected for a field, the field holds what its
    rule makes of the body under that key. *)
Lemma populated_fold_only (f : field) (keys : list jsstring) (s : Sections)
  (k : jsstring) :
  NoDup keys -> In k keys -> predicate f (toLowerCase k) = true ->
  (forall k', In k' keys -> k' <> k -> predicate f (toLowerCase k') = false) ->
  at_default f s ->
  populated f (section_body s k) (fold_left classify keys s).
Proof.
  intros N. revert s. induction N as [|a keys Ha N IH]; intros s Hin Hk Ho D;
    [contradiction|].
  cbn [fold_left]. destruct (str_eqb a k) eqn:E.
  - apply str_eqb_eq in E. subst a.
    apply populated_fold_unselected; [|now apply classify_populated_at].
    apply Forall_forall. intros k' Hk'. apply Ho; [now right|].
    intros ->. contradiction.
  - assert (Hne : a <> k).
    { intros ->. rewrite str_eqb_refl in E. discriminate. }
    destruct Hin as [->|Hin]; [congruence|].
    rewrite <- (section_body_classify s a k). apply IH.
    + exact Hin.
    + exact Hk.
    + intros k' Hk' Hn. apply Ho; [now right|exact Hn].
    + apply at_default_unselected; [|exact D]. apply Ho; [now left|exact Hne].
Qed.

(** ** The keys of the raw mapping of a document *)

Lemma save_NoDup (raw : list (jsstring * jsstring))
  (sec : jsstring * list jsstring) :
  NoDup (map fst raw) -> NoDup (map fst (save raw sec)).
Proof.
  intros H. unfold save, raw_set.
  destruct (truthy (trim (fst sec))); [|exact H].
  destruct (str_eqb (trim (fst sec)) (lit "__proto__")); [exact H|].
  now apply raw_put_NoDup.
Qed.

Lemma saved_NoDup (secs : list (jsstring * list jsstring))
  (raw : list (jsstring * jsstring)) :
  NoDup (map fst raw) -> NoDup (map fst (fold_left save secs raw)).
Proof.
  revert raw; induction secs as [|sec secs IH]; intros raw H; [exact H|].
  cbn [fold_left]. apply IH. now apply save_NoDup.
Qed.

Lemma save_keys (raw : list (jsstring * jsstring))
  (sec : jsstring * list jsstring) (k : jsstring) :
  In k (map fst (save raw sec)) -> In k (map fst raw) \/ k = trim (fst sec).
Proof.
  unfold save, raw_set.
  destruct (truthy (trim (fst sec))); [|now left].
  destruct (str_eqb (trim (fst sec)) (lit "__proto__")); [now left|].
  apply raw_put_keys.
Qed.

Lemma saved_keys (secs : list (jsstring * list jsstring))
  (raw : list (jsstring * jsstring)) (k : jsstring) :
  In k (map fst (fold_left save secs raw)) ->
  In k (map fst raw) \/ exists sec, In sec secs /\ k = trim (fst sec).
Proof.
  revert raw; induction secs as [|sec secs IH]; intros raw H; [now left|].
  cbn [fold_left] in H. destruct (IH _ H) as [H'|(sec' & Hin & E)].
  - apply save_keys in H' as [H'| ->]; [now left|].
    right. exists sec. split; [now left|reflexivity].
  - right. exists sec'. split; [now right|exact E].
Qed.

Lemma raw_get_In (raw : list (jsstring * jsstring)) (k v : jsstring) :
  raw_get raw k = Some v -> In k (map fst raw).
Proof.
  induction raw as [|[k0 x] raw IH]; cbn [raw_get map fst]; [discriminate|].
  destruct (str_eqb k0 k) eqn:E; [|intros H; right; now apply IH].
  intros _. left. now apply str_eqb_eq.
Qed.

(** The keys that are array indices come first, and no predicate selects
    them: the plan is that of the keys in the order of their creation. *)
Lemma classify_object_keys (raw : list (jsstring * jsstring)) (s : Sections) :
  fold_left classify (object_keys raw) s
  = fold_left classify (map fst raw) s.
Proof.
  unfold object_keys. rewrite fold_left_app.
  rewrite (classify_index_keys _ s (index_keys_digits _)).
  apply classify_other_keys.
Qed.

(** * One section, two fields *)

(** Every rule reads something from the sample body. *)
Lemma sample_filled (f : field) (p : Sections) :
  populated f (body_text sample_body) p -> filled f p.
Proof.
  destruct f; cbn [populated filled]; intros ->; vm_compute; discriminate.
Qed.

(** C9.  A document with a single section whose heading two predicates
    select, such as [Progress and Priorities].  The predicates are tested
    one after the other and none excludes another: the section is in the raw
    mapping, and each of the two fields is filled from the body of that one
    section by its own rule.  What the fields then hold: a field that is a
    list of bullets holds the items of the body, its lines that start with
    the dash, each without the dash and trimmed, where no bullet line is
    indented; and when the body is made of two priority blocks, each with a
    line [Drill: d] and the line [Current: 45 -> 60], the week plan holds
    their two priorities, with current 45, target 60 and the drill of their
    block, after the priority of the text before the first block when the
    filter keeps it, while the list of bullets holds the items of the same
    body.  And the two fields can be filled at once, whatever the two
    predicates: with the sample body, which has something for every rule,
    neither field is left as the parser creates it. *)
Theorem two_predicates_one_section :
  (forall (before : list jsstring) (h : jsstring) (body : list jsstring)
     (f1 f2 : field),
     plain (document before [(h, body)]) = true ->
     no_heading before = true -> no_heading body = true ->
     predicate f1 (toLowerCase (trim h)) = true ->
     predicate f2 (toLowerCase (trim h)) = true ->
     exists p,
       parseTrainingPlan (text_of (document before [(h, body)])) = Some p
       /\ rawSections p = [(trim h, body_text body)]
       /\ populated f1 (body_text body) p
       /\ populated f2 (body_text body) p
       /\ (unindented body = true ->
           forall f l, predicate f (toLowerCase (trim h)) = true ->
                       list_field f p = Some l -> l = dash_items body))
  /\ (forall (before : list jsstring) (h : jsstring) (f : field)
       (pre : list jsstring)
       (n1 r1 d1 : jsstring) (ls1 : list jsstring)
       (n2 r2 d2 : jsstring) (ls2 : list jsstring),
       let body := two_priorities pre n1 r1 ls1 n2 r2 ls2 in
       plain (document before [(h, body)]) = true ->
       no_heading before = true ->
       predicate f (toLowerCase (trim h)) = true ->
       is_week_plan (toLowerCase (trim h)) = true ->
       forallb no_hash pre = true ->
       priority_block_ok n1 r1 d1 ls1 = true ->
       priority_block_ok n2 r2 d2 ls2 = true ->
       unindented body = true ->
       exists p P1 P2,
         parseTrainingPlan (text_of (document before [(h, body)])) = Some p
         /\ (forall l, list_field f p = Some l -> l = dash_items body)
         /\ weekPlan p
            = filter priority_kept [priority_block (ended pre)] ++ [P1; P2]
         /\ Priority.current P1 = lit "45" /\ Priority.target P1 = lit "60"
         /\ Priority.drill P1 = strip_bold (trim d1)
         /\ Priority.current P2 = lit "45" /\ Priority.target P2 = lit "60"
         /\ Priority.drill P2 = strip_bold (trim d2))
  /\ forall (before : list jsstring) (h : jsstring) (f1 f2 : field),
       plain (document before [(h, sample_body)]) = true ->
       no_heading before = true ->
       predicate f1 (toLowerCase (trim h)) = true ->
       predicate f2 (toLowerCase (trim h)) = true ->
       exists p,
         parseTrainingPlan (text_of (document before [(h, sample_body)]))
         = Some p
         /\ filled f1 p /\ filled f2 p.
Proof.
  split; [|split].
  - intros before h body f1 f2 Hp Hb Hbody H1 H2.
    destruct (single_section_plan before h body f1 Hp Hb Hbody H1)
      as (p & P & R & F).
    exists p. split; [exact P|]. split; [exact R|].
    split; [now apply F|]. split; [now apply F|].
    intros U f l Hf L.
    rewrite (list_field_populated f _ p l (F f Hf) L).
    apply bullets_dash_items; [|exact U].
    now apply (plain_single_body before h).
  - intros before h f pre n1 r1 d1 ls1 n2 r2 d2 ls2 body Hp Hb Hf Hw Hpre
      Hok1 Hok2 U.
    destruct (two_priorities_lines pre n1 r1 d1 ls1 n2 r2 d2 ls2
                Hpre Hok1 Hok2) as [Hnh _].
    fold body in Hnh.
    destruct (single_section_plan before h body FWeekPlan Hp Hb Hnh Hw)
      as (p & P & _ & F).
    pose proof (plain_single_body before h body Hp) as Hpl.
    destruct (two_priorities_week_plan pre n1 r1 d1 ls1 n2 r2 d2 ls2
                Hpl Hpre Hok1 Hok2) as (P1 & P2 & E & _ & Fs).
    fold body in E.
    exists p, P1, P2. split; [exact P|]. split.
    + intros l L. rewrite (list_field_populated f _ p l (F f Hf) L).
      now apply bullets_dash_items.
    + pose proof (F FWeekPlan Hw) as W. cbn [populated] in W.
      rewrite W. split; [exact E|exact Fs].
  - intros before h f1 f2 Hp Hb H1 H2.
    destruct (single_section_plan before h sample_body f1 Hp Hb eq_refl H1)
      as (p & P & _ & F).
    exists p. split; [exact P|].
    split; apply sample_filled; now apply F.
Qed.

Lemma two_predicates_one_section_witness :
  let body :=
    two_priorities [lit "- Edge angle above 60"]
      (lit "1") (lit ": Edging")
      [drill_text (lit "Railroad tracks"); current_line]
      (lit "2") (lit ": Balance")
      [lit "- Hold the edge "; current_line;
       drill_text (lit "One-ski turns")] in
  exists p,
    parseTrainingPlan
      (text_of (document [lit "# Plan"] [(lit "Progress and Priorities", body)]))
    = Some p
    /\ checkpoints p = [lit "Edge angle above 60"; lit "Hold the edge"]
    /\ map Priority.name (weekPlan p)
       = [lit "- Edge angle above 60"; lit "Edging"; lit "Balance"]
    /\ map Priority.current (weekPlan p) = [[]; lit "45"; lit "45"]
    /\ map Priority.target (weekPlan p) = [[]; lit "60"; lit "60"]
    /\ map Priority.drill (weekPlan p)
       = [[]; lit "Railroad tracks"; lit "One-ski turns"].
Proof.
  intros body.
  destruct (proj1 (proj2 two_predicates_one_section) [lit "# Plan"]
              (lit "Progress and Priorities") FCheckpoints
              [lit "- Edge angle above 60"]
              (lit "1") (lit ": Edging") (lit "Railroad tracks")
              [drill_text (lit "Railroad tracks"); current_line]
              (lit "2") (lit ": Balance") (lit "One-ski turns")
              [lit "- Hold the edge "; current_line;
               drill_text (lit "One-ski turns")]
              eq_refl eq_refl eq_refl eq_refl eq_refl eq_refl eq_refl eq_refl)
    as (p & P1 & P2 & P & L & W & C1 & T1 & D1 & C2 & T2 & D2).
  exists p. split; [exact P|]. split; [exact (L _ eq_refl)|].
  split; [injection P as <-; reflexivity|].
  rewrite W, !map_app. cbn [map].
  rewrite C1, T1, D1, C2, T2, D2. repeat split; reflexivity.
Defined.

(** * Two sections under one heading *)

(** C3, as the code has it.  The typed lists are assigned, never appended
    to: after the parse, each of the five lists of bullets holds the bullets
    of one body, the body that the raw mapping has for the last heading, in
    the order of [Object.keys], that its predicate selects, and is empty
    when it selects none.  In a document with two sections under the same
    heading, whatever its other sections, the raw mapping has one entry for
    the heading, and it holds the body of the later section, the last under
    that heading.  When the predicate of a field selects that heading and no
    other heading of the document, the field holds what its rule makes of
    the body of the later section and nothing of the earlier one: for a list
    of bullets, the items of the later body, its lines that start with the
    dash, each without the dash and trimmed, where no bullet line is
    indented. *)
Theorem duplicate_heading_keeps_last :
  (forall (lines : list jsstring) (f : field) (l : list jsstring),
     let p := parse_lines lines in
     list_field f p = Some l ->
     l = match last_selected f (object_keys (rawSections p)) with
         | Some k => bullets (section_body p k)
         | None => []
         end)
  /\ forall (before : list jsstring)
       (earlier middle later : list (jsstring * list jsstring))
       (h1 h2 : jsstring) (body1 body2 : list jsstring) (f : field),
       let secs := earlier ++ (h1, body1) :: middle ++ (h2, body2) :: later in
       plain (document before secs) = true ->
       no_heading before = true ->
       forallb (fun s => no_heading (snd s)) secs = true ->
       trim h1 = trim h2 ->
       forallb (fun s => negb (str_eqb (trim (fst s)) (trim h2))) later
       = true ->
       predicate f (toLowerCase (trim h2)) = true ->
       exists p,
         parseTrainingPlan (text_of (document before secs)) = Some p
         /\ NoDup (map fst (rawSections p))
         /\ raw_get (rawSections p) (trim h2) = Some (body_text body2)
         /\ (forallb (only_heading f (trim h2)) secs = true ->
             populated f (body_text body2) p
             /\ forall l, list_field f p = Some l ->
                  l = bullets (body_text body2)
                  /\ (unindented body2 = true -> l = dash_items body2)).
Proof.
  split.
  { intros lines f l p H. unfold p, parse_lines in *.
    destruct (list_field_fold f _ _ l H) as (l0 & H0 & E).
    rewrite classify_fold_raw. rewrite E.
    destruct (last_selected f (object_keys
                (rawSections (scanned_sections lines)))) as [k|].
    - now rewrite section_body_fold.
    - destruct f; cbn in H0; congruence. }
  intros before earlier middle later h1 h2 body1 body2 f secs Hp Hb Hs Hh Hl H.
  destruct (predicate_key f (trim h2) H) as [Ht Hproto].
  set (doc := document before secs) in *.
  set (s := scanned_sections doc).
  assert (S : secs = (earlier ++ (h1, body1) :: middle) ++ (h2, body2) :: later).
  { unfold secs. now rewrite <- app_assoc. }
  assert (R : rawSections s = fold_left save secs []).
  { unfold s, doc. now apply scanned_document. }
  assert (G : raw_get (rawSections s) (trim h2) = Some (body_text body2)).
  { rewrite R, S.
    apply (raw_get_save_last (earlier ++ (h1, body1) :: middle) later
             (h2, body2)); cbn [fst snd].
    - intros E. rewrite E in Ht. discriminate.
    - intros E. rewrite E, str_eqb_refl in Hproto. discriminate.
    - apply Forall_forall. intros s' Hin E.
      rewrite forallb_forall in Hl. specialize (Hl s' Hin).
      rewrite E, str_eqb_refl in Hl. discriminate. }
  assert (N : NoDup (map fst (rawSections s))).
  { rewrite R. apply saved_NoDup. constructor. }
  exists (parse_lines doc).
  split.
  { apply parse_document; [|exact Hp]. unfold secs.
    destruct earlier; discriminate. }
  unfold parse_lines. fold s. rewrite classify_fold_raw.
  split; [exact N|]. split; [exact G|].
  intros Ho. rewrite classify_object_keys.
  assert (B : section_body s (trim h2) = body_text body2).
  { unfold section_body. now rewrite G. }
  assert (P : populated f (body_text body2)
                (fold_left classify (map fst (rawSections s)) s)).
  { rewrite <- B. apply populated_fold_only.
    - exact N.
    - now apply (raw_get_In _ _ (body_text body2)).
    - exact H.
    - intros k' Hk' Hn. rewrite R in Hk'.
      apply saved_keys in Hk' as [[]|(sec & Hin & ->)].
      rewrite forallb_forall in Ho. specialize (Ho sec Hin).
      unfold only_heading in Ho. apply orb_true_iff in Ho as [Ho|Ho].
      + apply str_eqb_eq in Ho. congruence.
      + now apply negb_true_iff in Ho.
    - unfold s, scanned_sections. destruct f; cbn; auto. }
  split; [exact P|].
  intros l L. rewrite (list_field_populated f _ _ l P L).
  split; [reflexivity|].
  intros U. apply bullets_dash_items; [|exact U].
  apply (plain_document_body before secs (h2, body2) Hp).
  rewrite S. apply in_or_app. right. now left.
Qed.

Lemma duplicate_heading_keeps_last_witness :
  (let p :=
     parse_lines [lit "## Checkpoints"; lit "- a"; lit "## Progress";
                  lit "- b"; lit "## Checkpoints"; lit "- c"] in
   [lit "b"]
   = match last_selected FCheckpoints (object_keys (rawSections p)) with
     | Some k => bullets (section_body p k)
     | None => []
     end)
  /\ exists p,
       parseTrainingPlan
         (text_of (document [lit "# Plan"]
            ([(lit "Strengths", [lit "- s"])]
             ++ (lit "Checkpoints", [lit "- a"])
             :: [(lit "Notes", [lit "- n"])]
             ++ (lit "Checkpoints ", [lit "- b "; lit "not an item"])
             :: [(lit "Gear", [lit "- g"])])))
       = Some p
       /\ raw_get (rawSections p) (lit "Checkpoints")
          = Some (text_of [lit "- b "; lit "not an item"])
       /\ map fst (rawSections p)
          = [lit "Strengths"; lit "Checkpoints"; lit "Notes"; lit "Gear"]
       /\ checkpoints p = [lit "b"].
Proof.
  split.
  - apply (proj1 duplicate_heading_keeps_last
             [lit "## Checkpoints"; lit "- a"; lit "## Progress"; lit "- b";
              lit "## Checkpoints"; lit "- c"] FCheckpoints [lit "b"]).
    reflexivity.
  - destruct (proj2 duplicate_heading_keeps_last [lit "# Plan"]
                [(lit "Strengths", [lit "- s"])] [(lit "Notes", [lit "- n"])]
                [(lit "Gear", [lit "- g"])]
                (lit "Checkpoints") (lit "Checkpoints ")
                [lit "- a"] [lit "- b "; lit "not an item"] FCheckpoints
                eq_refl eq_refl eq_refl eq_refl eq_refl eq_refl)
      as (p & P & _ & G & F).
    exists p. split; [exact P|]. split; [exact G|].
    split; [injection P as <-; reflexivity|].
    destruct (F eq_refl) as [_ L].
    exact (proj2 (L _ eq_refl) eq_refl).
Defined.
